(** * Coordination core of the Fluid runtime: SummaryManager and AgentScheduler

    A shallow embedding of
      - packages/runtime/container-runtime/src/summaryManager.ts
      - packages/runtime/agent-scheduler/src/scheduler.ts
    and the properties of their specification that can be stated on it.

    Conventions.
    - A JavaScript value of type [string | undefined] is an [option string].
    - A register value of type [string | null | undefined] is an
      [option (option string)]: [None] is undefined (no entry), [Some None]
      is null (the unclaimed marker), [Some (Some c)] is the client [c].
    - Every method is a function on an explicit state record. Calls into
      collaborators (the register, the summarizer, the logger, the container
      context) are recorded in log fields of that record, oldest first.
    - A promise that is still pending is an entry of a "pending" field; its
      settlement is an event of the dispatch function. *)

From Stdlib Require Import ZArith List Bool String Lia.
From stdpp Require Import base decidable option list strings gmap.
Import ListNotations.
Open Scope string_scope.
Open Scope list_scope.
Open Scope Z_scope.

(** Builds the setter of field [proj] from the eta expansion [eta] of a
    record: every field is copied but [proj], which takes the new value. *)
Ltac setter eta proj :=
  let body := eval hnf in eta in
  let abstracted := eval pattern proj in body in
  lazymatch abstracted with
  | ?F _ =>
      let r := eval cbv beta in (fun v m => F (fun _ => v) m) in
      exact r
  end.

(* ===================================================================== *)
(** * Throttler *)
(* ===================================================================== *)

Module Throttler.

(** Modelled from the spec: the Throttler class lives in
    orderedClientElection.ts, which is not among the sources; only its use
    in summaryManager.ts is. Section 4.2: parameters [windowMs],
    [maxDelayMs], [delayFn]; state [{windowStart, attempts}]. *)
Record t := { windowStart : Z; attempts : nat }.

(** Modelled from the spec: "getDelay(): if elapsed time since windowStart
    exceeds windowMs, reset attempts to 0 and restart the window; otherwise
    increment attempts; return min(delayFn(attempts), maxDelayMs)". The
    reading of the clock is the argument [now]. *)
Definition getDelay (windowMs maxDelayMs : Z) (delayFn : nat -> Z)
    (now : Z) (th : t) : Z * t :=
  let th' :=
    if windowMs <? now - windowStart th
    then {| windowStart := now; attempts := 0 |}
    else {| windowStart := windowStart th; attempts := S (attempts th) |} in
  (Z.min (delayFn (attempts th')) maxDelayMs, th').

End Throttler.

(* ===================================================================== *)
(** * SummaryManager (summaryManager.ts) *)
(* ===================================================================== *)

Module SummaryManager.

Definition defaultInitialDelayMs : Z := 5000.
Definition opsToBypassInitialDelay : Z := 4000.
Definition defaultThrottleDelayWindowMs : Z := 60 * 1000.
Definition defaultThrottleMaxDelayMs : Z := 30 * 1000.
(** [20 * (Math.pow(2, n) - 1)]: 0ms, 20ms, 60ms, 140ms, ... *)
Definition defaultThrottleDelayFunction (n : nat) : Z := 20 * (2 ^ Z.of_nat n - 1).

Inductive SummaryManagerState := Off | Starting | Running | Stopping | Disabled.

(** The numeric values of the enum. *)
Definition SummaryManagerState_value (s : SummaryManagerState) : Z :=
  match s with
  | Off => 0 | Starting => 1 | Running => 2 | Stopping => 3 | Disabled => -1
  end.

#[global] Instance SummaryManagerState_eq_dec : EqDecision SummaryManagerState.
Proof. solve_decision. Defined.

Inductive StopReason := parentNotConnected | parentShouldNotSummarize | disposed.

#[global] Instance StopReason_eq_dec : EqDecision StopReason.
Proof. solve_decision. Defined.

(** [{ shouldSummarize: true; shouldStart } | { shouldSummarize: false; stopReason }] *)
Inductive ShouldSummarizeState :=
| ShouldSummarize (shouldStart : bool)
| ShouldNotSummarize (stopReason : StopReason).

Definition shouldSummarize (s : ShouldSummarizeState) : bool :=
  match s with ShouldSummarize _ => true | ShouldNotSummarize _ => false end.

(** An [ISummarizer] object, by identity. *)
Definition Summarizer := nat.

(** Calls made on summarizer objects. *)
Inductive SummarizerCall :=
| CallUpdateOnBehalfOf (s : Summarizer) (clientId : string)
| CallRun (s : Summarizer) (onBehalfOf : option string)
| CallStop (s : Summarizer) (reason : StopReason).

Record ITrackedClient := { trackedClientId : string; sequenceNumber : Z }.

(** Modelled from the spec: OrderedClientElection (orderedClientElection.ts
    is not among the sources) is seen through what it "exposes" (section
    4.1): the elected client and the count of summarizer clients in the
    quorum. Its two events carry the new values. *)
Record OrderedClientElection :=
  { getElectedClient : option ITrackedClient; getSummarizerCount : nat }.

(** The [PromiseTimer] of the initial delay: started by the constructor,
    cleared by [dispose]. *)
Inductive PromiseTimer := TimerStarted | TimerCleared.

(** A call of [createSummarizer(delayMs)] whose promise is not settled. *)
Record CreateRequest := { delayMs : Z; shouldInitialDelay : bool }.

(** What the constructor receives and never changes. [summarizerClientType]
    is a constant of orderedClientElection.ts. *)
Record Config := {
  summariesEnabled : bool;
  clientDetailsType : option string;      (* context.clientDetails.type *)
  summarizerClientType : string;
  maxOpsSinceLastSummary : Z;
  initialSequenceNumber : Z               (* context.deltaManager.initialSequenceNumber *)
}.

Record Manager := {
  (* fields of the class *)
  connected : bool;
  clientId : option string;
  latestClientId : option string;
  electedClientId : option string;
  state : SummaryManagerState;
  runningSummarizer : option Summarizer;
  _disposed : bool;
  startThrottler : Throttler.t;
  opsUntilFirstConnect : Z;
  lastSummaryAckSeqForClient : Z;
  hasSummarizersInQuorum : bool;
  hasLoggedTelemetry : bool;
  (* collaborators *)
  orderedClients : OrderedClientElection;
  initialDelayTimer : PromiseTimer;
  addMemberListener : bool;               (* opsUntilFirstConnectHandler is attached *)
  clock : Z;                              (* Date.now() *)
  (* pending promises *)
  pendingCreate : list CreateRequest;
  pendingRun : list Summarizer;
  (* effects, oldest first *)
  summarizerCalls : list SummarizerCall;
  summarizingErrorListeners : list Summarizer;
  emitted : list (option string);         (* emit("summarizer", id) *)
  warnings : list string;                 (* context.raiseContainerWarning *)
  telemetry : list string;                (* event names sent to the logger *)
  stateTrace : list SummaryManagerState   (* every value assigned to this.state *)
}.

Definition eta_Manager (m : Manager) : Manager :=
  Build_Manager (connected m) (clientId m) (latestClientId m) (electedClientId m)
    (state m) (runningSummarizer m) (_disposed m) (startThrottler m)
    (opsUntilFirstConnect m) (lastSummaryAckSeqForClient m)
    (hasSummarizersInQuorum m) (hasLoggedTelemetry m) (orderedClients m)
    (initialDelayTimer m) (addMemberListener m) (clock m) (pendingCreate m)
    (pendingRun m) (summarizerCalls m) (summarizingErrorListeners m) (emitted m)
    (warnings m) (telemetry m) (stateTrace m).

Definition set_connected : bool -> Manager -> Manager :=
  ltac:(setter eta_Manager connected).
Definition set_clientId : option string -> Manager -> Manager :=
  ltac:(setter eta_Manager clientId).
Definition set_latestClientId : option string -> Manager -> Manager :=
  ltac:(setter eta_Manager latestClientId).
Definition set_electedClientId : option string -> Manager -> Manager :=
  ltac:(setter eta_Manager electedClientId).
Definition set_state : SummaryManagerState -> Manager -> Manager :=
  ltac:(setter eta_Manager state).
Definition set_runningSummarizer : option Summarizer -> Manager -> Manager :=
  ltac:(setter eta_Manager runningSummarizer).
Definition set_disposed : bool -> Manager -> Manager :=
  ltac:(setter eta_Manager _disposed).
Definition set_startThrottler : Throttler.t -> Manager -> Manager :=
  ltac:(setter eta_Manager startThrottler).
Definition set_opsUntilFirstConnect : Z -> Manager -> Manager :=
  ltac:(setter eta_Manager opsUntilFirstConnect).
Definition set_lastSummaryAckSeqForClient : Z -> Manager -> Manager :=
  ltac:(setter eta_Manager lastSummaryAckSeqForClient).
Definition set_hasSummarizersInQuorum : bool -> Manager -> Manager :=
  ltac:(setter eta_Manager hasSummarizersInQuorum).
Definition set_hasLoggedTelemetry : bool -> Manager -> Manager :=
  ltac:(setter eta_Manager hasLoggedTelemetry).
Definition set_orderedClients : OrderedClientElection -> Manager -> Manager :=
  ltac:(setter eta_Manager orderedClients).
Definition set_initialDelayTimer : PromiseTimer -> Manager -> Manager :=
  ltac:(setter eta_Manager initialDelayTimer).
Definition set_addMemberListener : bool -> Manager -> Manager :=
  ltac:(setter eta_Manager addMemberListener).
Definition set_clock : Z -> Manager -> Manager :=
  ltac:(setter eta_Manager clock).
Definition set_pendingCreate : list CreateRequest -> Manager -> Manager :=
  ltac:(setter eta_Manager pendingCreate).
Definition set_pendingRun : list Summarizer -> Manager -> Manager :=
  ltac:(setter eta_Manager pendingRun).
Definition set_summarizerCalls : list SummarizerCall -> Manager -> Manager :=
  ltac:(setter eta_Manager summarizerCalls).
Definition set_summarizingErrorListeners : list Summarizer -> Manager -> Manager :=
  ltac:(setter eta_Manager summarizingErrorListeners).
Definition set_emitted : list (option string) -> Manager -> Manager :=
  ltac:(setter eta_Manager emitted).
Definition set_warnings : list string -> Manager -> Manager :=
  ltac:(setter eta_Manager warnings).
Definition set_telemetry : list string -> Manager -> Manager :=
  ltac:(setter eta_Manager telemetry).
Definition set_stateTrace : list SummaryManagerState -> Manager -> Manager :=
  ltac:(setter eta_Manager stateTrace).


(** ** Methods *)

Section Methods.

Variable cfg : Config.

Definition logTelemetry (eventName : string) (m : Manager) : Manager :=
  set_telemetry (telemetry m ++ [eventName]) m.

Definition callSummarizer (c : SummarizerCall) (m : Manager) : Manager :=
  set_summarizerCalls (summarizerCalls m ++ [c]) m.

(** An assignment [this.state = s]. *)
Definition assign_state (s : SummaryManagerState) (m : Manager) : Manager :=
  set_stateTrace (stateTrace m ++ [s]) (set_state s m).

(** [get summarizer()] *)
Definition summarizer (m : Manager) : option string := electedClientId m.

Definition setClientId (clientId : option string) (m : Manager) : Manager :=
  let m := set_clientId clientId m in
  match clientId with
  | Some c =>
      let m := set_latestClientId (Some c) m in
      match runningSummarizer m with
      | Some s => callSummarizer (CallUpdateOnBehalfOf s c) m
      | None => m
      end
  | None => m
  end.

Definition getShouldSummarizeState (m : Manager) : ShouldSummarizeState :=
  if negb (connected m) then
    ShouldNotSummarize parentNotConnected
  else if negb (bool_decide (clientId m = summarizer m)) then
    ShouldNotSummarize parentShouldNotSummarize
  else if _disposed m then
    ShouldNotSummarize disposed
  else if (0 <? getSummarizerCount (orderedClients m))%nat then
    ShouldSummarize false
  else
    ShouldSummarize true.

Definition raiseContainerWarning (warning : string) (m : Manager) : Manager :=
  set_warnings (warnings m ++ [warning]) m.

(** The synchronous part of [createSummarizer(delayMs)]: the telemetry
    event and the two flags; the promise stays pending until the delays have
    passed and the loader has answered ([createSummarizer_settle]). *)
Definition createSummarizer (delayMs : Z) (m : Manager) : Manager :=
  let m := logTelemetry "CreatingSummarizer" m in
  let shouldInitialDelay := opsUntilFirstConnect m <? opsToBypassInitialDelay in
  set_pendingCreate
    (pendingCreate m ++
       [{| delayMs := delayMs; shouldInitialDelay := shouldInitialDelay |}]) m.

Definition start (m : Manager) : Manager :=
  if negb (summariesEnabled cfg) then
    assign_state Disabled (logTelemetry "SummariesDisabled" m)
  else if bool_decide (clientDetailsType cfg = Some (summarizerClientType cfg)) then
    assign_state Disabled m
  else
    let m := assign_state Starting m in
    let '(delayMs, throttler) :=
      Throttler.getDelay defaultThrottleDelayWindowMs defaultThrottleMaxDelayMs
        defaultThrottleDelayFunction (clock m) (startThrottler m) in
    let m := set_startThrottler throttler m in
    let m :=
      if defaultThrottleMaxDelayMs <=? delayMs
      then raiseContainerWarning "SummaryManager: CreateSummarizer Max Throttle Delay" m
      else m in
    createSummarizer delayMs m.

Definition stop (reason : StopReason) (m : Manager) : Manager :=
  let m := assign_state Stopping m in
  match runningSummarizer m with
  | Some s => callSummarizer (CallStop s reason) m
  | None =>
      assign_state Off (logTelemetry "StopCalledWithoutRunningSummarizer" m)
  end.

(** The synchronous part of [run(summarizer)]; the [finally] callback is
    [run_finally]. *)
Definition run (s : Summarizer) (m : Manager) : Manager :=
  let m := assign_state Running m in
  let clientId := latestClientId m in
  let m := set_runningSummarizer (Some s) m in
  let m := logTelemetry "RunningSummarizer" m in
  let m := callSummarizer (CallRun s clientId) m in
  let m := set_pendingRun (pendingRun m ++ [s]) m in
  match getShouldSummarizeState m with
  | ShouldNotSummarize stopReason => stop stopReason m
  | ShouldSummarize _ => m
  end.

Definition tryRestart (m : Manager) : Manager :=
  match getShouldSummarizeState m with
  | ShouldSummarize true => start m
  | _ => assign_state Off m
  end.

Definition refreshSummarizer (m : Manager) : Manager :=
  let newSummarizerClientId :=
    option_map trackedClientId (getElectedClient (orderedClients m)) in
  let m :=
    if negb (bool_decide (newSummarizerClientId = electedClientId m)) then
      let m := set_electedClientId newSummarizerClientId m in
      set_emitted (emitted m ++ [newSummarizerClientId]) m
    else m in
  let shouldSummarizeState := getShouldSummarizeState m in
  match state m with
  | Off =>
      match shouldSummarizeState with
      | ShouldSummarize true => start m
      | _ => m
      end
  | Starting => m
  | Running =>
      match shouldSummarizeState with
      | ShouldNotSummarize stopReason => stop stopReason m
      | ShouldSummarize _ => m
      end
  | Stopping => m
  | Disabled => m
  end.

Definition updateConnected (connected' : bool) (clientId : option string)
    (m : Manager) : Manager :=
  if bool_decide (connected m = connected') then m
  else
    let m := set_connected connected' m in
    let m := setClientId clientId m in
    refreshSummarizer m.

Definition setConnected (clientId : string) (m : Manager) : Manager :=
  updateConnected true (Some clientId) m.

Definition setDisconnected (m : Manager) : Manager :=
  updateConnected false None m.

Definition dispose (m : Manager) : Manager :=
  let m := set_initialDelayTimer TimerCleared m in
  set_disposed true m.

(** ** Promise callbacks *)

Record IResponse :=
  { status : Z; mimeType : string; ISummarizer : option Summarizer }.

(** The end of [createSummarizer], after [await loader.request(request)]:
    [None] is a rejected promise ([loader.request] itself rejected, when
    [response] is [None], or one of the two [Promise.reject]). *)
Definition createSummarizer_settle (response : option IResponse) : option Summarizer :=
  match response with
  | None => None
  | Some r =>
      if negb (status r =? 200)
         || (negb (String.eqb (mimeType r) "fluid/object")
             && negb (String.eqb (mimeType r) "fluid/component"))
      then None
      else ISummarizer r
  end.

(** [createSummarizer(delayMs).then(onFulfilled, onRejected)] in [start]. *)
Definition start_onFulfilled (s : Summarizer) (m : Manager) : Manager :=
  let m := set_summarizingErrorListeners (summarizingErrorListeners m ++ [s]) m in
  run s m.

Definition start_onRejected (m : Manager) : Manager :=
  tryRestart (logTelemetry "CreateSummarizerError" m).

(** [.finally(() => { ... })] in [run]. *)
Definition run_finally (m : Manager) : Manager :=
  tryRestart (set_runningSummarizer None m).

(** ** Listeners attached by the constructor *)

Definition opsUntilFirstConnectHandler (clientId' : string) (details : Z)
    (m : Manager) : Manager :=
  if (opsUntilFirstConnect m =? -1) && bool_decide (Some clientId' = clientId m) then
    let m := set_addMemberListener false m in
    set_opsUntilFirstConnect (details - initialSequenceNumber cfg) m
  else m.

Definition onDefaultOp (opSequenceNumber : Z) (m : Manager) : Manager :=
  let opsSinceLastAckForClient := opSequenceNumber - lastSummaryAckSeqForClient m in
  if (maxOpsSinceLastSummary cfg <? opsSinceLastAckForClient)
     && negb (hasLoggedTelemetry m)
     && negb (bool_decide (electedClientId m = None))
  then logTelemetry "ElectedClientNotSummarizing" m
  else m.

Definition onSummaryAck (opSequenceNumber : Z) (m : Manager) : Manager :=
  set_lastSummaryAckSeqForClient opSequenceNumber (set_hasLoggedTelemetry false m).

Definition onSummarizerChange (summarizerCount : nat) (m : Manager) : Manager :=
  let prev := hasSummarizersInQuorum m in
  let m := set_hasSummarizersInQuorum (0 <? summarizerCount)%nat m in
  if negb (Bool.eqb prev (hasSummarizersInQuorum m)) then refreshSummarizer m else m.

Definition onElectedChange (client : option ITrackedClient) (m : Manager) : Manager :=
  let m := set_hasLoggedTelemetry false m in
  let m :=
    match client with
    | Some c => set_lastSummaryAckSeqForClient (sequenceNumber c) m
    | None => m
    end in
  refreshSummarizer m.

(** ** The constructor *)

Definition construct (contextConnected : bool) (contextClientId : option string)
    (election : OrderedClientElection) (now : Z) : Manager :=
  let m :=
    {| connected := contextConnected; clientId := None; latestClientId := None;
       electedClientId := None; state := Off; runningSummarizer := None;
       _disposed := false;
       startThrottler := {| Throttler.windowStart := now; Throttler.attempts := 0 |};
       opsUntilFirstConnect := -1; lastSummaryAckSeqForClient := 0;
       hasSummarizersInQuorum := (0 <? getSummarizerCount election)%nat;
       hasLoggedTelemetry := false;
       orderedClients := election; initialDelayTimer := TimerStarted;
       addMemberListener := true; clock := now;
       pendingCreate := []; pendingRun := [];
       summarizerCalls := []; summarizingErrorListeners := []; emitted := [];
       warnings := []; telemetry := []; stateTrace := [] |} in
  let m := if contextConnected then setClientId contextClientId m else m in
  refreshSummarizer m.

(** ** Events

    The manager is driven by calls of its public methods, by the events of
    its collaborators and by the settlement of the promises it waits for.
    Each runs to completion before the next. *)
Inductive Event :=
| EvSetConnected (clientId : string)
| EvSetDisconnected
| EvDispose
| EvClock (now : Z)
| EvAddMember (clientId : string) (sequenceNumber : Z)
| EvOp (sequenceNumber : Z)
| EvSummaryAck (sequenceNumber : Z)
| EvSummarizerChange (summarizerCount : nat)
| EvElectedChange (client : option ITrackedClient)
| EvCreateSummarizerSettled (response : option IResponse)
| EvSummarizingError (s : Summarizer) (warning : string)
| EvRunSettled (s : Summarizer).

Fixpoint remove_first (s : Summarizer) (l : list Summarizer) : list Summarizer :=
  match l with
  | [] => []
  | x :: l' => if Nat.eqb x s then l' else x :: remove_first s l'
  end.

(** [None]: the event cannot happen in [m] (no such promise is pending, no
    such listener is attached). *)
Definition dispatch (ev : Event) (m : Manager) : option Manager :=
  match ev with
  | EvSetConnected c => Some (setConnected c m)
  | EvSetDisconnected => Some (setDisconnected m)
  | EvDispose => Some (dispose m)
  | EvClock now => Some (set_clock now m)
  | EvAddMember c n =>
      if addMemberListener m then Some (opsUntilFirstConnectHandler c n m) else Some m
  | EvOp n => Some (onDefaultOp n m)
  | EvSummaryAck n => Some (onSummaryAck n m)
  | EvSummarizerChange n =>
      Some (onSummarizerChange n
              (set_orderedClients
                 {| getElectedClient := getElectedClient (orderedClients m);
                    getSummarizerCount := n |} m))
  | EvElectedChange c =>
      Some (onElectedChange c
              (set_orderedClients
                 {| getElectedClient := c;
                    getSummarizerCount := getSummarizerCount (orderedClients m) |} m))
  | EvCreateSummarizerSettled response =>
      match pendingCreate m with
      | [] => None
      | _ :: rest =>
          let m := set_pendingCreate rest m in
          match createSummarizer_settle response with
          | Some s => Some (start_onFulfilled s m)
          | None => Some (start_onRejected m)
          end
      end
  | EvSummarizingError s warning =>
      if existsb (Nat.eqb s) (summarizingErrorListeners m)
      then Some (raiseContainerWarning warning m) else None
  | EvRunSettled s =>
      if existsb (Nat.eqb s) (pendingRun m)
      then Some (run_finally (set_pendingRun (remove_first s (pendingRun m)) m))
      else None
  end.

Fixpoint dispatch_all (evs : list Event) (m : Manager) : option Manager :=
  match evs with
  | [] => Some m
  | ev :: evs' =>
      match dispatch ev m with
      | Some m' => dispatch_all evs' m'
      | None => None
      end
  end.

(** The states a manager can be in: what the constructor returns, and what
    an event makes of such a state. *)
Inductive reachable : Manager -> Prop :=
| reachable_construct contextConnected contextClientId election now :
    reachable (construct contextConnected contextClientId election now)
| reachable_dispatch m ev m' :
    reachable m -> dispatch ev m = Some m' -> reachable m'.

(** ** Vocabulary of the properties *)

(** Under this configuration [start] locks the manager in [Disabled]. *)
Definition neverSummarizes : bool :=
  negb (summariesEnabled cfg)
  || bool_decide (clientDetailsType cfg = Some (summarizerClientType cfg)).

(** Where [start] always disables, no promise is ever pending and the state
    is [Off] or [Disabled]; where it never does, the state is never
    [Disabled]. *)
Definition disabled_inv (m : Manager) : Prop :=
  if neverSummarizes
  then pendingCreate m = [] /\ pendingRun m = [] /\ (state m = Off \/ state m = Disabled)
  else state m <> Disabled.

End Methods.

(** What holds of a manager from its disposal on. *)
Definition disposed_inv (m : Manager) : Prop :=
  _disposed m = true /\ state m <> Running /\ initialDelayTimer m = TimerCleared.

(** ** Scenarios *)

(** The client "A", which joined at sequence number 5000. *)
Definition clientA : ITrackedClient :=
  {| trackedClientId := "A"; sequenceNumber := 5000 |}.

(** A container in which summaries are disabled. *)
Definition cfg_disabled : Config :=
  {| summariesEnabled := false; clientDetailsType := None;
     summarizerClientType := "summarizer"; maxOpsSinceLastSummary := 7000;
     initialSequenceNumber := 0 |}.

(** An interactive container in which summaries are enabled. *)
Definition cfg_enabled : Config :=
  {| summariesEnabled := true; clientDetailsType := None;
     summarizerClientType := "summarizer"; maxOpsSinceLastSummary := 7000;
     initialSequenceNumber := 0 |}.

(** The manager of client "A", connected and elected, no summarizer client
    in the quorum, constructed at time 0. *)
Definition manager_A (cfg : Config) : Manager :=
  construct cfg true (Some "A")
    {| getElectedClient := Some clientA; getSummarizerCount := 0 |} 0.

(** The loader answers with the summarizer object 1. *)
Definition response_ok : IResponse :=
  {| status := 200; mimeType := "fluid/object"; ISummarizer := Some 1%nat |}.

(** The manager of client "A" after the creation of the summarizer has
    failed [n] times in a row. *)
Definition manager_after_failures (n : nat) : option Manager :=
  dispatch_all cfg_enabled (repeat (EvCreateSummarizerSettled None) n)
    (manager_A cfg_enabled).

(** The manager about to make its eleventh attempt in one window. *)
Definition manager_throttled : Manager :=
  match manager_after_failures 9 with
  | Some m => set_pendingCreate [] m
  | None => manager_A cfg_enabled
  end.

(** Client "A" has seen 5000 ops before it joined, is elected and starts a
    summarizer (which bypasses the initial delay); then the manager is
    disposed, and then the loader answers. *)
Definition events_until_Starting : list Event :=
  [EvAddMember "A" 5000; EvElectedChange (Some clientA)].

Definition manager_not_elected : Manager :=
  construct cfg_enabled true (Some "A")
    {| getElectedClient := None; getSummarizerCount := 0 |} 0.

Definition manager_Starting : Manager :=
  match dispatch_all cfg_enabled events_until_Starting manager_not_elected with
  | Some m => m
  | None => manager_not_elected
  end.

End SummaryManager.

(* ===================================================================== *)
(** * AgentScheduler (scheduler.ts) *)
(* ===================================================================== *)

Module AgentScheduler.

Inductive AttachState := Detached | Attaching | Attached.

#[global] Instance AttachState_eq_dec : EqDecision AttachState.
Proof. solve_decision. Defined.

(** A worker callback [() => Promise<void>], by identity. *)
Definition Worker := nat.

(** What the scheduler reads from [this.runtime] and [this.context]. *)
Record Runtime := {
  attachState : AttachState;          (* runtime.attachState *)
  connected : bool;                   (* runtime.connected *)
  runtimeClientId : option string;    (* runtime.clientId *)
  deltaManagerActive : bool;          (* context.deltaManager.active *)
  interactive : bool;  (* context.deltaManager.clientDetails.capabilities.interactive *)
  quorumMembers : list string;        (* runtime.getQuorum().getMember(id) is defined *)
  routingContextAttached : bool       (* runtime.objectsRoutingContext.isAttached *)
}.

(** What a method throws; for an async method, what its promise is rejected
    with. [AssertionFailed c] is a failed [assert(_, c)]. *)
Inductive Error :=
| AlreadyRegistered (taskUrl : string)
| AlreadyAttempted (taskId : string)
| NeverRegistered (taskUrl : string)
| NeverPicked (taskUrl : string)
| AssertionFailed (code : Z).

#[global] Instance Error_eq_dec : EqDecision Error.
Proof. solve_decision. Defined.

(** Notifications of the scheduler. *)
Inductive Notification :=
| picked (key : string)
| released (key : string)
| lost (task : string).

(** [(key, value)] of a call [consensusRegisterCollection.write(key, value)];
    the value [None] is null. *)
Definition Write : Type := string * option string.

Record Scheduler := {
  runtime : Runtime;
  (* fields of the class *)
  registeredTasks : gset string;
  locallyRunnableTasks : list (string * Worker);   (* a Map, in insertion order *)
  runningTasks : list string;                      (* a Set, in insertion order *)
  (* the register as this replica reads it: a Map, in insertion order *)
  consensusRegisterCollection : list (string * option string);
  waitAttached : bool;        (* the callback of runtime.waitAttached() is pending *)
  (* effects, oldest first *)
  writes : list Write;
  emitted : list Notification;
  workerCalls : list Worker;
  errorEvents : list (string * option Error * option string)
}.

Definition eta_Scheduler (m : Scheduler) : Scheduler :=
  Build_Scheduler (runtime m) (registeredTasks m) (locallyRunnableTasks m)
    (runningTasks m) (consensusRegisterCollection m) (waitAttached m) (writes m)
    (emitted m) (workerCalls m) (errorEvents m).

Definition set_runtime : Runtime -> Scheduler -> Scheduler :=
  ltac:(setter eta_Scheduler runtime).
Definition set_registeredTasks : gset string -> Scheduler -> Scheduler :=
  ltac:(setter eta_Scheduler registeredTasks).
Definition set_locallyRunnableTasks : list (string * Worker) -> Scheduler -> Scheduler :=
  ltac:(setter eta_Scheduler locallyRunnableTasks).
Definition set_runningTasks : list string -> Scheduler -> Scheduler :=
  ltac:(setter eta_Scheduler runningTasks).
Definition set_consensusRegisterCollection :
    list (string * option string) -> Scheduler -> Scheduler :=
  ltac:(setter eta_Scheduler consensusRegisterCollection).
Definition set_waitAttached : bool -> Scheduler -> Scheduler :=
  ltac:(setter eta_Scheduler waitAttached).
Definition set_writes : list Write -> Scheduler -> Scheduler :=
  ltac:(setter eta_Scheduler writes).
Definition set_emitted : list Notification -> Scheduler -> Scheduler :=
  ltac:(setter eta_Scheduler emitted).
Definition set_workerCalls : list Worker -> Scheduler -> Scheduler :=
  ltac:(setter eta_Scheduler workerCalls).
Definition set_errorEvents :
    list (string * option Error * option string) -> Scheduler -> Scheduler :=
  ltac:(setter eta_Scheduler errorEvents).

(** ** Maps and sets in insertion order *)

(** [Map.prototype.get] *)
Fixpoint map_get {V} (k : string) (m : list (string * V)) : option V :=
  match m with
  | [] => None
  | (k', v) :: m' => if String.eqb k' k then Some v else map_get k m'
  end.

(** [Map.prototype.has] *)
Definition map_has {V} (k : string) (m : list (string * V)) : bool :=
  match map_get k m with Some _ => true | None => false end.

(** [Map.prototype.set]: a present key keeps its place. *)
Fixpoint map_set {V} (k : string) (v : V) (m : list (string * V)) : list (string * V) :=
  match m with
  | [] => [(k, v)]
  | (k', v') :: m' =>
      if String.eqb k' k then (k, v) :: m' else (k', v') :: map_set k v m'
  end.

(** [Map.prototype.delete] *)
Fixpoint map_delete {V} (k : string) (m : list (string * V)) : list (string * V) :=
  match m with
  | [] => []
  | (k', v') :: m' =>
      if String.eqb k' k then map_delete k m' else (k', v') :: map_delete k m'
  end.

(** [Map.prototype.keys] *)
Definition map_keys {V} (m : list (string * V)) : list string := map fst m.

(** [Set.prototype.has], [add] and [delete] *)
Definition set_has (k : string) (s : list string) : bool := existsb (String.eqb k) s.

Definition set_add (k : string) (s : list string) : list string :=
  if set_has k s then s else s ++ [k].

Definition set_delete (k : string) (s : list string) : list string :=
  List.filter (fun k' => negb (String.eqb k k')) s.

(** ** Computations that read and change the scheduler, and may throw

    What was changed before a throw stays changed. *)

Inductive Result (A : Type) :=
| Ok (a : A)
| Throw (e : Error).
Arguments Ok {A} a.
Arguments Throw {A} e.

Definition M (A : Type) : Type := Scheduler -> Result A * Scheduler.

Definition ret {A} (a : A) : M A := fun s => (Ok a, s).

Definition bind {A B} (m : M A) (k : A -> M B) : M B :=
  fun s =>
    match m s with
    | (Ok a, s') => k a s'
    | (Throw e, s') => (Throw e, s')
    end.

Definition throw {A} (e : Error) : M A := fun s => (Throw e, s).

Definition get : M Scheduler := fun s => (Ok s, s).

Definition modify (f : Scheduler -> Scheduler) : M unit := fun s => (Ok tt, f s).

Declare Scope sched_scope.
Delimit Scope sched_scope with sched.
Notation "x <- m ;; k" := (bind m (fun x => k))
  (at level 100, m at next level, right associativity) : sched_scope.
Notation "m ;; k" := (bind m (fun _ => k))
  (at level 100, right associativity) : sched_scope.
Open Scope sched_scope.

(** [assert(condition, code)] *)
Definition assert (condition : bool) (code : Z) : M unit :=
  if condition then ret tt else throw (AssertionFailed code).

(** [for (const x of l) { body }] *)
Fixpoint for_of {A} (l : list A) (body : A -> M unit) : M unit :=
  match l with
  | [] => ret tt
  | x :: l' => body x ;; for_of l' body
  end.

(** The call of an async function from the outside of it: what it throws
    before its first [await] rejects its promise and is not thrown to the
    caller. [Some e]: the promise is rejected with [e]. *)
Definition async {A} (m : M A) : M (option Error) :=
  fun s =>
    match m s with
    | (Ok _, s') => (Ok None, s')
    | (Throw e, s') => (Ok (Some e), s')
    end.

(** [for (const x of l) { ... }] with a local array that the body extends. *)
Fixpoint for_acc {A B} (l : list A) (acc : B) (body : A -> B -> M B) : M B :=
  match l with
  | [] => ret acc
  | x :: l' => acc' <- body x acc ;; for_acc l' acc' body
  end.

(** [m] keeps the relation [R] between the state it starts in and the state
    it ends in, whether it returns or throws. *)
Definition keeps {A} (R : Scheduler -> Scheduler -> Prop) (m : M A) : Prop :=
  forall s, R s (snd (m s)).

(** The part [π] of the state is left as it was. *)
Definition unchanged {X} (π : Scheduler -> X) (s s' : Scheduler) : Prop := π s' = π s.

(** The log of writes has only grown. *)
Definition writes_extended (s s' : Scheduler) : Prop :=
  exists W, writes s' = writes s ++ W.

(** What no method of the scheduler changes: the runtime and the register
    are as they were, and the log of writes has only grown. *)
Definition env_kept (s s' : Scheduler) : Prop :=
  runtime s' = runtime s /\
  consensusRegisterCollection s' = consensusRegisterCollection s /\
  writes_extended s s'.

(** ** Methods *)

Section Methods.

(** [`${uuid()}_unattached`], drawn once when the module is loaded. *)
Variable UnattachedClientId : string.

(** A string in a condition: the empty string is falsy. *)
Definition truthy (c : string) : bool := negb (String.eqb c "").

(** [private get clientId()] *)
Definition clientId : M string :=
  s <- get ;;
  if bool_decide (attachState (runtime s) = Detached) then ret UnattachedClientId
  else
    match runtimeClientId (runtime s) with
    | Some c => assert (truthy c) 0x117 ;; ret c
    | None => throw (AssertionFailed 0x117)
    end.

Definition getTaskClientId (url : string) (s : Scheduler) : option (option string) :=
  map_get url (consensusRegisterCollection s).

(** [writeCore] up to its [await]: the call of
    [consensusRegisterCollection.write]. *)
Definition writeCore (key : string) (clientId : option string) : M unit :=
  modify (fun s => set_writes (writes s ++ [(key, clientId)]) s).

Definition emit (n : Notification) : M unit :=
  modify (fun s => set_emitted (emitted s ++ [n]) s).

Definition sendErrorEvent (eventName : string) (error : option Error)
    (key : option string) : M unit :=
  modify (fun s => set_errorEvents (errorEvents s ++ [(eventName, error, key)]) s).

Definition isActive (s : Scheduler) : bool :=
  if bool_decide (attachState (runtime s) = Detached) then true
  else if negb (connected (runtime s)) then false
  else deltaManagerActive (runtime s).

(** [registerCore] up to [await Promise.all(registersP)]. *)
Definition registerCore (taskUrls : list string) : M unit :=
  if (0 <? length taskUrls)%nat then
    for_of taskUrls (fun taskUrl => writeCore taskUrl None)
  else ret tt.

(** [registerCore] after the writes are acknowledged. *)
Definition registerCore_resume (taskUrls : list string) : M unit :=
  for_of taskUrls (fun taskUrl =>
    s <- get ;;
    let taskStatus := getTaskClientId taskUrl s in
    assert (negb (bool_decide (taskStatus = None))) 0x11a).

Definition register (taskUrls : list string) : M unit :=
  for_of taskUrls (fun taskUrl =>
    s <- get ;;
    if bool_decide (taskUrl ∈ registeredTasks s)
    then throw (AlreadyRegistered taskUrl) else ret tt) ;;
  unregisteredTasks <-
    for_acc taskUrls [] (fun taskUrl unregisteredTasks =>
      modify (fun s => set_registeredTasks ({[taskUrl]} ∪ registeredTasks s) s) ;;
      s <- get ;;
      let currentClient := getTaskClientId taskUrl s in
      match currentClient with
      | None => ret (unregisteredTasks ++ [taskUrl])
      | Some _ => ret unregisteredTasks
      end) ;;
  registerCore unregisteredTasks.

Definition pick (taskId : string) (worker : Worker) : M unit :=
  s <- get ;;
  (if map_has taskId (locallyRunnableTasks s)
   then throw (AlreadyAttempted taskId) else ret tt) ;;
  modify (fun s =>
    set_locallyRunnableTasks (map_set taskId worker (locallyRunnableTasks s)) s) ;;
  s <- get ;;
  assert (interactive (runtime s)) 0x118 ;;
  if isActive s then
    match getTaskClientId taskId s with
    | None | Some None =>
        c <- clientId ;;
        writeCore taskId (Some c)
    | Some (Some _) => ret tt
    end
  else ret tt.

(** [releaseCore] up to [await Promise.all(releasesP)]. *)
Definition releaseCore (taskUrls : list string) : M unit :=
  if (0 <? length taskUrls)%nat then
    for_of taskUrls (fun taskUrl =>
      modify (fun s =>
        set_locallyRunnableTasks (map_delete taskUrl (locallyRunnableTasks s)) s) ;;
      writeCore taskUrl None)
  else ret tt.

Definition release (taskUrls : list string) : M unit :=
  s <- get ;;
  let active := isActive s in
  for_of taskUrls (fun taskUrl =>
    s <- get ;;
    (if negb (map_has taskUrl (locallyRunnableTasks s))
     then throw (NeverRegistered taskUrl) else ret tt) ;;
    assert active 0x119 ;;
    let current := getTaskClientId taskUrl s in
    c <- clientId ;;
    if negb (bool_decide (current = Some (Some c)))
    then throw (NeverPicked taskUrl) else ret tt) ;;
  releaseCore taskUrls.

Definition pickedTasks (s : Scheduler) : list string := runningTasks s.

(** [clearTasks] up to [await Promise.all(clearP)]. *)
Definition clearTasks (taskUrls : list string) : M unit :=
  s <- get ;;
  assert (isActive s) 0x11b ;;
  for_of taskUrls (fun taskUrl => writeCore taskUrl None).

(** [runtime.getQuorum().getMember(c) === undefined] *)
Definition notInQuorum (c : string) (s : Scheduler) : bool :=
  negb (existsb (String.eqb c) (quorumMembers (runtime s))).

Definition onNewTaskAssigned (key : string) : M unit :=
  s <- get ;;
  assert (negb (set_has key (runningTasks s))) 0x11d ;;
  modify (fun s => set_runningTasks (set_add key (runningTasks s)) s) ;;
  s <- get ;;
  match map_get key (locallyRunnableTasks s) with
  | None => sendErrorEvent "AgentScheduler_UnwantedChange" None (Some key)
  | Some worker =>
      emit (picked key) ;;
      modify (fun s => set_workerCalls (workerCalls s ++ [worker]) s)
  end.

(** [currentClient] has type [string | null]: the assertion that it is not
    undefined holds by the type. *)
Definition onTaskReassigned (key : string) (currentClient : option string) : M unit :=
  s <- get ;;
  (if set_has key (runningTasks s) then
     modify (fun s => set_runningTasks (set_delete key (runningTasks s)) s) ;;
     emit (released key)
   else ret tt) ;;
  s <- get ;;
  if isActive s then
    match currentClient with
    | None =>
        if map_has key (locallyRunnableTasks s) then
          c <- clientId ;;
          writeCore key (Some c)
        else ret tt
    | Some c' =>
        if notInQuorum c' s then writeCore key None else ret tt
    end
  else ret tt.

Definition initializeCore : M unit :=
  s <- get ;;
  for_of (locallyRunnableTasks s) (fun '(taskUrl, _) =>
    s <- get ;;
    match getTaskClientId taskUrl s with
    | Some (Some c') =>
        if truthy c' then ret tt
        else c <- clientId ;; writeCore taskUrl (Some c)
    | _ => c <- clientId ;; writeCore taskUrl (Some c)
    end) ;;
  s <- get ;;
  clearCandidates <-
    for_acc (map_keys (consensusRegisterCollection s)) [] (fun taskUrl clearCandidates =>
      s <- get ;;
      match getTaskClientId taskUrl s with
      | Some (Some currentClient) =>
          if truthy currentClient && notInQuorum currentClient s
          then ret (clearCandidates ++ [taskUrl])
          else ret clearCandidates
      | _ => ret clearCandidates
      end) ;;
  rejected <- async (clearTasks clearCandidates) ;;
  match rejected with
  | Some error => sendErrorEvent "AgentScheduler_InitError" (Some error) None
  | None => ret tt
  end.

Definition clearRunningTasks : M unit :=
  s <- get ;;
  let tasks := runningTasks s in
  modify (set_runningTasks []) ;;
  s <- get ;;
  (if isActive s then initializeCore else ret tt) ;;
  for_of tasks (fun task => emit (lost task)).

(** ** Listeners attached by [initialize] *)

(** [quorum.on("removeMember", async (clientId) => ...)] *)
Definition on_removeMember (removedClientId : string) : M unit :=
  s <- get ;;
  assert (routingContextAttached (runtime s)) 0x11c ;;
  if isActive s then
    leftTasks <-
      for_acc (map_keys (consensusRegisterCollection s)) [] (fun taskUrl leftTasks =>
        s <- get ;;
        if bool_decide (getTaskClientId taskUrl s = Some (Some removedClientId)) then
          if map_has taskUrl (locallyRunnableTasks s) then
            c <- clientId ;;
            writeCore taskUrl (Some c) ;;
            ret leftTasks
          else ret (leftTasks ++ [taskUrl])
        else ret leftTasks) ;;
    rejected <- async (clearTasks leftTasks) ;;
    match rejected with
    | Some error => sendErrorEvent "AgentScheduler_RemoveMemberError" (Some error) None
    | None => ret tt
    end
  else ret tt.

(** [consensusRegisterCollection.on("atomicChanged", async (key, currentClient) => ...)] *)
Definition on_atomicChanged (key : string) (currentClient : option string) : M unit :=
  s <- get ;;
  chosen <-
    (if isActive s then
       c <- clientId ;;
       ret (bool_decide (currentClient = Some c))
     else ret false) ;;
  if (chosen : bool) then onNewTaskAssigned key
  else onTaskReassigned key currentClient.

(** [runtime.on("connected", () => ...)] *)
Definition on_connected : M unit :=
  s <- get ;;
  if isActive s then initializeCore else ret tt.

(** [runtime.waitAttached().then(() => ...).catch((error) => ...)] *)
Definition on_waitAttached : M unit :=
  rejected <- async clearRunningTasks ;;
  match rejected with
  | Some error => sendErrorEvent "AgentScheduler_clearRunningTasks" (Some error) None
  | None => ret tt
  end.

(** [runtime.on("disconnected", () => ...)] *)
Definition on_disconnected : M unit :=
  s <- get ;;
  if negb (bool_decide (attachState (runtime s) = Detached))
  then clearRunningTasks else ret tt.

(** [initialize()], after the listeners are attached. *)
Definition initialize : M unit :=
  s <- get ;;
  (if isActive s then initializeCore else ret tt) ;;
  s <- get ;;
  if bool_decide (attachState (runtime s) = Detached)
  then modify (set_waitAttached true) else ret tt.

(** [new AgentScheduler(runtime, context, consensusRegisterCollection)] *)
Definition new (rt : Runtime) (collection : list (string * option string)) : Scheduler :=
  {| runtime := rt; registeredTasks := ∅; locallyRunnableTasks := [];
     runningTasks := []; consensusRegisterCollection := collection;
     waitAttached := false; writes := []; emitted := []; workerCalls := [];
     errorEvents := [] |}.

(** Modelled from the spec: the register is a collaborator (section 6:
    "event entryChanged(key, newValue)"); its class is not among the
    sources. When the listener runs, the register already holds the accepted
    value. *)
Definition atomicChanged (key : string) (value : option string) : M unit :=
  modify (fun s =>
    set_consensusRegisterCollection
      (map_set key value (consensusRegisterCollection s)) s) ;;
  on_atomicChanged key value.

(** The state in which a computation leaves the scheduler. *)
Definition exec {A} (m : M A) (s : Scheduler) : Scheduler := snd (m s).

(** ** Vocabulary of the properties *)

(** What [release] checks of each id: the task was picked locally, the
    replica is active, and the register names the local clientId as owner. *)
Definition releasable (taskUrl : string) (s : Scheduler) : Prop :=
  map_has taskUrl (locallyRunnableTasks s) = true /\
  isActive s = true /\
  exists c, clientId s = (Ok c, s) /\ getTaskClientId taskUrl s = Some (Some c).

End Methods.

(** ** Scenarios *)

(** The runtime of client "A": attached, connected in write mode, the only
    member of the quorum. *)
Definition runtime_A (interactive : bool) : Runtime :=
  {| attachState := Attached; connected := true; runtimeClientId := Some "A";
     deltaManagerActive := true; interactive := interactive;
     quorumMembers := ["A"]; routingContextAttached := true |}.

Definition unattached : string := "0000_unattached".

(** A scheduler that was just loaded in an empty document. *)
Definition scheduler_A (interactive : bool) : Scheduler :=
  new (runtime_A interactive) [].

(** Client "A" picks "task" without registering it, and the register
    accepts the claim. *)
Definition scheduler_A_owner : Scheduler :=
  exec (atomicChanged unattached "task" (Some "A"))
    (exec (pick unattached "task" 7%nat) (scheduler_A true)).

(** Client "A", not interactive, has called [pick] for "task" once. *)
Definition scheduler_A_attempted : Scheduler :=
  exec (pick unattached "task" 7%nat) (scheduler_A false).

(** A container that was detached reaches [Attached] when it is already
    connected; "task" is locally runnable and the register has no entry. *)
Definition scheduler_A_attaching : Scheduler :=
  set_waitAttached true
    (set_runningTasks ["task"]
       (set_locallyRunnableTasks [("task", 7%nat)] (scheduler_A true))).

End AgentScheduler.

(* ===================================================================== *)
(** * A session: several replicas on one log *)
(* ===================================================================== *)

Module Session.
Import AgentScheduler.

Definition eta_Runtime (r : Runtime) : Runtime :=
  Build_Runtime (attachState r) (connected r) (runtimeClientId r)
    (deltaManagerActive r) (interactive r) (quorumMembers r)
    (routingContextAttached r).

Definition set_connected : bool -> Runtime -> Runtime :=
  ltac:(setter eta_Runtime connected).
Definition set_runtimeClientId : option string -> Runtime -> Runtime :=
  ltac:(setter eta_Runtime runtimeClientId).
Definition set_deltaManagerActive : bool -> Runtime -> Runtime :=
  ltac:(setter eta_Runtime deltaManagerActive).
Definition set_quorumMembers : list string -> Runtime -> Runtime :=
  ltac:(setter eta_Runtime quorumMembers).

(** Modelled from the spec: the replicated event log, the register and the
    quorum are collaborators (sections 2, 3 and 5); their classes are not
    among the sources. A replica holds its scheduler and the writes it has
    submitted that the log has not ordered yet, oldest first. Each write
    carries the sequence number of the last event its replica had seen when
    it submitted it. *)
Record Node := { scheduler : Scheduler; outbox : list (Write * nat) }.

(** Modelled from the spec: "a single, identically-ordered sequence of
    membership and register-write events" delivered to every replica
    (section 1). The session holds the number of events ordered so far, the
    register with, for each key, the sequence number of the accepted write,
    the quorum, the client ids issued so far, and the replicas. Every replica
    handles an event as the log orders it: what is left to chance is when
    the log orders a submitted write, and what the replicas are asked to do
    in between. *)
Record Session := {
  sequenceNumber : nat;
  register : list (string * option string);
  versions : list (string * nat);
  quorum : list string;
  clientIds : list string;
  nodes : list Node
}.

Section Steps.

Variable UnattachedClientId : string.

(** The sequence number of the accepted write of a key, 0 without one. *)
Definition version (key : string) (σ : Session) : nat :=
  default 0%nat (map_get key (versions σ)).

(** A replica runs a method or a listener; the writes it submits are
    stamped and queued. *)
Definition perform (m : M unit) (stamp : nat) (n : Node) : Node :=
  let s := exec m (set_writes [] (scheduler n)) in
  {| scheduler := set_writes [] s;
     outbox := outbox n ++ map (fun w => (w, stamp)) (writes s) |}.

Definition with_runtime (f : Runtime -> Runtime) (n : Node) : Node :=
  {| scheduler := set_runtime (f (runtime (scheduler n))) (scheduler n);
     outbox := outbox n |}.

Definition active (n : Node) : bool := isActive (scheduler n).

(** The runtime of a replica that has loaded the document and is not
    connected yet. Replicas of a session are attached and interactive. *)
Definition runtime_loaded (members : list string) : Runtime :=
  {| attachState := Attached; connected := false; runtimeClientId := None;
     deltaManagerActive := false; interactive := true; quorumMembers := members;
     routingContextAttached := true |}.

Definition load (σ : Session) : Node :=
  {| scheduler :=
       exec (initialize UnattachedClientId)
         (new (runtime_loaded (quorum σ)) (register σ));
     outbox := [] |}.

Inductive Event :=
| EvPick (i : nat) (taskId : string) (worker : Worker)
| EvRelease (i : nat) (taskUrls : list string)
| EvRegister (i : nat) (taskUrls : list string)
| EvLoad
| EvConnect (i : nat) (clientId : string)
| EvDisconnect (i : nat)
| EvLeave (clientId : string)
| EvSequence (i : nat).

(** A call of a method of replica [i]. *)
Definition call (i : nat) (m : M unit) (σ : Session) : option Session :=
  match nodes σ !! i with
  | Some n =>
      Some {| sequenceNumber := sequenceNumber σ; register := register σ;
              versions := versions σ; quorum := quorum σ; clientIds := clientIds σ;
              nodes := <[i := perform m (sequenceNumber σ) n]> (nodes σ) |}
  | None => None
  end.

(** Replica [i] connects in write mode: the log orders its join under a
    client id that was never issued, every replica sees the new member, and
    the replica hears "connected". *)
Definition connect (i : nat) (c : string) (σ : Session) : option Session :=
  match nodes σ !! i with
  | Some n =>
      if negb (connected (runtime (scheduler n)))
         && truthy c && negb (bool_decide (c ∈ clientIds σ)) then
        let members := quorum σ ++ [c] in
        let seq := S (sequenceNumber σ) in
        let n' :=
          with_runtime (fun r =>
            set_deltaManagerActive true
              (set_runtimeClientId (Some c) (set_connected true r))) n in
        Some {| sequenceNumber := seq; register := register σ;
                versions := versions σ; quorum := members;
                clientIds := c :: clientIds σ;
                nodes :=
                  alter (perform (on_connected UnattachedClientId) seq) i
                    (map (with_runtime (set_quorumMembers members))
                       (<[i := n']> (nodes σ))) |}
      else None
  | None => None
  end.

(** Replica [i] loses its connection and hears "disconnected". *)
Definition disconnect (i : nat) (σ : Session) : option Session :=
  match nodes σ !! i with
  | Some n =>
      if connected (runtime (scheduler n)) then
        let n' := with_runtime (set_connected false) n in
        Some {| sequenceNumber := sequenceNumber σ; register := register σ;
                versions := versions σ; quorum := quorum σ;
                clientIds := clientIds σ;
                nodes :=
                  <[i := perform (on_disconnected UnattachedClientId)
                           (sequenceNumber σ) n']> (nodes σ) |}
      else None
  | None => None
  end.

(** The client [c] is connected at some replica. *)
Definition connected_as (c : string) (n : Node) : bool :=
  connected (runtime (scheduler n))
  && bool_decide (runtimeClientId (runtime (scheduler n)) = Some c).

(** The log orders the leave of a client whose connection is gone: every
    replica sees the member removed and hears "removeMember". *)
Definition leave (c : string) (σ : Session) : option Session :=
  if bool_decide (c ∈ quorum σ) && negb (existsb (connected_as c) (nodes σ)) then
    let members := List.filter (fun c' => negb (String.eqb c' c)) (quorum σ) in
    let seq := S (sequenceNumber σ) in
    Some {| sequenceNumber := seq; register := register σ;
            versions := versions σ; quorum := members; clientIds := clientIds σ;
            nodes :=
              map (fun n =>
                     perform (on_removeMember UnattachedClientId c) seq
                       (with_runtime (set_quorumMembers members) n))
                (nodes σ) |}
  else None.

(** The log orders the oldest pending write of the active replica [i]. The
    write is accepted unless another write of the same key was accepted
    after the replica submitted it ("first-accepted wins"); every replica
    then reads the accepted value and hears the change. *)
Definition sequence (i : nat) (σ : Session) : option Session :=
  match nodes σ !! i with
  | Some n =>
      if active n then
        match outbox n with
        | ((key, value), refSeq) :: rest =>
            let seq := S (sequenceNumber σ) in
            let nodes0 := <[i := {| scheduler := scheduler n; outbox := rest |}]> (nodes σ) in
            if (version key σ <=? refSeq)%nat then
              Some {| sequenceNumber := seq;
                      register := map_set key value (register σ);
                      versions := map_set key seq (versions σ);
                      quorum := quorum σ; clientIds := clientIds σ;
                      nodes :=
                        map (perform (atomicChanged UnattachedClientId key value) seq)
                          nodes0 |}
            else
              Some {| sequenceNumber := seq; register := register σ;
                      versions := versions σ; quorum := quorum σ;
                      clientIds := clientIds σ; nodes := nodes0 |}
        | [] => None
        end
      else None
  | None => None
  end.

(** [None]: the event cannot happen. *)
Definition step (ev : Event) (σ : Session) : option Session :=
  match ev with
  | EvPick i taskId worker => call i (pick UnattachedClientId taskId worker) σ
  | EvRelease i taskUrls => call i (release UnattachedClientId taskUrls) σ
  | EvRegister i taskUrls => call i (AgentScheduler.register taskUrls) σ
  | EvLoad =>
      Some {| sequenceNumber := sequenceNumber σ; register := register σ;
              versions := versions σ; quorum := quorum σ; clientIds := clientIds σ;
              nodes := nodes σ ++ [load σ] |}
  | EvConnect i c => connect i c σ
  | EvDisconnect i => disconnect i σ
  | EvLeave c => leave c σ
  | EvSequence i => sequence i σ
  end.

Fixpoint steps (evs : list Event) (σ : Session) : option Session :=
  match evs with
  | [] => Some σ
  | ev :: evs' =>
      match step ev σ with
      | Some σ' => steps evs' σ'
      | None => None
      end
  end.

(** The session of a new document. *)
Definition empty : Session :=
  {| sequenceNumber := 0; register := []; versions := []; quorum := [];
     clientIds := []; nodes := [] |}.

Inductive reachable : Session -> Prop :=
| reachable_empty : reachable empty
| reachable_step σ ev σ' : reachable σ -> step ev σ = Some σ' -> reachable σ'.


(** The client [c] is connected at a replica of the session. *)
Definition present (σ : Session) (c : string) : bool :=
  existsb (connected_as c) (nodes σ).

(** Modelled from the spec: "a quiescent period" (section 5). Nothing is left
    for the log to order: no active replica has a pending write, and every
    member of the quorum is connected, so that no leave is due. *)
Definition quiescent (σ : Session) : bool :=
  forallb (fun n => negb (active n) || bool_decide (outbox n = [])) (nodes σ)
  && forallb (present σ) (quorum σ).

(** ** Vocabulary of the properties *)

Definition interested (key : string) (n : Node) : bool :=
  map_has key (locallyRunnableTasks (scheduler n)).


(** The members of the quorum that are connected, and those whose connection
    is gone: the log has their leave to order. *)
Definition live_members (σ : Session) : list string :=
  List.filter (present σ) (quorum σ).

Definition departing (σ : Session) : list string :=
  List.filter (fun c => negb (present σ c)) (quorum σ).

(** How far a register value is from a claim by one of [members]: a member
    owns the task (0), the task is unclaimed (1), the owner is not a member
    (2), there is no entry (3). *)
Definition rank (members : list string) (v : option (option string)) : nat :=
  match v with
  | Some (Some c) => if bool_decide (c ∈ members) then 0 else 2
  | Some None => 1
  | None => 3
  end.

(** A pending write is live while no write of its key was accepted after
    it was submitted: the log will accept it. *)
Definition live (σ : Session) (w : Write * nat) : bool :=
  (version (fst (fst w)) σ <=? snd w)%nat.

(** A live write of [key] that would not bring the register closer to a
    claim by a connected member. *)
Definition stale (σ : Session) (key : string) (w : Write * nat) : bool :=
  String.eqb (fst (fst w)) key && live σ w
  && (rank (live_members σ) (map_get key (register σ))
        <=? rank (live_members σ) (Some (snd (fst w))))%nat.

(** An active replica has a pending stale write of [key]. *)
Definition has_stale (σ : Session) (key : string) : bool :=
  existsb (fun n => active n && existsb (stale σ key) (outbox n)) (nodes σ).

(** The writes that the log can still accept for [key] before a leave: as
    many as the rank of the entry when every live pending write lowers it, 3
    otherwise. *)
Definition budget (σ : Session) (key : string) : nat :=
  if has_stale σ key then 3%nat else rank (live_members σ) (map_get key (register σ)).

(** The owner of [key] is a member whose connection is gone: its leave will
    make the replicas write for [key] once more. *)
Definition abandoned (σ : Session) (key : string) : bool :=
  match map_get key (register σ) with
  | Some (Some c) => bool_decide (c ∈ departing σ)
  | _ => false
  end.

Definition cost (σ : Session) (key : string) : nat :=
  (budget σ key + if abandoned σ key then 1 else 0)%nat.

Definition sum_list (l : list nat) : nat := foldr Nat.add 0%nat l.

(** The keys of the pending writes. *)
Definition keys (σ : Session) : list string :=
  flat_map (fun n => map (fun w => fst (fst w)) (outbox n)) (nodes σ).

(** The keys of the pending writes and of the register. *)
Definition all_keys (σ : Session) : list string :=
  keys σ ++ map_keys (register σ).

(** The pending writes of the active replicas. *)
Definition pending (l : list Node) : nat :=
  sum_list (map (fun n => if active n then length (outbox n) else 0%nat) l).

(** A bound on the number of events that the log orders before the session
    is quiescent, when nothing else happens: every pending write of an active
    replica, every leave that is due, and for each write that can be accepted
    and each task of a member that leaves one reaction of each active
    replica. *)
Definition rounds_on (ks : list string) (σ : Session) : nat :=
  pending (nodes σ) + length (departing σ)
  + length (List.filter active (nodes σ)) * sum_list (map (cost σ) ks).

Definition rounds (σ : Session) : nat := rounds_on (all_keys σ) σ.

(** The write by which a replica reacts to the accepted [value] of [key]:
    a claim when the task is unclaimed and the replica is interested, the
    unclaimed marker when the owner is not in the quorum. *)
Definition reaction (key : string) (value : option string) (s : Scheduler) : list Write :=
  if isActive s then
    match runtimeClientId (runtime s), value with
    | Some c, None =>
        if map_has key (locallyRunnableTasks s) then [(key, Some c)] else []
    | Some c, Some c' =>
        if bool_decide (c' = c) then []
        else if notInQuorum c' s then [(key, None)] else []
    | None, _ => []
    end
  else [].

(** The writes of the listener of "removeMember": claims for the tasks of
    the member that the replica is interested in, then the unclaimed marker
    for its other tasks. *)
Definition removeMember_writes (removed : string) (s : Scheduler) : list Write :=
  if isActive s then
    match runtimeClientId (runtime s) with
    | Some c =>
        let owned :=
          List.filter
            (fun t => bool_decide (getTaskClientId t s = Some (Some removed)))
            (map_keys (consensusRegisterCollection s)) in
        map (fun t => (t, Some c))
          (List.filter (fun t => map_has t (locallyRunnableTasks s)) owned)
        ++ map (fun t => (t, None))
             (List.filter (fun t => negb (map_has t (locallyRunnableTasks s))) owned)
    | None => []
    end
  else [].

(** A register value in a condition: undefined, null and the empty string
    are falsy. *)
Definition falsy (v : option (option string)) : bool :=
  match v with
  | Some (Some c) => negb (truthy c)
  | _ => true
  end.

(** The writes of [initializeCore]: claims for the tasks that the replica
    is interested in and nobody owns, then the unclaimed marker for the tasks
    whose owner is not in the quorum. *)
Definition initializeCore_writes (s : Scheduler) : list Write :=
  match runtimeClientId (runtime s) with
  | Some c =>
      map (fun t => (t, Some c))
        (List.filter (fun t => falsy (getTaskClientId t s))
           (map_keys (locallyRunnableTasks s)))
      ++ map (fun t => (t, None))
           (List.filter
              (fun t =>
                 match getTaskClientId t s with
                 | Some (Some c') => truthy c' && notInQuorum c' s
                 | _ => false
                 end)
              (map_keys (consensusRegisterCollection s)))
  | None => []
  end.

(** What a replica of the session is, whatever happened: attached and
    interactive, reading the register and the quorum of the session, its
    pending writes stamped with sequence numbers of the past; connected, it
    has a client id that is a member of the quorum. *)
Record node_wf (σ : Session) (n : Node) : Prop := {
  wf_attached : attachState (runtime (scheduler n)) = Attached;
  wf_interactive : interactive (runtime (scheduler n)) = true;
  wf_routing : routingContextAttached (runtime (scheduler n)) = true;
  wf_members : quorumMembers (runtime (scheduler n)) = quorum σ;
  wf_register : consensusRegisterCollection (scheduler n) = register σ;
  wf_mode :
    connected (runtime (scheduler n)) = true ->
    deltaManagerActive (runtime (scheduler n)) = true;
  wf_clientId :
    connected (runtime (scheduler n)) = true ->
    exists c, runtimeClientId (runtime (scheduler n)) = Some c /\
              truthy c = true /\ c ∈ quorum σ;
  wf_stamps : Forall (fun w => (snd w <= sequenceNumber σ)%nat) (outbox n);
  wf_values :
    forall key c stamp, ((key, Some c), stamp) ∈ outbox n -> truthy c = true
}.

(** What an active replica has to react to: a task it is interested in
    that is unclaimed or has no entry, and a task whose owner has left. *)
Definition needs_reaction (σ : Session) (key : string) (n : Node) : bool :=
  match map_get key (register σ) with
  | Some (Some c) => negb (bool_decide (c ∈ quorum σ))
  | _ => interested key n
  end.

(** An active replica has a live pending write for whatever it has to react
    to. *)
Definition responsive (σ : Session) (n : Node) : Prop :=
  active n = true ->
  forall key, needs_reaction σ key n = true ->
    exists v stamp, ((key, v), stamp) ∈ outbox n /\ (version key σ <= stamp)%nat.

(** An active replica runs only tasks that the register gives to it. *)
Definition runs_own (σ : Session) (n : Node) : Prop :=
  forall key, key ∈ runningTasks (scheduler n) ->
    active n = true /\
    exists c, runtimeClientId (runtime (scheduler n)) = Some c /\
              map_get key (register σ) = Some (Some c).

Record session_wf (σ : Session) : Prop := {
  wf_versions : forall key, (version key σ <= sequenceNumber σ)%nat;
  wf_owners :
    forall key c, map_get key (register σ) = Some (Some c) -> truthy c = true;
  wf_ids :
    forall n c, n ∈ nodes σ ->
      runtimeClientId (runtime (scheduler n)) = Some c -> c ∈ clientIds σ;
  wf_distinct :
    forall i j n n' c, nodes σ !! i = Some n -> nodes σ !! j = Some n' ->
      runtimeClientId (runtime (scheduler n)) = Some c ->
      runtimeClientId (runtime (scheduler n')) = Some c -> i = j;
  wf_nodes : Forall (node_wf σ) (nodes σ);
  wf_responsive : Forall (responsive σ) (nodes σ);
  wf_runs_own : Forall (runs_own σ) (nodes σ)
}.





End Steps.

(** ** Scenarios *)

(** Two replicas load the document, connect as "A" and "B", and both pick
    the task "x" before the log has ordered either claim. *)
Definition concurrent_claim : list Event :=
  [EvLoad; EvLoad; EvConnect 0 "A"; EvConnect 1 "B";
   EvPick 0 "x" 7%nat; EvPick 1 "x" 8%nat].

Definition session_concurrent_claim : Session :=
  default empty (steps unattached concurrent_claim empty).

(** The log has ordered both claims, the claim of "A" first; then "A" loses
    its connection and leaves the quorum. *)
Definition owner_leaves : list Event :=
  concurrent_claim ++ [EvSequence 0; EvSequence 1; EvDisconnect 0; EvLeave "A"].

(** "B" owns the task "x" and runs it, "A" is interested in it; then "B"
    releases the task and loses its connection before the log has ordered the
    release. *)
Definition owner_releases_and_drops : list Event :=
  [EvLoad; EvLoad; EvConnect 0 "A"; EvConnect 1 "B";
   EvPick 1 "x" 8%nat; EvSequence 1; EvPick 0 "x" 7%nat;
   EvRelease 1 ["x"]; EvDisconnect 1].

Definition session_owner_dropped : Session :=
  default empty (steps unattached owner_releases_and_drops empty).

End Session.

(* ===================================================================== *)
(** * The summary manager over its whole life *)
(* ===================================================================== *)

Module Lifecycle.
Import SummaryManager.

(** The fields that [start], [stop], [run], [tryRestart] and
    [refreshSummarizer] never assign. *)
Definition bookkeeping (m : Manager) :=
  (connected m, clientId m, latestClientId m, _disposed m,
   opsUntilFirstConnect m, hasLoggedTelemetry m, addMemberListener m,
   initialDelayTimer m).

(** What only [refreshSummarizer] assigns and emits. *)
Definition election (m : Manager) := (electedClientId m, emitted m).

(** What the lifecycle state says of the promises that are pending: none
    in [Off] and [Disabled], one creation in [Starting], one run of the
    summarizer that [runningSummarizer] holds in [Running] and [Stopping]. *)
Definition single_summarizer (m : Manager) : Prop :=
  match state m with
  | Off | Disabled =>
      pendingCreate m = [] /\ pendingRun m = [] /\ runningSummarizer m = None
  | Starting =>
      (exists req, pendingCreate m = [req]) /\ pendingRun m = [] /\
      runningSummarizer m = None
  | Running | Stopping =>
      pendingCreate m = [] /\
      exists s, pendingRun m = [s] /\ runningSummarizer m = Some s
  end.

(** Every id in [l] differs from the one before it, [prev] before the
    first. *)
Fixpoint changes_only (prev : option string) (l : list (option string)) : bool :=
  match l with
  | [] => true
  | x :: l' => negb (bool_decide (x = prev)) && changes_only x l'
  end.

(** The "summarizer" events so far announce changes only, and the last
    one carries the id that [summarizer] returns. *)
Definition announced (m : Manager) : Prop :=
  changes_only None (emitted m) = true /\
  summarizer m = default None (last (emitted m)).

(** The transitions of the lifecycle: [Starting] or [Disabled] from any
    state but [Disabled]; [Running] from [Starting] only; [Stopping] from
    [Running] only; [Off] from [Starting], [Running] and [Stopping]. *)
Definition allowed (a b : SummaryManagerState) : bool :=
  match a, b with
  | Disabled, _ => false
  | _, (Starting | Disabled) => true
  | Starting, Running => true
  | Running, Stopping => true
  | (Starting | Running | Stopping), Off => true
  | _, _ => false
  end.

(** Every state in [l] is allowed after the one before it, [prev] before
    the first. *)
Fixpoint follows (prev : SummaryManagerState) (l : list SummaryManagerState) : bool :=
  match l with
  | [] => true
  | x :: l' => allowed prev x && follows x l'
  end.

(** The states that were assigned, from [Off] at construction, follow the
    transitions, and the last one is the state. *)
Definition traced (m : Manager) : Prop :=
  follows Off (stateTrace m) = true /\
  state m = default Off (last (stateTrace m)).

(** What the manager reads of the quorum's summarizer clients. *)
Definition quorum_view (m : Manager) := (hasSummarizersInQuorum m, orderedClients m).

(** [hasSummarizersInQuorum] says whether the election counts a
    summarizer client. *)
Definition counts_summarizers (m : Manager) : Prop :=
  hasSummarizersInQuorum m = (0 <? getSummarizerCount (orderedClients m))%nat.

(** The manager does not rest in [Off] while it should start a
    summarizer. *)
Definition never_idle (m : Manager) : Prop :=
  state m = Off -> getShouldSummarizeState m <> ShouldSummarize true.

(** The calls of [createSummarizer] so far. *)
Definition creations (m : Manager) : nat :=
  length (List.filter (String.eqb "CreatingSummarizer") (telemetry m)).

(** A connected manager knows its client id, the latest client id is
    known from the first connection on, and no summarizer was created or run
    without it. *)
Definition knows_clientId (m : Manager) : Prop :=
  (connected m = true -> clientId m <> None) /\
  (clientId m <> None -> latestClientId m <> None) /\
  (pendingCreate m <> [] -> latestClientId m <> None) /\
  (forall s, CallRun s None ∉ summarizerCalls m).

End Lifecycle.

(* ===================================================================== *)
(** * A scheduler over its whole life *)
(* ===================================================================== *)

Module Calls.
Import AgentScheduler.

(** What happens to a scheduler after [AgentScheduler.load] has
    constructed it: [initialize] runs, its public methods are called, its
    listeners hear their events, and the runtime and the register that it
    reads change under it. *)
Inductive Call :=
| DoInitialize
| DoRegister (taskUrls : list string)
| DoPick (taskId : string) (worker : Worker)
| DoRelease (taskUrls : list string)
| HearAtomicChanged (key : string) (currentClient : option string)
| HearRemoveMember (clientId : string)
| HearConnected
| HearDisconnected
| HearAttached
| RuntimeIs (rt : Runtime)
| RegisterIs (collection : list (string * option string)).

Definition call (UnattachedClientId : string) (c : Call) : M unit :=
  match c with
  | DoInitialize => initialize UnattachedClientId
  | DoRegister taskUrls => register taskUrls
  | DoPick taskId worker => pick UnattachedClientId taskId worker
  | DoRelease taskUrls => release UnattachedClientId taskUrls
  | HearAtomicChanged key currentClient =>
      on_atomicChanged UnattachedClientId key currentClient
  | HearRemoveMember clientId => on_removeMember UnattachedClientId clientId
  | HearConnected => on_connected UnattachedClientId
  | HearDisconnected => on_disconnected UnattachedClientId
  | HearAttached => on_waitAttached UnattachedClientId
  | RuntimeIs rt => modify (set_runtime rt)
  | RegisterIs collection => modify (set_consensusRegisterCollection collection)
  end.

(** The calls one after the other; one that throws leaves the scheduler
    in the state it had reached. *)
Definition calls (UnattachedClientId : string) (cs : list Call) (s : Scheduler)
    : Scheduler :=
  fold_left (fun s c => exec (call UnattachedClientId c) s) cs s.

Definition is_picked (n : Notification) : bool :=
  match n with picked _ => true | _ => false end.

(** As many workers were called as "picked" events were emitted. *)
Definition workers_match (s : Scheduler) : Prop :=
  length (workerCalls s) = length (List.filter is_picked (emitted s)).

Definition workers_kept (s s' : Scheduler) : Prop :=
  workers_match s -> workers_match s'.

(** No worker was called and no "picked" event was emitted. *)
Definition workers_same (s s' : Scheduler) : Prop :=
  workerCalls s' = workerCalls s /\
  List.filter is_picked (emitted s') = List.filter is_picked (emitted s).

Definition is_atomicChanged (c : Call) : bool :=
  match c with
  | HearAtomicChanged _ _ => true
  | _ => false
  end.

(** No task has left [registeredTasks]. *)
Definition registered_kept (s s' : Scheduler) : Prop :=
  forall t, t ∈ registeredTasks s -> t ∈ registeredTasks s'.

(** The listeners of the scheduler. *)
Definition is_listener (c : Call) : bool :=
  match c with
  | HearAtomicChanged _ _ | HearRemoveMember _ | HearConnected
  | HearDisconnected | HearAttached => true
  | _ => false
  end.

End Calls.

(* ===================================================================== *)
(** * RouterliciousClient and FluidFormInitialize (the collaborative text
      example) *)
(* ===================================================================== *)

Module RouterliciousClient.

Record IRouterliciousConfig := {
  tenantId : string; key : string; orderer : string; storage : string
}.

(** [class LocalhostRouterliciousConfig], [class ExternalRouterliciousConfig]:
    an argument that is left out takes its default. *)
Definition LocalhostRouterliciousConfig (tenantId key : string)
    (orderer storage : option string) : IRouterliciousConfig :=
  {| tenantId := tenantId; key := key;
     orderer := default "http://localhost:3003" orderer;
     storage := default "http://localhost:3001" storage |}.

Definition ExternalRouterliciousConfig (tenantId key : string)
    (orderer storage : option string) : IRouterliciousConfig :=
  {| tenantId := tenantId; key := key;
     orderer := default "http://86.119.42.105:3003" orderer;
     storage := default "http://86.119.42.105:3001" storage |}.

(** [new RouterliciousClientInstance(config)]: the instance, by the
    configuration that its service and its token provider are built from. *)
Definition RouterliciousClientInstance (config : option IRouterliciousConfig)
    : IRouterliciousConfig :=
  default
    (LocalhostRouterliciousConfig "LocalhostRouterlicious" "InsecureAbrakadabraJWT"
       None None)
    config.

(** [let globalRouterliciousClient: RouterliciousClientInstance | undefined] *)
Definition Global := option IRouterliciousConfig.

(** What a call comes to: it returns, or it throws [new Error(message)];
    for an async function, its promise is fulfilled or rejected. *)
Inductive Outcome (A : Type) :=
| Returned (a : A)
| Thrown (message : string).
Arguments Returned {A} a.
Arguments Thrown {A} message.

Definition init (config : option IRouterliciousConfig) (g : Global)
    : Outcome unit * Global :=
  match g with
  | Some _ => (Thrown "RouterliciousClient cannot be initialized more than once", g)
  | None => (Returned tt, Some (RouterliciousClientInstance config))
  end.

(** [RouterliciousClient.createContainer] and [getContainer] up to the call
    of the instance: the instance that is asked. *)
Definition createContainer (g : Global) : Outcome IRouterliciousConfig :=
  match g with
  | None =>
      Thrown ("RouterliciousClient has not been properly initialized before "
              ++ "attempting to create a container")
  | Some instance => Returned instance
  end.

Definition getContainer (g : Global) : Outcome IRouterliciousConfig :=
  match g with
  | None =>
      Thrown ("RouterliciousClient has not been properly initialized before "
              ++ "attempting to get a container")
  | Some instance => Returned instance
  end.

End RouterliciousClient.

Module FluidFormInitialize.
Import RouterliciousClient.

(** The page: the static [CONTAINER_ID], the global client, the calls of
    [createContainer] that reached the instance (the instance and the
    container id), and the rejections logged with [console.error] for calls
    that reached no instance. What the instance does with a call is not
    followed. *)
Record Page := {
  CONTAINER_ID : string;
  client : Global;
  created : list (IRouterliciousConfig * string);
  errors : list string
}.

(** The page as the modules are loaded. *)
Definition loaded : Page :=
  {| CONTAINER_ID := "0000000000000"; client := None; created := []; errors := [] |}.

(** [new FluidFormInitialize()]. The ids are ASCII, for which [length]
    counts as JavaScript does. *)
Definition constructor (p : Page) : Outcome unit * Page :=
  if negb (String.length (CONTAINER_ID p) =? 13)%nat then
    (Thrown "Container ID must be 13 characters in length", p)
  else
    let '(r, g) :=
      init (Some (ExternalRouterliciousConfig "ExternalRouterlicious" "InsecureJWTKey"
                    None None))
        (client p) in
    (r, {| CONTAINER_ID := CONTAINER_ID p; client := g; created := created p;
           errors := errors p |}).

(** [initializeContainer(containerId?)]: a rejected [createContainer] is
    caught and logged. *)
Definition initializeContainer (containerId : option string) (p : Page) : Page :=
  let containerId :=
    match containerId with
    | Some c => if String.eqb c "" then CONTAINER_ID p else c
    | None => CONTAINER_ID p
    end in
  match createContainer (client p) with
  | Returned instance =>
      {| CONTAINER_ID := CONTAINER_ID p; client := client p;
         created := created p ++ [(instance, containerId)]; errors := errors p |}
  | Thrown message =>
      {| CONTAINER_ID := CONTAINER_ID p; client := client p; created := created p;
         errors := errors p ++ [message] |}
  end.

End FluidFormInitialize.

(* ===================================================================== *)
(** * Properties of SummaryManager *)
(* ===================================================================== *)

Module SummaryManagerSpec.
Import SummaryManager.

(** ** getShouldSummarizeState *)

Lemma getShouldSummarizeState_true (m : Manager) :
  shouldSummarize (getShouldSummarizeState m) = true <->
  connected m = true /\ clientId m = electedClientId m /\ _disposed m = false.
Proof.
  unfold getShouldSummarizeState, summarizer.
  destruct (connected m); simpl; [|intuition discriminate].
  case_bool_decide as Hid; simpl; [|intuition discriminate].
  destruct (_disposed m); simpl; [intuition discriminate|].
  destruct (0 <? _)%nat; simpl; intuition.
Qed.

Lemma getShouldSummarizeState_false (m : Manager) :
  shouldSummarize (getShouldSummarizeState m) = false ->
  exists r, getShouldSummarizeState m = ShouldNotSummarize r.
Proof.
  destruct (getShouldSummarizeState m) as [b|r]; [discriminate|]. by exists r.
Qed.

(** C2. In every state of the manager, [getShouldSummarizeState] answers
    [shouldSummarize: true] exactly when the manager is connected, its
    clientId is the elected clientId and it is not disposed; in every other
    state it answers [shouldSummarize: false] with one stop reason, which is
    [parentNotConnected] when not connected, else [parentShouldNotSummarize]
    when the local client is not the elected one, else [disposed]. *)
Theorem getShouldSummarizeState_spec (m : Manager) :
  (shouldSummarize (getShouldSummarizeState m) = true <->
     connected m = true /\ clientId m = electedClientId m /\ _disposed m = false)
  /\
  (shouldSummarize (getShouldSummarizeState m) = false <->
     exists! r : StopReason, getShouldSummarizeState m = ShouldNotSummarize r)
  /\
  (forall r, getShouldSummarizeState m = ShouldNotSummarize r ->
     (r = parentNotConnected <-> connected m = false) /\
     (r = parentShouldNotSummarize <->
        connected m = true /\ clientId m <> electedClientId m) /\
     (r = disposed <->
        connected m = true /\ clientId m = electedClientId m /\ _disposed m = true)).
Proof.
  split; [apply getShouldSummarizeState_true|]. split.
  - split.
    + intros H. destruct (getShouldSummarizeState_false m H) as [r Hr].
      exists r. split; [done|]. intros r' Hr'. congruence.
    + intros [r [Hr _]]. by rewrite Hr.
  - intros r. unfold getShouldSummarizeState, summarizer.
    destruct (connected m); simpl.
    + case_bool_decide as Hid; simpl.
      * destruct (_disposed m); simpl.
        -- intros [= <-]. intuition congruence.
        -- destruct (0 <? _)%nat; discriminate.
      * intros [= <-]. intuition congruence.
    + intros [= <-]. intuition congruence.
Qed.

(** ** How each method moves the lifecycle state *)

Section Lifecycle.

Variable cfg : Config.

Lemma setClientId_frame c m :
  state (setClientId c m) = state m /\
  stateTrace (setClientId c m) = stateTrace m /\
  pendingCreate (setClientId c m) = pendingCreate m /\
  pendingRun (setClientId c m) = pendingRun m /\
  _disposed (setClientId c m) = _disposed m /\
  initialDelayTimer (setClientId c m) = initialDelayTimer m.
Proof.
  unfold setClientId. destruct c as [c|]; simpl; [|done].
  destruct (runningSummarizer m); done.
Qed.

Lemma start_never m :
  neverSummarizes cfg = true ->
  state (start cfg m) = Disabled /\
  pendingCreate (start cfg m) = pendingCreate m /\
  pendingRun (start cfg m) = pendingRun m.
Proof.
  unfold neverSummarizes, start. intros H.
  destruct (negb (summariesEnabled cfg)); simpl in *; [done|].
  by rewrite H.
Qed.

Lemma start_may m :
  neverSummarizes cfg = false ->
  state (start cfg m) = Starting /\
  pendingRun (start cfg m) = pendingRun m /\
  _disposed (start cfg m) = _disposed m /\
  initialDelayTimer (start cfg m) = initialDelayTimer m.
Proof.
  unfold neverSummarizes, start. intros H.
  apply orb_false_elim in H as [-> ->].
  destruct (Throttler.getDelay _ _ _ _ _) as [d th].
  by destruct (defaultThrottleMaxDelayMs <=? d).
Qed.

Lemma start_pendingCreate m :
  neverSummarizes cfg = false ->
  exists req, pendingCreate (start cfg m) = pendingCreate m ++ [req].
Proof.
  unfold neverSummarizes, start. intros H.
  apply orb_false_elim in H as [-> ->].
  destruct (Throttler.getDelay _ _ _ _ _) as [d th].
  destruct (defaultThrottleMaxDelayMs <=? d); by eexists.
Qed.

Lemma stop_state reason m :
  (state (stop reason m) = Stopping /\ runningSummarizer m <> None \/
   state (stop reason m) = Off /\ runningSummarizer m = None) /\
  pendingCreate (stop reason m) = pendingCreate m /\
  pendingRun (stop reason m) = pendingRun m /\
  _disposed (stop reason m) = _disposed m /\
  initialDelayTimer (stop reason m) = initialDelayTimer m.
Proof.
  unfold stop. simpl. destruct (runningSummarizer m); simpl; intuition congruence.
Qed.

(** Disposal makes [getShouldSummarizeState] answer no. *)
Lemma disposed_shouldNotSummarize m :
  _disposed m = true -> exists r, getShouldSummarizeState m = ShouldNotSummarize r.
Proof.
  intros Hd. apply getShouldSummarizeState_false.
  destruct (shouldSummarize _) eqn:E; [|done].
  apply getShouldSummarizeState_true in E. destruct E as (_ & _ & E). congruence.
Qed.

(** [refreshSummarizer] first brings [electedClientId] up to date, which
    leaves the lifecycle alone, then acts on the state. *)
Lemma refreshSummarizer_cases m :
  exists m1,
    state m1 = state m /\ stateTrace m1 = stateTrace m /\
    pendingCreate m1 = pendingCreate m /\ pendingRun m1 = pendingRun m /\
    _disposed m1 = _disposed m /\ initialDelayTimer m1 = initialDelayTimer m /\
    runningSummarizer m1 = runningSummarizer m /\
    refreshSummarizer cfg m =
      match state m with
      | Off =>
          match getShouldSummarizeState m1 with
          | ShouldSummarize true => start cfg m1
          | _ => m1
          end
      | Running =>
          match getShouldSummarizeState m1 with
          | ShouldNotSummarize r => stop r m1
          | ShouldSummarize _ => m1
          end
      | _ => m1
      end.
Proof.
  unfold refreshSummarizer.
  match goal with |- context [if ?b then ?x else m] => exists (if b then x else m) end.
  destruct (negb (bool_decide _)); done.
Qed.

Lemma refreshSummarizer_Disabled m :
  state m = Disabled ->
  state (refreshSummarizer cfg m) = Disabled /\
  stateTrace (refreshSummarizer cfg m) = stateTrace m /\
  pendingCreate (refreshSummarizer cfg m) = pendingCreate m /\
  pendingRun (refreshSummarizer cfg m) = pendingRun m.
Proof.
  intros H.
  destruct (refreshSummarizer_cases m) as (m1 & H1 & H2 & H3 & H4 & _ & _ & _ & ->).
  rewrite H. intuition congruence.
Qed.

Lemma refreshSummarizer_never m :
  neverSummarizes cfg = true ->
  state m = Off \/ state m = Disabled ->
  (state (refreshSummarizer cfg m) = Off \/ state (refreshSummarizer cfg m) = Disabled) /\
  pendingCreate (refreshSummarizer cfg m) = pendingCreate m /\
  pendingRun (refreshSummarizer cfg m) = pendingRun m.
Proof.
  intros Hn [H|H].
  - destruct (refreshSummarizer_cases m) as (m1 & H1 & H2 & H3 & H4 & _ & _ & _ & ->).
    rewrite H. rewrite H in H1.
    destruct (getShouldSummarizeState m1) as [[]|]; try (intuition congruence).
    destruct (start_never m1 Hn) as (-> & -> & ->). auto.
  - destruct (refreshSummarizer_Disabled m H) as (-> & _ & -> & ->). auto.
Qed.

Lemma refreshSummarizer_may m :
  neverSummarizes cfg = false ->
  state m <> Disabled -> state (refreshSummarizer cfg m) <> Disabled.
Proof.
  intros Hn H.
  destruct (refreshSummarizer_cases m) as (m1 & H1 & _ & _ & _ & _ & _ & _ & ->).
  destruct (state m) eqn:E; try congruence.
  - destruct (getShouldSummarizeState m1) as [[]|]; try congruence.
    by destruct (start_may m1 Hn) as (-> & _).
  - destruct (getShouldSummarizeState m1) as [|r]; try congruence.
    by destruct (stop_state r m1) as ([[-> _]|[-> _]] & _).
Qed.

Lemma tryRestart_may m :
  neverSummarizes cfg = false -> state (tryRestart cfg m) <> Disabled.
Proof.
  intros Hn. unfold tryRestart.
  destruct (getShouldSummarizeState m) as [[]|]; simpl; try done.
  by destruct (start_may m Hn) as (-> & _).
Qed.

Lemma run_state s m :
  state (run s m) = Running \/ state (run s m) = Stopping.
Proof.
  unfold run. destruct (getShouldSummarizeState _) as [b|r]; [by left|].
  right. unfold stop. reflexivity.
Qed.

Lemma updateConnected_never c cid m :
  neverSummarizes cfg = true ->
  state m = Off \/ state m = Disabled ->
  (state (updateConnected cfg c cid m) = Off \/
   state (updateConnected cfg c cid m) = Disabled) /\
  pendingCreate (updateConnected cfg c cid m) = pendingCreate m /\
  pendingRun (updateConnected cfg c cid m) = pendingRun m.
Proof.
  intros Hn H. unfold updateConnected. case_bool_decide; [done|].
  destruct (setClientId_frame cid (set_connected c m)) as (E1 & _ & E2 & E3 & _).
  destruct (refreshSummarizer_never (setClientId cid (set_connected c m)) Hn)
    as (? & -> & ->); [by rewrite E1|]. by rewrite E2, E3.
Qed.

Lemma updateConnected_may c cid m :
  neverSummarizes cfg = false ->
  state m <> Disabled -> state (updateConnected cfg c cid m) <> Disabled.
Proof.
  intros Hn H. unfold updateConnected. case_bool_decide; [done|].
  apply refreshSummarizer_may; [done|].
  by destruct (setClientId_frame cid (set_connected c m)) as (-> & _).
Qed.

Lemma updateConnected_Disabled c cid m :
  state m = Disabled ->
  state (updateConnected cfg c cid m) = Disabled /\
  stateTrace (updateConnected cfg c cid m) = stateTrace m.
Proof.
  intros H. unfold updateConnected. case_bool_decide; [done|].
  destruct (setClientId_frame cid (set_connected c m)) as (E1 & E2 & _).
  destruct (refreshSummarizer_Disabled (setClientId cid (set_connected c m)))
    as (-> & -> & _); [by rewrite E1|]. by rewrite E2.
Qed.

(** The invariant of the [Disabled] state holds of what the constructor
    returns and is kept by every event. *)
Lemma construct_disabled_inv c cid oc now :
  disabled_inv cfg (construct cfg c cid oc now).
Proof.
  unfold disabled_inv, construct.
  match goal with |- context [refreshSummarizer cfg ?x] => set (m0 := x) end.
  assert (state m0 = Off /\ pendingCreate m0 = [] /\ pendingRun m0 = [])
    as (E1 & E2 & E3).
  { subst m0. destruct c; [|done].
    match goal with |- context [setClientId cid ?x] =>
      destruct (setClientId_frame cid x) as (-> & _ & -> & -> & _) end. done. }
  destruct (neverSummarizes cfg) eqn:Hn.
  - destruct (refreshSummarizer_never m0 Hn) as (? & -> & ->); auto.
  - apply refreshSummarizer_may; [done|]. by rewrite E1.
Qed.

Lemma dispatch_disabled_inv ev m m' :
  disabled_inv cfg m -> dispatch cfg ev m = Some m' -> disabled_inv cfg m'.
Proof.
  unfold disabled_inv. destruct (neverSummarizes cfg) eqn:Hn.
  - intros (Hc & Hr & Hs) Hd. destruct ev; simpl in Hd.
    + injection Hd as <-.
      destruct (updateConnected_never true (Some clientId0) m Hn Hs) as (? & E1 & E2).
      unfold setConnected. by rewrite E1, E2.
    + injection Hd as <-.
      destruct (updateConnected_never false None m Hn Hs) as (? & E1 & E2).
      unfold setDisconnected. by rewrite E1, E2.
    + by injection Hd as <-.
    + by injection Hd as <-.
    + unfold opsUntilFirstConnectHandler in Hd.
      destruct (addMemberListener m); [|by injection Hd as <-].
      destruct (_ && _); by injection Hd as <-.
    + injection Hd as <-. unfold onDefaultOp. by destruct (_ && _).
    + by injection Hd as <-.
    + injection Hd as <-. unfold onSummarizerChange.
      destruct (negb _); [|done].
      match goal with |- context [refreshSummarizer cfg ?x] =>
        destruct (refreshSummarizer_never x Hn) as (? & -> & ->) end; done.
    + injection Hd as <-. unfold onElectedChange.
      match goal with |- context [refreshSummarizer cfg ?x] =>
        destruct (refreshSummarizer_never x Hn) as (? & -> & ->) end;
        destruct client; done.
    + by rewrite Hc in Hd.
    + destruct (existsb _ _); [|done]. by injection Hd as <-.
    + by rewrite Hr in Hd.
  - intros Hs Hd. destruct ev; simpl in Hd.
    + injection Hd as <-. by apply updateConnected_may.
    + injection Hd as <-. by apply updateConnected_may.
    + by injection Hd as <-.
    + by injection Hd as <-.
    + unfold opsUntilFirstConnectHandler in Hd.
      destruct (addMemberListener m); [|by injection Hd as <-].
      destruct (_ && _); by injection Hd as <-.
    + injection Hd as <-. unfold onDefaultOp. by destruct (_ && _).
    + by injection Hd as <-.
    + injection Hd as <-. unfold onSummarizerChange.
      destruct (negb _); [|done]. by apply refreshSummarizer_may.
    + injection Hd as <-. unfold onElectedChange.
      apply refreshSummarizer_may; [done|]. by destruct client.
    + destruct (pendingCreate m) as [|req rest]; [done|].
      destruct (createSummarizer_settle response) as [s|]; injection Hd as <-.
      * unfold start_onFulfilled.
        match goal with |- context [run s ?x] =>
          destruct (run_state s x) as [-> | ->] end; done.
      * by apply tryRestart_may.
    + destruct (existsb _ _); [|done]. by injection Hd as <-.
    + destruct (existsb _ _); [|done]. injection Hd as <-.
      by apply tryRestart_may.
Qed.

Lemma reachable_disabled_inv m : reachable cfg m -> disabled_inv cfg m.
Proof.
  induction 1 as [c cid oc now | m ev m' _ IH Hd].
  - apply construct_disabled_inv.
  - by apply (dispatch_disabled_inv ev m).
Qed.

Lemma reachable_dispatch_all evs m m' :
  reachable cfg m -> dispatch_all cfg evs m = Some m' -> reachable cfg m'.
Proof.
  revert m. induction evs as [|ev evs IH]; simpl; intros m Hr Hd.
  - by injection Hd as <-.
  - destruct (dispatch cfg ev m) as [m1|] eqn:E; [|done].
    apply (IH m1); [|done]. by apply (reachable_dispatch cfg m ev).
Qed.

(** In [Disabled], an event that can happen assigns nothing to the state. *)
Lemma dispatch_Disabled ev m m' :
  disabled_inv cfg m -> state m = Disabled -> dispatch cfg ev m = Some m' ->
  state m' = Disabled /\ stateTrace m' = stateTrace m.
Proof.
  unfold disabled_inv. intros Hinv Hs Hd.
  destruct (neverSummarizes cfg) eqn:Hn; [|done].
  destruct Hinv as (Hc & Hr & _). destruct ev; simpl in Hd.
  - injection Hd as <-. by apply updateConnected_Disabled.
  - injection Hd as <-. by apply updateConnected_Disabled.
  - by injection Hd as <-.
  - by injection Hd as <-.
  - unfold opsUntilFirstConnectHandler in Hd.
    destruct (addMemberListener m); [|by injection Hd as <-].
    destruct (_ && _); by injection Hd as <-.
  - injection Hd as <-. unfold onDefaultOp. by destruct (_ && _).
  - by injection Hd as <-.
  - injection Hd as <-. unfold onSummarizerChange.
    destruct (negb _); [|done].
    match goal with |- context [refreshSummarizer cfg ?x] =>
      destruct (refreshSummarizer_Disabled x) as (-> & -> & _) end; done.
  - injection Hd as <-. unfold onElectedChange.
    match goal with |- context [refreshSummarizer cfg ?x] =>
      destruct (refreshSummarizer_Disabled x) as (-> & -> & _) end;
      destruct client; done.
  - by rewrite Hc in Hd.
  - destruct (existsb _ _); [|done]. by injection Hd as <-.
  - by rewrite Hr in Hd.
Qed.

End Lifecycle.

(** C3. [Disabled] is absorbing. In a manager that was constructed and has
    handled any events, once the state is [Disabled] no later event changes
    it: whatever follows (the public setConnected, setDisconnected and
    dispose, the election events that call refreshSummarizer, the settlement
    of promises that would call run, stop, tryRestart and start), the state
    is [Disabled] afterwards, and no assignment to the state was made. *)
Theorem Disabled_absorbing (cfg : Config) (m : Manager) (evs : list Event) (m' : Manager) :
  reachable cfg m ->
  state m = Disabled ->
  dispatch_all cfg evs m = Some m' ->
  state m' = Disabled /\ stateTrace m' = stateTrace m.
Proof.
  intros Hr. apply reachable_disabled_inv in Hr.
  revert m Hr. induction evs as [|ev evs IH]; simpl; intros m Hinv Hs Hd.
  - by injection Hd as <-.
  - destruct (dispatch cfg ev m) as [m1|] eqn:E; [|done].
    destruct (dispatch_Disabled cfg ev m m1 Hinv Hs E) as (Hs1 & Ht1).
    destruct (IH m1 (dispatch_disabled_inv cfg ev m m1 Hinv E) Hs1 Hd) as (? & ?).
    split; [done|congruence].
Qed.

Lemma Disabled_absorbing_witness :
  exists m',
    dispatch_all cfg_disabled
      [EvSetDisconnected; EvSetConnected "B"; EvElectedChange None; EvDispose]
      (manager_A cfg_disabled) = Some m' /\
    state m' = Disabled /\ stateTrace m' = [Disabled].
Proof.
  eexists. split; [vm_compute; reflexivity|].
  apply (Disabled_absorbing cfg_disabled (manager_A cfg_disabled)
           [EvSetDisconnected; EvSetConnected "B"; EvElectedChange None; EvDispose]).
  - apply reachable_construct.
  - reflexivity.
  - vm_compute; reflexivity.
Defined.

(** ** The throttle ceiling *)

Lemma start_getShouldSummarizeState cfg m :
  getShouldSummarizeState (start cfg m) = getShouldSummarizeState m.
Proof.
  unfold start.
  destruct (negb (summariesEnabled cfg)); [done|].
  case_bool_decide; [done|].
  destruct (Throttler.getDelay _ _ _ _ _) as [d th].
  by destruct (defaultThrottleMaxDelayMs <=? d).
Qed.

(** C9. When [start] goes on to create a summarizer (summaries are enabled
    and the container is not itself a summarizer client) and the delay that
    the throttler computes is at least the maximum throttle delay, [start]
    raises the warning on the container context once, still enters
    [Starting] and still calls [createSummarizer] with that delay. It
    returns normally. If that creation then fails while the manager should
    still summarize, [tryRestart] starts the next attempt. *)
Theorem start_max_throttle_delay (cfg : Config) (m : Manager) :
  summariesEnabled cfg = true ->
  clientDetailsType cfg <> Some (summarizerClientType cfg) ->
  let delay :=
    fst (Throttler.getDelay defaultThrottleDelayWindowMs defaultThrottleMaxDelayMs
           defaultThrottleDelayFunction (clock m) (startThrottler m)) in
  defaultThrottleMaxDelayMs <= delay ->
  warnings (start cfg m) =
    warnings m ++ ["SummaryManager: CreateSummarizer Max Throttle Delay"] /\
  state (start cfg m) = Starting /\
  pendingCreate (start cfg m) =
    pendingCreate m ++
      [{| delayMs := delay;
          shouldInitialDelay := opsUntilFirstConnect m <? opsToBypassInitialDelay |}] /\
  (pendingCreate m = [] ->
   getShouldSummarizeState m = ShouldSummarize true ->
   exists m',
     dispatch cfg (EvCreateSummarizerSettled None) (start cfg m) = Some m' /\
     state m' = Starting /\ length (pendingCreate m') = 1%nat).
Proof.
  intros He Ht delay Hmax.
  assert (Hstart : neverSummarizes cfg = false).
  { unfold neverSummarizes. rewrite He. simpl. by case_bool_decide. }
  assert (Hunfold : start cfg m =
            let m0 := assign_state Starting m in
            let m1 := set_startThrottler
              (snd (Throttler.getDelay defaultThrottleDelayWindowMs
                      defaultThrottleMaxDelayMs defaultThrottleDelayFunction
                      (clock m) (startThrottler m))) m0 in
            createSummarizer delay
              (raiseContainerWarning
                 "SummaryManager: CreateSummarizer Max Throttle Delay" m1)).
  { unfold start. rewrite He. cbn [negb]. case_bool_decide; [done|].
    subst delay. cbn [assign_state clock set_stateTrace set_state startThrottler].
    destruct (Throttler.getDelay _ _ _ _ _) as [d th]. cbn [fst snd] in *.
    apply Z.leb_le in Hmax. by rewrite Hmax. }
  split_and!.
  - by rewrite Hunfold.
  - by rewrite Hunfold.
  - by rewrite Hunfold.
  - intros Hp Hshould.
    assert (exists req, pendingCreate (start cfg m) = [req]) as [req Hreq].
    { rewrite Hunfold. cbn. rewrite Hp. by eexists. }
    cbn [dispatch]. rewrite Hreq. eexists. split; [reflexivity|].
    unfold start_onRejected, tryRestart.
    match goal with |- context [getShouldSummarizeState ?x] =>
      replace (getShouldSummarizeState x) with (ShouldSummarize true) end.
    2:{ rewrite <- Hshould, <- (start_getShouldSummarizeState cfg m). reflexivity. }
    match goal with |- context [start cfg ?x] => set (m1 := x) end.
    split; [by destruct (start_may cfg m1 Hstart) as (-> & _)|].
    destruct (start_pendingCreate cfg m1 Hstart) as [req' ->]. reflexivity.
Qed.

Lemma start_max_throttle_delay_witness :
  warnings (start cfg_enabled manager_throttled) =
    ["SummaryManager: CreateSummarizer Max Throttle Delay"] /\
  state (start cfg_enabled manager_throttled) = Starting.
Proof.
  destruct (start_max_throttle_delay cfg_enabled manager_throttled)
    as (H1 & H2 & _); [reflexivity | discriminate | by vm_compute |].
  split; [exact H1 | exact H2].
Defined.

(** ** Disposal *)

Section Disposal.

Variable cfg : Config.

Lemma refreshSummarizer_disposed m :
  _disposed m = true -> state m <> Running ->
  state (refreshSummarizer cfg m) = state m /\
  _disposed (refreshSummarizer cfg m) = true /\
  initialDelayTimer (refreshSummarizer cfg m) = initialDelayTimer m.
Proof.
  intros Hd Hs.
  destruct (refreshSummarizer_cases cfg m)
    as (m1 & H1 & _ & _ & _ & H5 & H6 & _ & ->).
  destruct (disposed_shouldNotSummarize m1) as [r ->]; [congruence|].
  destruct (state m); intuition congruence.
Qed.

Lemma updateConnected_disposed c cid m :
  _disposed m = true -> state m <> Running ->
  state (updateConnected cfg c cid m) = state m /\
  _disposed (updateConnected cfg c cid m) = true /\
  initialDelayTimer (updateConnected cfg c cid m) = initialDelayTimer m.
Proof.
  intros Hd Hs. unfold updateConnected. case_bool_decide; [done|].
  destruct (setClientId_frame cid (set_connected c m)) as (E1 & _ & _ & _ & E2 & E3).
  destruct (refreshSummarizer_disposed (setClientId cid (set_connected c m)))
    as (-> & -> & ->); [by rewrite E2 | by rewrite E1 |]. by rewrite E1, E3.
Qed.

Lemma tryRestart_disposed m :
  _disposed m = true ->
  state (tryRestart cfg m) = Off /\ _disposed (tryRestart cfg m) = true /\
  initialDelayTimer (tryRestart cfg m) = initialDelayTimer m.
Proof.
  intros Hd. unfold tryRestart.
  by destruct (disposed_shouldNotSummarize m Hd) as [r ->].
Qed.

(** A disposed manager that is handed a summarizer runs it and stops it in
    the same call. *)
Lemma run_disposed s m :
  _disposed m = true ->
  exists r,
    state (run s m) = Stopping /\
    stateTrace (run s m) = stateTrace m ++ [Running; Stopping] /\
    summarizerCalls (run s m) =
      summarizerCalls m ++ [CallRun s (latestClientId m); CallStop s r] /\
    _disposed (run s m) = true /\
    initialDelayTimer (run s m) = initialDelayTimer m.
Proof.
  intros Hd. unfold run.
  match goal with |- context [getShouldSummarizeState ?x] =>
    destruct (disposed_shouldNotSummarize x) as [r ->]; [done|] end.
  exists r. unfold stop. cbn. by rewrite <- !(assoc_L (++)).
Qed.

Lemma dispatch_disposed_inv ev m m' :
  disposed_inv m -> dispatch cfg ev m = Some m' -> disposed_inv m'.
Proof.
  unfold disposed_inv. intros (Hd & Hs & Ht) H. destruct ev; simpl in H.
  - injection H as <-. unfold setConnected.
    destruct (updateConnected_disposed true (Some clientId0) m Hd Hs)
      as (-> & -> & ->). done.
  - injection H as <-. unfold setDisconnected.
    destruct (updateConnected_disposed false None m Hd Hs) as (-> & -> & ->). done.
  - by injection H as <-.
  - by injection H as <-.
  - unfold opsUntilFirstConnectHandler in H.
    destruct (addMemberListener m); [|by injection H as <-].
    destruct (_ && _); by injection H as <-.
  - injection H as <-. unfold onDefaultOp. by destruct (_ && _).
  - by injection H as <-.
  - injection H as <-. unfold onSummarizerChange.
    destruct (negb _); [|done].
    match goal with |- context [refreshSummarizer cfg ?x] =>
      destruct (refreshSummarizer_disposed x) as (-> & -> & ->) end; done.
  - injection H as <-. unfold onElectedChange.
    match goal with |- context [refreshSummarizer cfg ?x] =>
      destruct (refreshSummarizer_disposed x) as (-> & -> & ->) end;
      destruct client; done.
  - destruct (pendingCreate m) as [|req rest]; [done|].
    destruct (createSummarizer_settle response) as [s|]; injection H as <-.
    + unfold start_onFulfilled.
      match goal with |- context [run s ?x] =>
        destruct (run_disposed s x) as (r & -> & _ & _ & -> & ->) end; done.
    + unfold start_onRejected.
      match goal with |- context [tryRestart cfg ?x] =>
        destruct (tryRestart_disposed x) as (-> & -> & ->) end; done.
  - destruct (existsb _ _); [|done]. by injection H as <-.
  - destruct (existsb _ _); [|done]. injection H as <-. unfold run_finally.
    match goal with |- context [tryRestart cfg ?x] =>
      destruct (tryRestart_disposed x) as (-> & -> & ->) end; done.
Qed.

Lemma dispatch_all_disposed_inv evs m m' :
  disposed_inv m -> dispatch_all cfg evs m = Some m' -> disposed_inv m'.
Proof.
  revert m. induction evs as [|ev evs IH]; simpl; intros m Hinv H.
  - by injection H as <-.
  - destruct (dispatch cfg ev m) as [m1|] eqn:E; [|done].
    apply (IH m1); [|done]. by apply (dispatch_disposed_inv ev m).
Qed.

End Disposal.

(** C8, as amended. [dispose] while [Starting] clears the timer of the
    initial delay. The creation of the summarizer that is under way is not
    cancelled: when it succeeds, [run] is called, assigns [Running], runs the
    summarizer and, finding the manager disposed (or disconnected, or not
    elected), calls [stop] at once, which assigns [Stopping]. So after every
    later event the state is not [Running], the manager stays disposed and
    the timer stays cleared. *)
Theorem dispose_while_Starting (cfg : Config) (m : Manager) :
  state m = Starting ->
  initialDelayTimer (dispose m) = TimerCleared /\
  state (dispose m) = Starting /\
  (forall evs m',
     dispatch_all cfg evs (dispose m) = Some m' ->
     state m' <> Running /\ _disposed m' = true /\
     initialDelayTimer m' = TimerCleared) /\
  (forall req rest response s,
     pendingCreate m = req :: rest ->
     createSummarizer_settle response = Some s ->
     exists m' r,
       dispatch cfg (EvCreateSummarizerSettled response) (dispose m) = Some m' /\
       state m' = Stopping /\
       stateTrace m' = stateTrace m ++ [Running; Stopping] /\
       summarizerCalls m' =
         summarizerCalls m ++ [CallRun s (latestClientId m); CallStop s r]).
Proof.
  intros Hs. split_and!; [done | done | |].
  - intros evs m' H.
    destruct (dispatch_all_disposed_inv cfg evs (dispose m) m') as (? & ? & ?);
      [|done|done].
    unfold disposed_inv. simpl. rewrite Hs. done.
  - intros req rest response s Hp Hok.
    cbn [dispatch]. replace (pendingCreate (dispose m)) with (req :: rest) by done.
    rewrite Hok. unfold start_onFulfilled.
    match goal with |- context [run s ?x] =>
      destruct (run_disposed s x) as (r & E1 & E2 & E3 & _); [done|];
      exists (run s x), r end.
    done.
Qed.

Lemma dispose_while_Starting_witness :
  state manager_Starting = Starting /\
  initialDelayTimer (dispose manager_Starting) = TimerCleared /\
  state (dispose manager_Starting) = Starting.
Proof.
  split; [vm_compute; reflexivity|].
  destruct (dispose_while_Starting cfg_enabled manager_Starting) as (H1 & H2 & _);
    [vm_compute; reflexivity|].
  split; [exact H1 | exact H2].
Defined.

(** C8, as stated, fails. The manager of client "A" is [Starting] (the
    creation bypasses the initial delay, 5000 ops having passed before the
    first connection) when it is disposed; the loader then answers, and the
    manager assigns [Running] and runs the summarizer before it stops it. *)
Lemma dispose_while_Starting_reaches_Running :
  reachable cfg_enabled manager_Starting /\
  state manager_Starting = Starting /\
  stateTrace manager_Starting = [Starting] /\
  pendingCreate manager_Starting = [{| delayMs := 20; shouldInitialDelay := false |}] /\
  exists m',
    dispatch_all cfg_enabled [EvCreateSummarizerSettled (Some response_ok)]
      (dispose manager_Starting) = Some m' /\
    stateTrace m' = [Starting; Running; Stopping] /\
    summarizerCalls m' = [CallRun 1%nat (Some "A"); CallStop 1%nat disposed].
Proof.
  split_and!; try (vm_compute; reflexivity).
  - apply (reachable_dispatch_all cfg_enabled events_until_Starting manager_not_elected);
      [apply reachable_construct | vm_compute; reflexivity].
  - eexists. split_and!; vm_compute; reflexivity.
Qed.

End SummaryManagerSpec.

(* ===================================================================== *)
(** * Properties of AgentScheduler *)
(* ===================================================================== *)

Module AgentSchedulerSpec.
Import AgentScheduler.

Section Spec.

Variable UnattachedClientId : string.

(** ** Loops that only check *)

(** A loop whose body reads the state and may throw stops at the first
    element that throws, and changes nothing. *)
Lemma for_of_check {A} (check : A -> Scheduler -> option Error) (body : A -> M unit)
    (l : list A) (s : Scheduler) :
  (forall x, body x s = (match check x s with Some e => Throw e | None => Ok tt end, s)) ->
  for_of l body s =
    (match list_find (fun x => is_Some (check x s)) l with
     | Some (_, x) => match check x s with Some e => Throw e | None => Ok tt end
     | None => Ok tt
     end, s).
Proof.
  intros Hbody. induction l as [|x l IH]; [done|].
  cbn [for_of]. unfold bind at 1. rewrite Hbody.
  cbn [list_find]. destruct (check x s) as [e|] eqn:E.
  - rewrite decide_True by eauto. cbn. by rewrite E.
  - rewrite decide_False by (intros [? ?]; done). rewrite IH.
    destruct (list_find _ l) as [[i y]|]; done.
Qed.

(** ** register *)

Lemma registerCore_writes (l : list string) (s : Scheduler) :
  registerCore l s =
    (Ok tt, set_writes (writes s ++ map (fun t => (t, None)) l) s).
Proof.
  unfold registerCore. destruct l as [|t l].
  - cbn. destruct s; unfold set_writes; cbn. by rewrite app_nil_r.
  - cbn [length Nat.ltb Nat.leb]. revert s.
    induction (t :: l) as [|x l' IH]; intros s.
    + cbn. destruct s; unfold set_writes; cbn. by rewrite app_nil_r.
    + cbn [for_of]. unfold bind at 1. cbn [writeCore modify].
      rewrite IH. unfold set_writes; cbn. by rewrite <- (assoc_L (++)).
Qed.

(** The first loop of [register]: the first id that is already registered
    is thrown. *)
Lemma register_check (l : list string) (s : Scheduler) :
  for_of l (fun taskUrl =>
      s <- get ;;
      if bool_decide (taskUrl ∈ registeredTasks s)
      then throw (AlreadyRegistered taskUrl) else ret tt) s =
    (match list_find (fun t => t ∈ registeredTasks s) l with
     | Some (_, t) => Throw (AlreadyRegistered t)
     | None => Ok tt
     end, s).
Proof.
  induction l as [|x l IH]; [done|].
  cbn [for_of list_find]. unfold bind at 1. cbn.
  case_bool_decide as Hx.
  - by rewrite decide_True.
  - rewrite decide_False by done. cbn. rewrite IH.
    by destruct (list_find _ l) as [[i y]|].
Qed.

(** The second loop of [register]: every id is added, and the ids without
    a register entry are collected in order. *)
Lemma register_collect (l acc : list string) (s : Scheduler) :
  for_acc l acc (fun taskUrl unregisteredTasks =>
      modify (fun s => set_registeredTasks ({[taskUrl]} ∪ registeredTasks s) s) ;;
      s <- get ;;
      let currentClient := getTaskClientId taskUrl s in
      match currentClient with
      | None => ret (unregisteredTasks ++ [taskUrl])
      | Some _ => ret unregisteredTasks
      end) s =
    (Ok (acc ++ List.filter (fun t => bool_decide (getTaskClientId t s = None)) l),
     set_registeredTasks (list_to_set l ∪ registeredTasks s) s).
Proof.
  match goal with |- for_acc _ _ ?b _ = _ => set (body := b) end.
  assert (Hbody : forall x acc s,
    body x acc s =
      (Ok (acc ++ if bool_decide (getTaskClientId x s = None) then [x] else []),
       set_registeredTasks ({[x]} ∪ registeredTasks s) s)).
  { intros x acc' s'. subst body. unfold bind, modify, get, getTaskClientId. cbn.
    destruct (map_get x _); cbn; [by rewrite app_nil_r | done]. }
  clearbody body.
  revert acc s. induction l as [|x l IH]; intros acc s.
  - cbn. rewrite app_nil_r. destruct s; unfold set_registeredTasks; cbn.
    do 2 f_equal. set_solver.
  - cbn [for_acc]. unfold bind at 1. rewrite Hbody, IH.
    change (getTaskClientId x (set_registeredTasks _ s)) with (getTaskClientId x s).
    unfold set_registeredTasks; cbn.
    rewrite <- (assoc_L (++)).
    f_equal; [|f_equal; set_solver].
    do 2 f_equal. by destruct (bool_decide _).
Qed.

(** C5. [register] rejects, before anything is changed, when one of the
    ids is already in [registeredTasks]: the scheduler is left as it was, in
    particular nothing is added to [registeredTasks] and nothing is written.
    Otherwise it adds every id to [registeredTasks] and writes the unclaimed
    marker (null) for exactly the ids that have no register entry, in the
    order given; it changes nothing else. *)
Theorem register_spec (taskUrls : list string) (s : Scheduler) :
  ((exists t, t ∈ taskUrls /\ t ∈ registeredTasks s) ->
   exists t, t ∈ taskUrls /\ t ∈ registeredTasks s /\
     register taskUrls s = (Throw (AlreadyRegistered t), s))
  /\
  ((forall t, t ∈ taskUrls -> t ∉ registeredTasks s) ->
   register taskUrls s =
     (Ok tt,
      set_writes
        (writes s ++
           map (fun t => (t, None))
             (List.filter (fun t => bool_decide (getTaskClientId t s = None)) taskUrls))
        (set_registeredTasks (list_to_set taskUrls ∪ registeredTasks s) s))).
Proof.
  unfold register. split.
  - intros (t & Ht & HR).
    unfold bind at 1. rewrite register_check.
    destruct (list_find _ taskUrls) as [[i t']|] eqn:E.
    + apply list_find_Some in E as (Hi & HR' & _).
      exists t'. split_and!; [by eapply list_elem_of_lookup_2 | done | done].
    + apply list_find_None in E. rewrite Forall_forall in E. by destruct (E t Ht).
  - intros Hnone.
    unfold bind at 1. rewrite register_check.
    destruct (list_find _ taskUrls) as [[i t']|] eqn:E.
    + apply list_find_Some in E as (Hi & HR' & _).
      destruct (Hnone t'); [by eapply list_elem_of_lookup_2 | done].
    + unfold bind. rewrite register_collect. cbn [app].
      rewrite registerCore_writes. done.
Qed.

(** ** The local clientId *)

(** The getter reads the runtime and changes nothing. *)
Lemma clientId_pure (s : Scheduler) :
  snd (clientId UnattachedClientId s) = s.
Proof.
  unfold clientId, bind, get, assert, ret, throw. cbn.
  case_bool_decide; [done|].
  destruct (runtimeClientId (runtime s)) as [c|]; [|done].
  by destruct (truthy c).
Qed.

Lemma clientId_runtime (s s' : Scheduler) :
  runtime s = runtime s' ->
  fst (clientId UnattachedClientId s) = fst (clientId UnattachedClientId s').
Proof.
  unfold clientId, bind, get, assert, ret, throw. cbn. intros ->.
  case_bool_decide; [done|].
  destruct (runtimeClientId (runtime s')) as [c|]; [|done].
  by destruct (truthy c).
Qed.

Lemma clientId_Ok (s s' : Scheduler) (c : string) :
  runtime s = runtime s' ->
  clientId UnattachedClientId s = (Ok c, s) ->
  clientId UnattachedClientId s' = (Ok c, s').
Proof.
  intros Hr Hc.
  rewrite (surjective_pairing (clientId UnattachedClientId s')).
  rewrite clientId_pure, <- (clientId_runtime s s' Hr), Hc. done.
Qed.

Lemma isActive_runtime (s s' : Scheduler) :
  runtime s = runtime s' -> isActive s = isActive s'.
Proof. unfold isActive. by intros ->. Qed.

(** ** pick *)

(** What [pick] does, case by case. *)
Lemma pick_cases (taskId : string) (worker : Worker) (s : Scheduler) :
  let s1 := set_locallyRunnableTasks (map_set taskId worker (locallyRunnableTasks s)) s in
  pick UnattachedClientId taskId worker s =
    if map_has taskId (locallyRunnableTasks s) then (Throw (AlreadyAttempted taskId), s)
    else if negb (interactive (runtime s)) then (Throw (AssertionFailed 0x118), s1)
    else if negb (isActive s) then (Ok tt, s1)
    else
      match getTaskClientId taskId s with
      | Some (Some _) => (Ok tt, s1)
      | _ =>
          match fst (clientId UnattachedClientId s) with
          | Ok c => (Ok tt, set_writes (writes s ++ [(taskId, Some c)]) s1)
          | Throw e => (Throw e, s1)
          end
      end.
Proof.
  intros s1. unfold pick. unfold bind at 1. cbn [get].
  destruct (map_has taskId (locallyRunnableTasks s)); [done|].
  unfold bind at 1. unfold bind at 1. cbn [ret]. unfold bind at 1. cbn [modify].
  fold s1. unfold bind at 1. cbn [get]. unfold bind at 1.
  change (runtime s1) with (runtime s). unfold assert.
  destruct (interactive (runtime s)); [|done]. cbn [negb ret].
  change (isActive s1) with (isActive s). destruct (isActive s); [|done]. cbn [negb].
  change (getTaskClientId taskId s1) with (getTaskClientId taskId s).
  assert (Hc : bind (clientId UnattachedClientId)
                 (fun c => writeCore taskId (Some c)) s1 =
               match fst (clientId UnattachedClientId s) with
               | Ok c => (Ok tt, set_writes (writes s ++ [(taskId, Some c)]) s1)
               | Throw e => (Throw e, s1)
               end).
  { unfold bind. rewrite (surjective_pairing (clientId UnattachedClientId s1)).
    rewrite clientId_pure, (clientId_runtime s1 s eq_refl).
    by destruct (fst (clientId UnattachedClientId s)). }
  destruct (getTaskClientId taskId s) as [[c'|]|]; [done | exact Hc | exact Hc].
Qed.

(** C4, as amended. [pick] fails, changing nothing, when the task was
    already attempted locally. Otherwise it records the worker in
    [locallyRunnableTasks] and, on an interactive client: when the replica is
    not active it writes nothing; when the replica is active and the
    register entry is absent or unclaimed it writes the local clientId as
    claimant, and nothing else; when the entry names a client it writes
    nothing. *)
Theorem pick_spec (taskId : string) (worker : Worker) (s : Scheduler) :
  let s1 := set_locallyRunnableTasks (map_set taskId worker (locallyRunnableTasks s)) s in
  (map_has taskId (locallyRunnableTasks s) = true ->
   pick UnattachedClientId taskId worker s = (Throw (AlreadyAttempted taskId), s))
  /\
  (map_has taskId (locallyRunnableTasks s) = false ->
   interactive (runtime s) = true ->
   (isActive s = false -> pick UnattachedClientId taskId worker s = (Ok tt, s1)) /\
   (isActive s = true ->
    (getTaskClientId taskId s = None \/ getTaskClientId taskId s = Some None) ->
    forall c, clientId UnattachedClientId s = (Ok c, s) ->
    pick UnattachedClientId taskId worker s =
      (Ok tt, set_writes (writes s ++ [(taskId, Some c)]) s1)) /\
   (isActive s = true ->
    forall c', getTaskClientId taskId s = Some (Some c') ->
    pick UnattachedClientId taskId worker s = (Ok tt, s1))).
Proof.
  intros s1. pose proof (pick_cases taskId worker s) as H. fold s1 in H. cbv zeta in H.
  split; [by intros Ha; rewrite Ha in H|].
  intros Ha Hi. rewrite Ha, Hi in H. cbn [negb] in H. split_and!.
  - intros Hact. by rewrite Hact in H.
  - intros Hact Hreg c Hc. rewrite Hact, Hc in H. cbn in H.
    by destruct Hreg as [Hreg|Hreg]; rewrite Hreg in H.
  - intros Hact c' Hreg. by rewrite Hact, Hreg in H.
Qed.

(** C10, as amended. On a client that is not interactive no call of [pick]
    succeeds and none writes to the register: a first call for a task
    records the worker and fails the assertion 0x118; a call for a task that
    was already attempted fails earlier, as already attempted. *)
Theorem pick_not_interactive (taskId : string) (worker : Worker) (s : Scheduler) :
  interactive (runtime s) = false ->
  exists e s',
    pick UnattachedClientId taskId worker s = (Throw e, s') /\
    writes s' = writes s /\
    (map_has taskId (locallyRunnableTasks s) = false ->
     e = AssertionFailed 0x118 /\
     s' = set_locallyRunnableTasks (map_set taskId worker (locallyRunnableTasks s)) s) /\
    (map_has taskId (locallyRunnableTasks s) = true ->
     e = AlreadyAttempted taskId /\ s' = s).
Proof.
  intros Hi. rewrite pick_cases. cbv zeta. rewrite Hi. cbn [negb].
  destruct (map_has taskId (locallyRunnableTasks s)); eexists _, _;
    (split; [reflexivity|]); split_and!; done.
Qed.

(** ** release *)

Lemma releaseCore_writes (l : list string) (s : Scheduler) :
  releaseCore l s =
    (Ok tt,
     set_writes (writes s ++ map (fun t => (t, None)) l)
       (set_locallyRunnableTasks
          (fold_left (fun m t => map_delete t m) l (locallyRunnableTasks s)) s)).
Proof.
  assert (Hloop : forall l s,
    for_of l (fun taskUrl =>
        modify (fun s =>
          set_locallyRunnableTasks (map_delete taskUrl (locallyRunnableTasks s)) s) ;;
        writeCore taskUrl None) s =
    (Ok tt,
     set_writes (writes s ++ map (fun t => (t, None)) l)
       (set_locallyRunnableTasks
          (fold_left (fun m t => map_delete t m) l (locallyRunnableTasks s)) s))).
  { clear. induction l as [|x l IH]; intros s.
    - cbn. destruct s; unfold set_writes, set_locallyRunnableTasks; cbn.
      by rewrite app_nil_r.
    - cbn [for_of]. unfold bind at 1. unfold bind at 1. cbn [modify writeCore].
      rewrite IH. unfold set_writes, set_locallyRunnableTasks; cbn.
      by rewrite <- (assoc_L (++)). }
  unfold releaseCore. destruct l as [|t l]; [|apply Hloop].
  cbn. destruct s; unfold set_writes, set_locallyRunnableTasks; cbn.
  by rewrite app_nil_r.
Qed.

(** One turn of the loop of [release] changes nothing, and passes exactly
    when the id is releasable. *)
Lemma release_check (active : bool) (taskUrl : string) (s : Scheduler) :
  active = isActive s ->
  let body :=
    (s <- get ;;
     (if negb (map_has taskUrl (locallyRunnableTasks s))
      then throw (NeverRegistered taskUrl) else ret tt) ;;
     assert active 0x119 ;;
     let current := getTaskClientId taskUrl s in
     c <- clientId UnattachedClientId ;;
     if negb (bool_decide (current = Some (Some c)))
     then throw (NeverPicked taskUrl) else ret tt) in
  snd (body s) = s /\
  (fst (body s) = Ok tt <-> releasable UnattachedClientId taskUrl s).
Proof.
  intros -> body. subst body. unfold releasable, bind, get, throw, ret, assert.
  cbn -[clientId].
  destruct (map_has taskUrl (locallyRunnableTasks s)); cbn -[clientId];
    [|split; [done|]; split; [done | by intros (? & _)]].
  destruct (isActive s); cbn -[clientId];
    [|split; [done|]; split; [done | by intros (_ & ? & _)]].
  pose proof (clientId_pure s) as Hp.
  destruct (clientId UnattachedClientId s) as [[c|e] s'] eqn:Hc;
    cbn -[clientId] in *; subst s'.
  - case_bool_decide as Ho; cbn.
    + split; [done|]. split; [|done]. intros _. split_and!; [done..|]. by exists c.
    + split; [done|]. split; [done|]. intros (_ & _ & c' & [= <-] & ?). done.
  - split; [done|]. split; [done|]. by intros (_ & _ & c' & ? & _).
Qed.

Lemma release_loop (l : list string) (s : Scheduler) :
  let body := (fun taskUrl =>
     s' <- get ;;
     (if negb (map_has taskUrl (locallyRunnableTasks s'))
      then throw (NeverRegistered taskUrl) else ret tt) ;;
     assert (isActive s) 0x119 ;;
     let current := getTaskClientId taskUrl s' in
     c <- clientId UnattachedClientId ;;
     if negb (bool_decide (current = Some (Some c)))
     then throw (NeverPicked taskUrl) else ret tt) in
  snd (for_of l body s) = s /\
  (fst (for_of l body s) = Ok tt <->
   Forall (fun t => releasable UnattachedClientId t s) l).
Proof.
  intros body. induction l as [|x l (IH1 & IH2)].
  - cbn. split; [done|]. split; [by constructor | done].
  - cbn [for_of]. unfold bind at 1 2.
    destruct (release_check (isActive s) x s eq_refl) as (H1 & H2).
    cbv zeta in H1, H2. fold (body x) in H1, H2.
    destruct (body x s) as [[[]|e] s'] eqn:E; cbn in H1, H2; subst s'.
    + split; [done|]. rewrite IH2. split.
      * intros ?. constructor; [by apply H2 | done].
      * by inversion 1.
    + cbn. split; [done|]. split; [done|].
      inversion 1 as [|? ? Hx]; subst. by apply H2 in Hx.
Qed.

(** C6, as amended. [release] checks every id before it changes anything:
    a failure leaves the scheduler as it was. It fails when an id is not in
    [locallyRunnableTasks] (whether or not it is in [registeredTasks]), and
    when the register does not name the local clientId as the owner of an
    id. When every id is releasable it writes the unclaimed marker for each
    id, in order, removes each id from [locallyRunnableTasks], and changes
    nothing else. *)
Theorem release_spec (taskUrls : list string) (s : Scheduler) :
  (forall e s', release UnattachedClientId taskUrls s = (Throw e, s') -> s' = s)
  /\
  (forall t, t ∈ taskUrls -> map_has t (locallyRunnableTasks s) = false ->
   exists e, release UnattachedClientId taskUrls s = (Throw e, s))
  /\
  (forall t, t ∈ taskUrls ->
   (forall c, clientId UnattachedClientId s = (Ok c, s) ->
      getTaskClientId t s <> Some (Some c)) ->
   exists e, release UnattachedClientId taskUrls s = (Throw e, s))
  /\
  ((forall t, t ∈ taskUrls -> releasable UnattachedClientId t s) ->
   release UnattachedClientId taskUrls s =
     (Ok tt,
      set_writes (writes s ++ map (fun t => (t, None)) taskUrls)
        (set_locallyRunnableTasks
           (fold_left (fun m t => map_delete t m) taskUrls (locallyRunnableTasks s))
           s))).
Proof.
  pose proof (release_loop taskUrls s) as (Hs & Hok). cbv zeta in Hs, Hok.
  assert (Hfail : forall t, t ∈ taskUrls -> ~ releasable UnattachedClientId t s ->
            exists e, release UnattachedClientId taskUrls s = (Throw e, s)).
  { intros t Ht Hn. unfold release. unfold bind at 1. cbn [get]. unfold bind at 1.
    match type of Hs with snd ?x = _ => destruct x as [[[]|e] s'] eqn:E end;
      cbn in Hs, Hok; subst s'.
    - exfalso. apply Hn. destruct Hok as [Hok _].
      specialize (Hok eq_refl). rewrite Forall_forall in Hok. by apply Hok.
    - by exists e. }
  split_and!.
  - intros e s'. unfold release. unfold bind at 1. cbn [get]. unfold bind at 1.
    match type of Hs with snd ?x = _ => destruct x as [[[]|e'] s''] eqn:E end;
      cbn in Hs; subst s''.
    + rewrite releaseCore_writes. discriminate.
    + by intros [= _ <-].
  - intros t Ht Hno. apply (Hfail t Ht). intros (Hyes & _). congruence.
  - intros t Ht Hno. apply (Hfail t Ht). intros (_ & _ & c & Hc & Ho).
    by apply (Hno c).
  - intros Hall. unfold release. unfold bind at 1. cbn [get]. unfold bind at 1.
    match type of Hs with snd ?x = _ => destruct x as [[[]|e'] s''] eqn:E end;
      cbn in Hs, Hok; subst s''.
    + apply releaseCore_writes.
    + destruct Hok as [_ Hok]. discriminate Hok. by apply Forall_forall.
Qed.

(** ** The transition to inactive *)

Lemma emit_lost (tasks : list string) (s : Scheduler) :
  for_of tasks (fun task => emit (lost task)) s =
    (Ok tt, set_emitted (emitted s ++ map lost tasks) s).
Proof.
  revert s. induction tasks as [|t tasks IH]; intros s.
  - cbn. destruct s; unfold set_emitted; cbn. by rewrite app_nil_r.
  - cbn [for_of]. unfold bind at 1. cbn [emit modify]. rewrite IH.
    unfold set_emitted; cbn. by rewrite <- (assoc_L (++)).
Qed.

Lemma clearRunningTasks_inactive (s : Scheduler) :
  isActive s = false ->
  clearRunningTasks UnattachedClientId s =
    (Ok tt, set_emitted (emitted s ++ map lost (runningTasks s)) (set_runningTasks [] s)).
Proof.
  intros Hi. unfold clearRunningTasks.
  unfold bind at 1. cbn [get]. unfold bind at 1. cbn [modify].
  unfold bind at 1. cbn [get]. unfold bind at 1.
  rewrite (isActive_runtime (set_runningTasks [] s) s eq_refl), Hi. cbn [ret].
  exact (emit_lost (runningTasks s) (set_runningTasks [] s)).
Qed.

(** C7. When the replica is inactive as the listener runs, both the
    listener of "disconnected" and the callback of [waitAttached] return
    normally having emptied [runningTasks] and emitted one [lost] per task
    that was running, in order. Nothing is written to the register, and
    [registeredTasks] and [locallyRunnableTasks] are as before. *)
Theorem inactive_clears_runningTasks (s : Scheduler) :
  isActive s = false ->
  let s' :=
    set_emitted (emitted s ++ map lost (runningTasks s)) (set_runningTasks [] s) in
  on_disconnected UnattachedClientId s = (Ok tt, s') /\
  on_waitAttached UnattachedClientId s = (Ok tt, s') /\
  runningTasks s' = [] /\
  emitted s' = emitted s ++ map lost (runningTasks s) /\
  writes s' = writes s /\
  registeredTasks s' = registeredTasks s /\
  locallyRunnableTasks s' = locallyRunnableTasks s.
Proof.
  intros Hi s'. split_and!; try done.
  - unfold on_disconnected. unfold bind at 1. cbn [get].
    assert (attachState (runtime s) <> Detached) as Hd.
    { intros Hd. unfold isActive in Hi. by rewrite bool_decide_true in Hi. }
    rewrite bool_decide_false by done. cbn [negb].
    by apply clearRunningTasks_inactive.
  - unfold on_waitAttached. unfold bind at 1. unfold async.
    by rewrite clearRunningTasks_inactive.
Qed.

End Spec.

(** ** The scenarios *)

Lemma pick_spec_witness :
  pick unattached "task" 7%nat (scheduler_A true) =
    (Ok tt,
     set_writes [("task", Some "A")]
       (set_locallyRunnableTasks [("task", 7%nat)] (scheduler_A true))).
Proof.
  destruct (pick_spec unattached "task" 7%nat (scheduler_A true)) as (_ & H).
  destruct H as (_ & H & _); [vm_compute; reflexivity | vm_compute; reflexivity |].
  apply (H eq_refl (or_introl eq_refl) "A" eq_refl).
Defined.

(** C4, as stated, fails: client "A" is active and the register has no
    entry for "task", but the client is not interactive. [pick] records the
    worker, fails the assertion and writes nothing. *)
Lemma pick_active_absent_no_write :
  isActive (scheduler_A false) = true /\
  getTaskClientId "task" (scheduler_A false) = None /\
  map_has "task" (locallyRunnableTasks (scheduler_A false)) = false /\
  fst (pick unattached "task" 7%nat (scheduler_A false)) =
    Throw (AssertionFailed 0x118) /\
  writes (exec (pick unattached "task" 7%nat) (scheduler_A false)) = [] /\
  locallyRunnableTasks (exec (pick unattached "task" 7%nat) (scheduler_A false)) =
    [("task", 7%nat)].
Proof.
  split_and!; vm_compute; reflexivity.
Qed.

Lemma pick_not_interactive_witness :
  exists e s',
    pick unattached "task" 7%nat (scheduler_A false) = (Throw e, s') /\
    writes s' = writes (scheduler_A false).
Proof.
  destruct (pick_not_interactive unattached "task" 7%nat (scheduler_A false))
    as (e & s' & H1 & H2 & _); [vm_compute; reflexivity|].
  exists e, s'. split; [exact H1 | exact H2].
Defined.

(** C10, as stated, fails: on the client that is not interactive, the
    second call of [pick] for "task" does not reach the assertion; it is
    rejected as already attempted. *)
Lemma pick_again_not_interactive :
  interactive (runtime scheduler_A_attempted) = false /\
  fst (pick unattached "task" 7%nat (scheduler_A false)) =
    Throw (AssertionFailed 0x118) /\
  fst (pick unattached "task" 7%nat scheduler_A_attempted) =
    Throw (AlreadyAttempted "task") /\
  fst (pick unattached "task" 7%nat scheduler_A_attempted) <>
    Throw (AssertionFailed 0x118).
Proof.
  split_and!; [vm_compute; reflexivity.. | vm_compute; discriminate].
Qed.

Lemma release_spec_witness :
  release unattached ["task"] scheduler_A_owner =
    (Ok tt,
     set_writes [("task", Some "A"); ("task", None)]
       (set_locallyRunnableTasks [] scheduler_A_owner)).
Proof.
  destruct (release_spec unattached ["task"] scheduler_A_owner) as (_ & _ & _ & H).
  apply H. intros t Ht. apply list_elem_of_singleton in Ht as ->.
  split_and!; [vm_compute; reflexivity.. |].
  exists "A". split; vm_compute; reflexivity.
Defined.

(** C6, as stated, fails: "task" was picked, and never registered, by
    client "A", which owns it; [release] succeeds. *)
Lemma release_not_registered :
  registeredTasks scheduler_A_owner = ∅ /\
  pickedTasks scheduler_A_owner = ["task"] /\
  fst (release unattached ["task"] scheduler_A_owner) = Ok tt /\
  writes (exec (release unattached ["task"]) scheduler_A_owner) =
    [("task", Some "A"); ("task", None)] /\
  locallyRunnableTasks (exec (release unattached ["task"]) scheduler_A_owner) = [].
Proof.
  split_and!; vm_compute; reflexivity.
Qed.

Lemma register_spec_witness :
  register ["task"; "other"] scheduler_A_owner =
    (Ok tt,
     set_writes [("task", Some "A"); ("other", None)]
       (set_registeredTasks (list_to_set ["task"; "other"] ∪ ∅) scheduler_A_owner)).
Proof.
  destruct (register_spec ["task"; "other"] scheduler_A_owner) as (_ & H).
  apply H. intros t _. apply not_elem_of_empty.
Defined.

Lemma inactive_clears_runningTasks_witness :
  let s := set_runtime
    {| attachState := Attached; connected := false; runtimeClientId := Some "A";
       deltaManagerActive := true; interactive := true; quorumMembers := ["A"];
       routingContextAttached := true |} scheduler_A_owner in
  exists s',
    on_disconnected unattached s = (Ok tt, s') /\
    runningTasks s' = [] /\ emitted s' = [picked "task"; lost "task"] /\
    writes s' = writes s.
Proof.
  intros s.
  destruct (inactive_clears_runningTasks unattached s) as (H1 & _ & H2 & H3 & H4 & _);
    [vm_compute; reflexivity|].
  eexists. split; [exact H1|]. split; [exact H2|]. split; [exact H3 | exact H4].
Defined.

(** The callback of [waitAttached] on a replica that is already connected:
    the replica is active, [initializeCore] runs and claims the task. *)
Example waitAttached_active_writes :
  isActive scheduler_A_attaching = true /\
  fst (on_waitAttached unattached scheduler_A_attaching) = Ok tt /\
  runningTasks (exec (on_waitAttached unattached) scheduler_A_attaching) = [] /\
  emitted (exec (on_waitAttached unattached) scheduler_A_attaching) = [lost "task"] /\
  writes (exec (on_waitAttached unattached) scheduler_A_attaching) =
    [("task", Some "A")].
Proof.
  split_and!; vm_compute; reflexivity.
Qed.

End AgentSchedulerSpec.

(* ===================================================================== *)
(** * Properties of a session *)
(* ===================================================================== *)

Module SessionSpec.
Import AgentScheduler Session.

(** ** What the methods leave alone *)

Section Keeps.

Context (R : Scheduler -> Scheduler -> Prop) `{!PreOrder R}.

Lemma keeps_ret {A} (a : A) : keeps R (ret a).
Proof. intros s. reflexivity. Qed.

Lemma keeps_throw {A} (e : Error) : keeps R (@throw A e).
Proof. intros s. reflexivity. Qed.

Lemma keeps_get : keeps R get.
Proof. intros s. reflexivity. Qed.

Lemma keeps_assert (b : bool) (code : Z) : keeps R (assert b code).
Proof. intros s. unfold assert. destruct b; reflexivity. Qed.

Lemma keeps_modify (f : Scheduler -> Scheduler) :
  (forall s, R s (f s)) -> keeps R (modify f).
Proof. intros H s. apply H. Qed.

Lemma keeps_bind {A B} (m : M A) (k : A -> M B) :
  keeps R m -> (forall a, keeps R (k a)) -> keeps R (bind m k).
Proof.
  intros Hm Hk s. unfold bind. specialize (Hm s).
  destruct (m s) as [[a|e] s1]; cbn in *; [|done].
  by etransitivity; [|apply Hk].
Qed.

Lemma keeps_async {A} (m : M A) : keeps R m -> keeps R (async m).
Proof.
  intros Hm s. unfold async. specialize (Hm s).
  by destruct (m s) as [[a|e] s1].
Qed.

Lemma keeps_for_of {A} (l : list A) (body : A -> M unit) :
  (forall x, keeps R (body x)) -> keeps R (for_of l body).
Proof.
  intros Hb. induction l as [|x l IH]; cbn [for_of].
  - apply keeps_ret.
  - apply keeps_bind; [apply Hb | by intros _].
Qed.

Lemma keeps_for_acc {A B} (l : list A) (acc : B) (body : A -> B -> M B) :
  (forall x acc, keeps R (body x acc)) -> keeps R (for_acc l acc body).
Proof.
  intros Hb. revert acc. induction l as [|x l IH]; intros acc; cbn [for_acc].
  - apply keeps_ret.
  - apply keeps_bind; [apply Hb | done].
Qed.

End Keeps.

#[global] Instance unchanged_preorder {X} (π : Scheduler -> X) : PreOrder (unchanged π).
Proof.
  split; [intros s; reflexivity|]. intros s1 s2 s3 H1 H2.
  unfold unchanged in *. congruence.
Qed.

#[global] Instance writes_extended_preorder : PreOrder writes_extended.
Proof.
  split.
  - intros s. exists []. by rewrite app_nil_r.
  - intros s1 s2 s3 [W1 H1] [W2 H2]. exists (W1 ++ W2).
    by rewrite H2, H1, (assoc_L (++)).
Qed.

(** Takes a method apart: binds, loops and branches; what is left are the
    changes of the state, which [done] compares. *)
Ltac keeps_step :=
  cbv beta;
  lazymatch goal with
  | |- keeps ?R (bind ?m ?k) => apply (keeps_bind R m k); [|intros ?]
  | |- keeps ?R (ret ?a) => apply (keeps_ret R a)
  | |- keeps ?R (throw ?e) => apply (keeps_throw R e)
  | |- keeps ?R get => apply (keeps_get R)
  | |- keeps ?R (assert ?b ?c) => apply (keeps_assert R b c)
  | |- keeps ?R (async ?m) => apply (keeps_async R m)
  | |- keeps ?R (for_of ?l ?b) => apply (keeps_for_of R l b); intros ?
  | |- keeps ?R (for_acc ?l ?a ?b) => apply (keeps_for_acc R l a b); intros ? ?
  | |- keeps ?R (modify ?f) => apply (keeps_modify R f); intros ?
  | |- keeps _ (if ?b then _ else _) => destruct b
  | |- keeps _ (match ?x with _ => _ end) => destruct x
  end.

#[global] Instance env_kept_preorder : PreOrder env_kept.
Proof.
  split.
  - intros s. split_and!; [done..|reflexivity].
  - intros s1 s2 s3 (H1 & H2 & H3) (H1' & H2' & H3').
    split_and!; [congruence..|by etransitivity].
Qed.

Lemma env_kept_same (s s' : Scheduler) :
  runtime s' = runtime s ->
  consensusRegisterCollection s' = consensusRegisterCollection s ->
  writes s' = writes s ->
  env_kept s s'.
Proof.
  intros H1 H2 H3. split_and!; [done..|]. exists []. by rewrite app_nil_r.
Qed.

Lemma env_kept_write (s : Scheduler) (w : Write) :
  env_kept s (set_writes (writes s ++ [w]) s).
Proof. split_and!; [done..|]. by exists [w]. Qed.

Lemma clientId_keeps (U : string) R `{!PreOrder R} : keeps R (clientId U).
Proof. unfold clientId. repeat keeps_step. Qed.

(** Solves [keeps R m] for a method [m] that is unfolded down to binds,
    loops, branches and changes of the state. *)
Ltac keeps_go :=
  unfold writeCore, emit, sendErrorEvent;
  repeat first
    [ lazymatch goal with
      | |- keeps ?R (clientId ?U) => apply (clientId_keeps U R)
      end
    | keeps_step ];
  try first [ apply env_kept_write | by apply env_kept_same | done ].

Section Frames.

Variable U : string.

(** *** The runtime, the register and the log of writes *)

Lemma clearTasks_env l : keeps env_kept (clearTasks l).
Proof. unfold clearTasks. keeps_go. Qed.

Lemma register_env l : keeps env_kept (AgentScheduler.register l).
Proof. unfold AgentScheduler.register, registerCore. keeps_go. Qed.

Lemma pick_env t w : keeps env_kept (pick U t w).
Proof. unfold pick. keeps_go. Qed.

Lemma release_env l : keeps env_kept (release U l).
Proof. unfold release, releaseCore. keeps_go. Qed.

Lemma onNewTaskAssigned_env k : keeps env_kept (onNewTaskAssigned k).
Proof. unfold onNewTaskAssigned. keeps_go. Qed.

Lemma onTaskReassigned_env k v : keeps env_kept (onTaskReassigned U k v).
Proof. unfold onTaskReassigned. keeps_go. Qed.

Lemma initializeCore_env : keeps env_kept (initializeCore U).
Proof. unfold initializeCore, clearTasks. keeps_go. Qed.

Lemma clearRunningTasks_env : keeps env_kept (clearRunningTasks U).
Proof. unfold clearRunningTasks, initializeCore, clearTasks. keeps_go. Qed.

Lemma on_removeMember_env c : keeps env_kept (on_removeMember U c).
Proof. unfold on_removeMember, clearTasks. keeps_go. Qed.

Lemma on_atomicChanged_env k v : keeps env_kept (on_atomicChanged U k v).
Proof. unfold on_atomicChanged, onNewTaskAssigned, onTaskReassigned. keeps_go. Qed.

Lemma on_connected_env : keeps env_kept (on_connected U).
Proof. unfold on_connected, initializeCore, clearTasks. keeps_go. Qed.

Lemma on_disconnected_env : keeps env_kept (on_disconnected U).
Proof.
  unfold on_disconnected, clearRunningTasks, initializeCore, clearTasks. keeps_go.
Qed.

(** *** The tasks that the replica is interested in *)

Lemma register_tasks l :
  keeps (unchanged locallyRunnableTasks) (AgentScheduler.register l).
Proof. unfold AgentScheduler.register, registerCore. keeps_go. Qed.

Lemma on_removeMember_tasks c :
  keeps (unchanged locallyRunnableTasks) (on_removeMember U c).
Proof. unfold on_removeMember, clearTasks. keeps_go. Qed.

Lemma on_atomicChanged_tasks k v :
  keeps (unchanged locallyRunnableTasks) (on_atomicChanged U k v).
Proof. unfold on_atomicChanged, onNewTaskAssigned, onTaskReassigned. keeps_go. Qed.

Lemma on_connected_tasks : keeps (unchanged locallyRunnableTasks) (on_connected U).
Proof. unfold on_connected, initializeCore, clearTasks. keeps_go. Qed.


(** *** The tasks that the replica runs *)

Lemma register_running l :
  keeps (unchanged runningTasks) (AgentScheduler.register l).
Proof. unfold AgentScheduler.register, registerCore. keeps_go. Qed.

Lemma pick_running t w : keeps (unchanged runningTasks) (pick U t w).
Proof. unfold pick. keeps_go. Qed.

Lemma release_running l : keeps (unchanged runningTasks) (release U l).
Proof. unfold release, releaseCore. keeps_go. Qed.

Lemma on_removeMember_running c :
  keeps (unchanged runningTasks) (on_removeMember U c).
Proof. unfold on_removeMember, clearTasks. keeps_go. Qed.

Lemma on_connected_running : keeps (unchanged runningTasks) (on_connected U).
Proof. unfold on_connected, initializeCore, clearTasks. keeps_go. Qed.

End Frames.

(** ** What the listeners write *)

Section Handlers.

Variable U : string.

Lemma clientId_attached (s : Scheduler) (c : string) :
  attachState (runtime s) = Attached ->
  runtimeClientId (runtime s) = Some c ->
  truthy c = true ->
  clientId U s = (Ok c, s).
Proof.
  intros Ha Hc Ht. unfold clientId, bind, get, assert, ret. cbn.
  rewrite Ha, Hc. cbn. by rewrite Ht.
Qed.

(** The listener of "atomicChanged" writes the reaction of the replica. *)
Lemma on_atomicChanged_writes (key : string) (value : option string) (s : Scheduler) :
  attachState (runtime s) = Attached ->
  (isActive s = true ->
   exists c, runtimeClientId (runtime s) = Some c /\ truthy c = true) ->
  writes (exec (on_atomicChanged U key value) s) = writes s ++ reaction key value s.
Proof.
  intros Ha Hid. unfold exec, on_atomicChanged, reaction.
  unfold bind at 1. cbn [get]. unfold bind at 1.
  destruct (isActive s) eqn:Hact.
  - destruct (Hid eq_refl) as (c & Hc & Ht). rewrite Hc.
    unfold bind at 1. rewrite (clientId_attached s c Ha Hc Ht). cbn [ret].
    case_bool_decide as Hv.
    + subst value. rewrite bool_decide_true by done.
      rewrite app_nil_r.
      unfold onNewTaskAssigned, bind, get, assert, modify, sendErrorEvent, emit, ret, throw.
      cbn. destruct (set_has key (runningTasks s)); cbn; [done|].
      by destruct (map_get key (locallyRunnableTasks s)).
    + unfold onTaskReassigned. unfold bind at 1. cbn [get]. unfold bind at 1.
      match goal with |- context [(if set_has key (runningTasks s) then ?a else ?b) s] =>
        assert (exists s1, (if set_has key (runningTasks s) then a else b) s = (Ok tt, s1)
                  /\ runtime s1 = runtime s /\ writes s1 = writes s
                  /\ locallyRunnableTasks s1 = locallyRunnableTasks s)
          as (s1 & -> & Hr1 & Hw1 & Hl1)
      end.
      { destruct (set_has key (runningTasks s)); eexists; (split; [reflexivity|]); done. }
      unfold bind at 1. cbn [get].
      rewrite (AgentSchedulerSpec.isActive_runtime s1 s Hr1), Hact.
      destruct value as [c'|].
      * rewrite bool_decide_false by congruence.
        unfold notInQuorum. rewrite Hr1.
        destruct (negb (existsb _ _)); cbn; [by rewrite Hw1 | by rewrite Hw1, app_nil_r].
      * rewrite Hl1. destruct (map_has key (locallyRunnableTasks s)).
        -- unfold bind. rewrite (clientId_attached s1 c); [|congruence..].
           cbn. by rewrite Hw1.
        -- cbn. by rewrite Hw1, app_nil_r.
  - rewrite app_nil_r. cbn [ret].
    unfold onTaskReassigned. unfold bind at 1. cbn [get]. unfold bind at 1.
    match goal with |- context [(if set_has key (runningTasks s) then ?a else ?b) s] =>
      assert (exists s1, (if set_has key (runningTasks s) then a else b) s = (Ok tt, s1)
                /\ runtime s1 = runtime s /\ writes s1 = writes s)
        as (s1 & -> & Hr1 & Hw1)
    end.
    { destruct (set_has key (runningTasks s)); eexists; (split; [reflexivity|]); done. }
    unfold bind at 1. cbn [get].
    by rewrite (AgentSchedulerSpec.isActive_runtime s1 s Hr1), Hact.
Qed.

Lemma set_has_In (k : string) (l : list string) : set_has k l = true <-> k ∈ l.
Proof.
  unfold set_has. rewrite existsb_exists. split.
  - intros (x & Hx & He). apply String.eqb_eq in He as ->. by apply list_elem_of_In.
  - intros Hk. exists k. split; [by apply list_elem_of_In | apply String.eqb_refl].
Qed.

Lemma elem_of_set_add (k k' : string) (l : list string) :
  k' ∈ set_add k l <-> k' = k \/ k' ∈ l.
Proof.
  unfold set_add. destruct (set_has k l) eqn:E.
  - apply set_has_In in E. split; [by right | by intros [->|]].
  - rewrite elem_of_app, list_elem_of_singleton. tauto.
Qed.

Lemma elem_of_set_delete (k k' : string) (l : list string) :
  k' ∈ set_delete k l <-> k' ∈ l /\ k' <> k.
Proof.
  unfold set_delete. rewrite list_elem_of_In, filter_In, <- list_elem_of_In.
  rewrite negb_true_iff, String.eqb_neq. split; intros [? ?]; split; congruence.
Qed.

Lemma onTaskReassigned_running (key : string) (value : option string)
    (s : Scheduler) (k : string) :
  k ∈ runningTasks (snd (onTaskReassigned U key value s)) ->
  k ∈ runningTasks s /\ k <> key.
Proof.
  pose proof (elem_of_set_delete key k (runningTasks s)) as Hdel.
  pose proof (set_has_In key (runningTasks s)) as Hhas.
  assert (k ∈ runningTasks s -> set_has key (runningTasks s) = false ->
          k ∈ runningTasks s /\ k <> key) as Hne.
  { intros Hk E. split; [done|]. intros ->. apply Hhas in Hk. congruence. }
  unfold onTaskReassigned. unfold bind at 1. cbn [get]. unfold bind at 1.
  destruct (set_has key (runningTasks s)) eqn:E.
  - unfold bind at 1. cbn [modify]. unfold emit. cbn [modify].
    match goal with |- context [snd (?m ?s1)] =>
      assert (keeps (unchanged runningTasks) m) as Hk by keeps_go;
      rewrite (Hk s1)
    end.
    cbn -[set_delete]. by rewrite Hdel.
  - cbn [ret].
    match goal with |- context [snd (?m s)] =>
      assert (keeps (unchanged runningTasks) m) as Hk by keeps_go;
      rewrite (Hk s)
    end.
    intros Hk'. by apply Hne.
Qed.

Lemma onNewTaskAssigned_running (key : string) (s : Scheduler) (k : string) :
  k ∈ runningTasks (snd (onNewTaskAssigned key s)) ->
  k = key \/ k ∈ runningTasks s.
Proof.
  pose proof (elem_of_set_add key k (runningTasks s)) as Hadd.
  unfold onNewTaskAssigned, sendErrorEvent, emit, assert, bind, get, modify, ret, throw.
  cbn -[set_add]. destruct (set_has key (runningTasks s)) eqn:E; cbn -[set_add];
    [by right|].
  destruct (map_get key (locallyRunnableTasks s)); cbn -[set_add]; by rewrite Hadd.
Qed.

(** The listener of "atomicChanged" lets the replica run the task when the
    value names its client, and no longer otherwise. *)
Lemma on_atomicChanged_running (key : string) (value : option string) (s : Scheduler) :
  attachState (runtime s) = Attached ->
  (isActive s = true ->
   exists c, runtimeClientId (runtime s) = Some c /\ truthy c = true) ->
  forall k, k ∈ runningTasks (exec (on_atomicChanged U key value) s) ->
    (k ∈ runningTasks s /\ k <> key) \/
    (k = key /\ isActive s = true /\
     exists c, runtimeClientId (runtime s) = Some c /\ value = Some c).
Proof.
  intros Ha Hid k. unfold exec, on_atomicChanged.
  unfold bind at 1. cbn [get]. unfold bind at 1.
  destruct (isActive s) eqn:Hact;
    [|by left; apply (onTaskReassigned_running key value)].
  destruct (Hid eq_refl) as (c & Hc & Ht).
  unfold bind at 1. rewrite (clientId_attached s c Ha Hc Ht). cbn [ret].
  case_bool_decide as Hv; [|by left; apply (onTaskReassigned_running key value)].
  intros Hk. apply onNewTaskAssigned_running in Hk.
  destruct (decide (k = key)) as [->|Hne].
  - right. split_and!; [done..|]. by exists c.
  - left. by destruct Hk.
Qed.

Lemma for_of_writeCore (l : list string) (s : Scheduler) :
  exists s',
    for_of l (fun taskUrl => writeCore taskUrl None) s = (Ok tt, s') /\
    writes s' = writes s ++ map (fun t => (t, None)) l.
Proof.
  revert s. induction l as [|x l IH]; intros s.
  - exists s. split; [done|]. by rewrite app_nil_r.
  - cbn [for_of]. unfold bind at 1. cbn [writeCore modify].
    destruct (IH (set_writes (writes s ++ [(x, None)]) s)) as (s' & -> & Hw).
    exists s'. split; [done|]. rewrite Hw. cbn. by rewrite <- (assoc_L (++)).
Qed.

Lemma clearTasks_writes (l : list string) (s : Scheduler) :
  isActive s = true ->
  exists s',
    clearTasks l s = (Ok tt, s') /\
    writes s' = writes s ++ map (fun t => (t, None)) l.
Proof.
  intros Hact. unfold clearTasks. unfold bind at 1. cbn [get].
  unfold bind at 1. rewrite Hact. cbn [assert ret].
  apply for_of_writeCore.
Qed.

(** The listener of "removeMember" writes a claim or the unclaimed marker
    for every task of the member that left. *)
Lemma on_removeMember_writes (removed : string) (s : Scheduler) :
  attachState (runtime s) = Attached ->
  routingContextAttached (runtime s) = true ->
  (isActive s = true ->
   exists c, runtimeClientId (runtime s) = Some c /\ truthy c = true) ->
  writes (exec (on_removeMember U removed) s) = writes s ++ removeMember_writes removed s.
Proof.
  intros Ha Hrc Hid. unfold exec, on_removeMember, removeMember_writes.
  unfold bind at 1. cbn [get]. unfold bind at 1. rewrite Hrc. cbn [assert ret].
  destruct (isActive s) eqn:Hact; [|cbn; by rewrite app_nil_r].
  destruct (Hid eq_refl) as (c & Hc & Ht). rewrite Hc.
  set (owned := fun t => bool_decide (getTaskClientId t s = Some (Some removed))).
  set (has := fun t => map_has t (locallyRunnableTasks s)).
  match goal with |- context [for_acc _ [] ?b] => set (body := b) end.
  assert (Hloop : forall l acc s1,
    runtime s1 = runtime s ->
    consensusRegisterCollection s1 = consensusRegisterCollection s ->
    locallyRunnableTasks s1 = locallyRunnableTasks s ->
    exists s2,
      for_acc l acc body s1 =
        (Ok (acc ++ List.filter (fun t => negb (has t)) (List.filter owned l)), s2) /\
      writes s2 =
        writes s1 ++ map (fun t => (t, Some c)) (List.filter has (List.filter owned l)) /\
      runtime s2 = runtime s).
  { induction l as [|x l IH]; intros acc s1 Hr Hv Hl.
    - exists s1. cbn. by rewrite !app_nil_r.
    - cbn [for_acc]. unfold bind at 1. subst body. cbv beta.
      unfold bind at 1. cbn [get].
      assert (bool_decide (getTaskClientId x s1 = Some (Some removed)) = owned x) as ->.
      { subst owned. cbv beta. apply bool_decide_ext.
        unfold getTaskClientId. by rewrite Hv. }
      cbn [List.filter].
      destruct (owned x) eqn:Ho; cbn [List.filter].
      + rewrite Hl. fold (has x). destruct (has x) eqn:Hh; cbn [negb].
        * unfold bind at 1. rewrite (clientId_attached s1 c); [|congruence..].
          unfold bind at 1. cbn [writeCore modify ret].
          edestruct (IH acc (set_writes (writes s1 ++ [(x, Some c)]) s1))
            as (s2 & -> & Hw & Hr2); [done..|].
          exists s2. split_and!; [done| |done].
          rewrite Hw. cbn. by rewrite <- (assoc_L (++)).
        * cbn [ret].
          edestruct (IH (acc ++ [x]) s1) as (s2 & -> & Hw & Hr2); [done..|].
          exists s2. split_and!; [|done..]. cbn. by rewrite <- (assoc_L (++)).
      + cbn [ret]. by apply IH. }
  unfold bind at 1.
  destruct (Hloop (map_keys (consensusRegisterCollection s)) [] s)
    as (s2 & -> & Hw & Hr2); [done..|].
  cbn [app]. unfold bind at 1. unfold async.
  destruct (clearTasks_writes
              (List.filter (fun t => negb (has t))
                 (List.filter owned (map_keys (consensusRegisterCollection s)))) s2)
    as (s3 & -> & Hw3).
  { by rewrite (AgentSchedulerSpec.isActive_runtime s2 s Hr2). }
  cbn. by rewrite Hw3, Hw, (assoc_L (++)).
Qed.

(** [initializeCore] claims every task of the replica that nobody owns and
    clears every task whose owner is not in the quorum. *)
Lemma initializeCore_exec_writes (s : Scheduler) (c : string) :
  attachState (runtime s) = Attached ->
  isActive s = true ->
  runtimeClientId (runtime s) = Some c ->
  truthy c = true ->
  writes (exec (initializeCore U) s) = writes s ++ initializeCore_writes s.
Proof.
  intros Ha Hact Hc Ht. unfold exec, initializeCore, initializeCore_writes.
  rewrite Hc. unfold bind at 1. cbn [get]. unfold bind at 1.
  match goal with |- context [for_of _ ?b] => set (body := b) end.
  assert (Hloop : forall l s1,
    runtime s1 = runtime s ->
    consensusRegisterCollection s1 = consensusRegisterCollection s ->
    exists s2,
      for_of l body s1 = (Ok tt, s2) /\
      writes s2 =
        writes s1 ++
        map (fun t => (t, Some c))
          (List.filter (fun t => falsy (getTaskClientId t s)) (map_keys l)) /\
      runtime s2 = runtime s /\
      consensusRegisterCollection s2 = consensusRegisterCollection s).
  { induction l as [|[x w] l IH]; intros s1 Hr Hv.
    - exists s1. cbn. by rewrite app_nil_r.
    - cbn [for_of]. unfold bind at 1. subst body. cbv beta iota.
      unfold bind at 1. cbn [get].
      assert (getTaskClientId x s1 = getTaskClientId x s) as ->
        by (unfold getTaskClientId; by rewrite Hv).
      assert (Hclaim :
        exists s2,
          for_of l
            (fun '(taskUrl, _) =>
               s0 <- get;;
               match getTaskClientId taskUrl s0 with
               | Some (Some c') =>
                   if truthy c' then ret tt
                   else c0 <- clientId U;; writeCore taskUrl (Some c0)
               | _ => c0 <- clientId U;; writeCore taskUrl (Some c0)
               end)
            (set_writes (writes s1 ++ [(x, Some c)]) s1) = (Ok tt, s2) /\
          writes s2 =
            writes s1 ++
            map (fun t => (t, Some c))
              (x :: List.filter (fun t => falsy (getTaskClientId t s)) (map_keys l)) /\
          runtime s2 = runtime s /\
          consensusRegisterCollection s2 = consensusRegisterCollection s).
      { edestruct (IH (set_writes (writes s1 ++ [(x, Some c)]) s1))
          as (s2 & -> & Hw & Hr2 & Hv2); [done..|].
        exists s2. split_and!; [done| |done..].
        rewrite Hw. cbn. by rewrite <- (assoc_L (++)). }
      cbn [map_keys map fst List.filter]. unfold falsy at 1.
      destruct (getTaskClientId x s) as [[c'|]|].
      + destruct (truthy c'); cbn [negb ret].
        * by apply IH.
        * unfold bind at 1. rewrite (clientId_attached s1 c); [|congruence..].
          cbn [writeCore modify]. exact Hclaim.
      + unfold bind at 1. rewrite (clientId_attached s1 c); [|congruence..].
        cbn [writeCore modify]. exact Hclaim.
      + unfold bind at 1. rewrite (clientId_attached s1 c); [|congruence..].
        cbn [writeCore modify]. exact Hclaim. }
  destruct (Hloop (locallyRunnableTasks s) s) as (s2 & -> & Hw & Hr2 & Hv2); [done..|].
  unfold bind at 1. cbn [get]. unfold bind at 1.
  match goal with |- context [for_acc _ [] ?b] => set (body2 := b) end.
  set (orphan := fun t =>
    match getTaskClientId t s with
    | Some (Some c') => truthy c' && notInQuorum c' s
    | _ => false
    end).
  assert (Hloop2 : forall l acc,
    for_acc l acc body2 s2 = (Ok (acc ++ List.filter orphan l), s2)).
  { induction l as [|x l IH]; intros acc.
    - cbn. by rewrite app_nil_r.
    - cbn [for_acc]. unfold bind at 1. subst body2. cbv beta.
      unfold bind at 1. cbn [get].
      assert (getTaskClientId x s2 = getTaskClientId x s) as ->
        by (unfold getTaskClientId; by rewrite Hv2).
      cbn [List.filter]. unfold orphan at 1.
      destruct (getTaskClientId x s) as [[c'|]|]; cbn [ret]; try apply IH.
      unfold notInQuorum. rewrite Hr2.
      destruct (truthy c' && _); cbn [ret]; [|apply IH].
      rewrite IH. by rewrite <- (assoc_L (++)). }
  rewrite Hv2, Hloop2. cbn [app]. unfold bind at 1. unfold async.
  destruct (clearTasks_writes
              (List.filter orphan (map_keys (consensusRegisterCollection s))) s2)
    as (s3 & -> & Hw3).
  { by rewrite (AgentSchedulerSpec.isActive_runtime s2 s Hr2). }
  cbn. by rewrite Hw3, Hw, (assoc_L (++)).
Qed.

Lemma on_connected_writes (s : Scheduler) (c : string) :
  attachState (runtime s) = Attached ->
  isActive s = true ->
  runtimeClientId (runtime s) = Some c ->
  truthy c = true ->
  writes (exec (on_connected U) s) = writes s ++ initializeCore_writes s.
Proof.
  intros Ha Hact Hc Ht. unfold exec, on_connected. unfold bind at 1. cbn [get].
  rewrite Hact. by apply (initializeCore_exec_writes s c).
Qed.

End Handlers.

(** ** Maps in insertion order *)

Section Maps.

Context {V : Type}.

Lemma map_get_set_eq (k : string) (v : V) (m : list (string * V)) :
  map_get k (map_set k v m) = Some v.
Proof.
  induction m as [|[k' v'] m IH]; cbn.
  - by rewrite String.eqb_refl.
  - destruct (String.eqb k' k) eqn:E; cbn.
    + by rewrite String.eqb_refl.
    + by rewrite E.
Qed.

Lemma map_get_set_ne (k k' : string) (v : V) (m : list (string * V)) :
  k' <> k -> map_get k' (map_set k v m) = map_get k' m.
Proof.
  intros Hne. induction m as [|[k0 v0] m IH]; cbn.
  - destruct (String.eqb k k') eqn:E; [|done].
    apply String.eqb_eq in E. congruence.
  - destruct (String.eqb k0 k) eqn:E; cbn.
    + apply String.eqb_eq in E as ->.
      destruct (String.eqb k k') eqn:E'; [|done].
      apply String.eqb_eq in E'. congruence.
    + by rewrite IH.
Qed.

Lemma map_get_keys (k : string) (v : V) (m : list (string * V)) :
  map_get k m = Some v -> k ∈ map_keys m.
Proof.
  induction m as [|[k' v'] m IH]; cbn; [done|].
  destruct (String.eqb k' k) eqn:E.
  - apply String.eqb_eq in E as ->. intros _. apply list_elem_of_here.
  - intros H. apply list_elem_of_further. by apply IH.
Qed.

Lemma map_has_keys (k : string) (m : list (string * V)) :
  map_has k m = true -> k ∈ map_keys m.
Proof.
  unfold map_has. destruct (map_get k m) as [v|] eqn:E; [|done].
  intros _. by apply (map_get_keys k v).
Qed.

Lemma map_has_delete (k k' : string) (m : list (string * V)) :
  map_has k (map_delete k' m) = true -> map_has k m = true.
Proof.
  unfold map_has. induction m as [|[k0 v0] m IH]; cbn; [done|].
  destruct (String.eqb k0 k') eqn:E; cbn.
  - intros H. destruct (String.eqb k0 k); [done|]. by apply IH.
  - destruct (String.eqb k0 k); [done|]. apply IH.
Qed.

Lemma map_has_set (k k' : string) (v : V) (m : list (string * V)) :
  map_has k (map_set k' v m) = true -> k = k' \/ map_has k m = true.
Proof.
  unfold map_has. destruct (decide (k = k')) as [->|Hne]; [by left|].
  rewrite map_get_set_ne by done. by right.
Qed.

End Maps.

Lemma map_has_deletes {V} (k : string) (l : list string) (m : list (string * V)) :
  map_has k (fold_left (fun m t => map_delete t m) l m) = true -> map_has k m = true.
Proof.
  revert m. induction l as [|t l IH]; intros m; cbn; [done|].
  intros H. apply IH in H. by apply map_has_delete in H.
Qed.

(** ** What the methods write *)

Section Calls.

Variable U : string.

Lemma pick_exec (t : string) (w : Worker) (s : Scheduler) :
  attachState (runtime s) = Attached ->
  interactive (runtime s) = true ->
  (isActive s = true ->
   exists c, runtimeClientId (runtime s) = Some c /\ truthy c = true) ->
  exists W,
    writes (exec (pick U t w) s) = writes s ++ W /\
    (forall k c, (k, Some c) ∈ W -> truthy c = true) /\
    (forall k, map_has k (locallyRunnableTasks (exec (pick U t w) s)) = true ->
       map_has k (locallyRunnableTasks s) = true \/
       k = t /\
       (isActive s = true ->
        falsy (getTaskClientId t s) = true \/
        exists c, getTaskClientId t s = Some (Some c) /\ truthy c = true) /\
       (isActive s = true ->
        getTaskClientId t s = None \/ getTaskClientId t s = Some None ->
        exists c, (t, Some c) ∈ W)).
Proof.
  intros Ha Hi Hid. unfold exec. rewrite AgentSchedulerSpec.pick_cases. cbv zeta.
  rewrite Hi. cbn [negb].
  destruct (map_has t (locallyRunnableTasks s)) eqn:Hhas.
  { exists []. cbn. rewrite app_nil_r. split_and!; [done| |by left].
    intros k c Hk. by apply elem_of_nil in Hk. }
  destruct (isActive s) eqn:Hact; cbn [negb].
  2:{ exists []. cbn. rewrite app_nil_r. split_and!; [done| |].
      - intros k c Hk. by apply elem_of_nil in Hk.
      - intros k Hk. apply map_has_set in Hk as [->|Hk]; [|by left].
        right. split_and!; done. }
  destruct (Hid eq_refl) as (c & Hc & Ht).
  rewrite (clientId_attached U s c Ha Hc Ht). cbn [fst].
  assert (Hclaim : exists W,
    writes (set_writes (writes s ++ [(t, Some c)])
              (set_locallyRunnableTasks (map_set t w (locallyRunnableTasks s)) s)) =
      writes s ++ W /\
    (forall k c0, (k, Some c0) ∈ W -> truthy c0 = true) /\
    (forall k, map_has k (locallyRunnableTasks
                 (set_writes (writes s ++ [(t, Some c)])
                    (set_locallyRunnableTasks
                       (map_set t w (locallyRunnableTasks s)) s))) = true ->
       map_has k (locallyRunnableTasks s) = true \/
       k = t /\
       (true = true ->
        falsy (getTaskClientId t s) = true \/
        exists c, getTaskClientId t s = Some (Some c) /\ truthy c = true) /\
       (true = true ->
        getTaskClientId t s = None \/ getTaskClientId t s = Some None ->
        exists c0, (t, Some c0) ∈ W))).
  { exists [(t, Some c)]. split_and!; [done| |].
    - intros k c0 Hk. apply list_elem_of_singleton in Hk. by injection Hk as -> ->.
    - intros k Hk. cbn in Hk. apply map_has_set in Hk as [->|Hk]; [|by left].
      right. split_and!; [done| |].
      + intros _. destruct (getTaskClientId t s) as [[c0|]|]; cbn; [|by left..].
        destruct (truthy c0) eqn:E; [right; by exists c0 | by left].
      + intros _ _. exists c. apply list_elem_of_here. }
  destruct (getTaskClientId t s) as [[c0|]|] eqn:Hreg; cbn [snd]; [|exact Hclaim..].
  exists []. cbn. rewrite app_nil_r. split_and!; [done| |].
  - intros k c1 Hk. by apply elem_of_nil in Hk.
  - intros k Hk. apply map_has_set in Hk as [->|Hk]; [|by left].
    right. split_and!; [done| |].
    + intros _. destruct (truthy c0) eqn:E; [right; by exists c0 | by left].
    + intros _ [?|?]; congruence.
Qed.

Lemma release_exec (l : list string) (s : Scheduler) :
  exists W,
    writes (exec (release U l) s) = writes s ++ W /\
    (forall k v, (k, v) ∈ W -> v = None) /\
    (forall k, map_has k (locallyRunnableTasks (exec (release U l) s)) = true ->
       map_has k (locallyRunnableTasks s) = true).
Proof.
  assert (Hrel :
    (exists e, release U l s = (Throw e, s)) \/
    release U l s =
      (Ok tt,
       set_writes (writes s ++ map (fun t => (t, None)) l)
         (set_locallyRunnableTasks
            (fold_left (fun m t => map_delete t m) l (locallyRunnableTasks s)) s))).
  { pose proof (AgentSchedulerSpec.release_loop U l s) as (Hs & _). cbv zeta in Hs.
    match type of Hs with snd ?x = _ => destruct x as [[[]|e] s'] eqn:E end;
      cbn in Hs; subst s'.
    - right. unfold release. unfold bind at 1. cbn [get]. unfold bind at 1.
      rewrite E. apply AgentSchedulerSpec.releaseCore_writes.
    - left. exists e. unfold release. unfold bind at 1. cbn [get]. unfold bind at 1.
      by rewrite E. }
  assert (Hex :
    exec (release U l) s = s \/
    exec (release U l) s =
      set_writes (writes s ++ map (fun t => (t, None)) l)
        (set_locallyRunnableTasks
           (fold_left (fun m t => map_delete t m) l (locallyRunnableTasks s)) s)).
  { unfold exec. destruct Hrel as [[e ->] | ->]; [by left | by right]. }
  clear Hrel.
  destruct Hex as [-> | ->].
  - exists []. cbn. rewrite app_nil_r. split_and!; [done| |done].
    intros k v Hk. by apply elem_of_nil in Hk.
  - eexists. split_and!; [reflexivity| |].
    + intros k v Hk. apply list_elem_of_fmap in Hk as (t & [= -> ->] & _). done.
    + intros k Hk. cbn in Hk. by apply map_has_deletes in Hk.
Qed.

Lemma register_exec (l : list string) (s : Scheduler) :
  exists W,
    writes (exec (AgentScheduler.register l) s) = writes s ++ W /\
    (forall k v, (k, v) ∈ W -> v = None).
Proof.
  unfold exec, AgentScheduler.register. unfold bind at 1.
  rewrite AgentSchedulerSpec.register_check.
  destruct (list_find _ l) as [[i t]|].
  - exists []. cbn. rewrite app_nil_r. split; [done|].
    intros k v Hk. by apply elem_of_nil in Hk.
  - unfold bind. rewrite AgentSchedulerSpec.register_collect.
    rewrite AgentSchedulerSpec.registerCore_writes. cbn [snd].
    eexists. split; [reflexivity|].
    intros k v Hk. apply list_elem_of_fmap in Hk as (t & [= -> ->] & _). done.
Qed.

End Calls.

(** ** A replica, event by event *)

Section Nodes.

Variable U : string.

Lemma active_connected σ n :
  node_wf σ n -> active n = connected (runtime (scheduler n)).
Proof.
  intros Hwf. unfold active, isActive. rewrite (wf_attached σ n Hwf). cbn.
  destruct (connected (runtime (scheduler n))) eqn:E; [|done].
  by rewrite (wf_mode σ n Hwf E).
Qed.

Lemma node_ready σ n :
  node_wf σ n -> active n = true ->
  exists c, runtimeClientId (runtime (scheduler n)) = Some c /\
            truthy c = true /\ c ∈ quorum σ.
Proof.
  intros Hwf Hact. rewrite (active_connected σ n Hwf) in Hact.
  by apply (wf_clientId σ n Hwf).
Qed.

Lemma node_ready' σ n :
  node_wf σ n ->
  isActive (set_writes [] (scheduler n)) = true ->
  exists c, runtimeClientId (runtime (set_writes [] (scheduler n))) = Some c /\
            truthy c = true.
Proof.
  intros Hwf Hact. destruct (node_ready σ n Hwf Hact) as (c & ? & ? & _). by exists c.
Qed.

Lemma notInQuorum_spec σ n c :
  node_wf σ n -> notInQuorum c (scheduler n) = negb (bool_decide (c ∈ quorum σ)).
Proof.
  intros Hwf. unfold notInQuorum. rewrite (wf_members σ n Hwf). f_equal.
  apply eq_true_iff_eq. rewrite existsb_exists, bool_decide_eq_true. split.
  - intros (x & Hx & He). apply String.eqb_eq in He as ->. by apply list_elem_of_In.
  - intros Hc. exists c. split; [by apply list_elem_of_In | apply String.eqb_refl].
Qed.

(** What [perform] does with a method that keeps the runtime and the
    register. *)
Lemma perform_env (m : M unit) (stamp : nat) (n : Node) :
  keeps env_kept m ->
  runtime (scheduler (perform m stamp n)) = runtime (scheduler n) /\
  consensusRegisterCollection (scheduler (perform m stamp n)) =
    consensusRegisterCollection (scheduler n).
Proof.
  intros Hk. unfold perform. cbn.
  destruct (Hk (set_writes [] (scheduler n))) as (H1 & H2 & _).
  unfold exec. by rewrite H1, H2.
Qed.

Lemma perform_active (m : M unit) (stamp : nat) (n : Node) :
  keeps env_kept m -> active (perform m stamp n) = active n.
Proof.
  intros Hk. unfold active. apply AgentSchedulerSpec.isActive_runtime.
  by apply perform_env.
Qed.

Lemma perform_node_wf σ (m : M unit) (stamp : nat) (n : Node) :
  node_wf σ n ->
  keeps env_kept m ->
  (stamp <= sequenceNumber σ)%nat ->
  (forall k c, (k, Some c) ∈ writes (exec m (set_writes [] (scheduler n))) ->
     truthy c = true) ->
  node_wf σ (perform m stamp n).
Proof.
  intros Hwf Hk Hstamp Hval.
  destruct (perform_env m stamp n Hk) as (Hr & Hv).
  destruct Hwf. split; rewrite ?Hr, ?Hv; try done.
  - unfold perform. cbn. apply Forall_app. split; [done|].
    apply Forall_forall. intros w Hw.
    apply list_elem_of_fmap in Hw as (w' & -> & _). done.
  - unfold perform. cbn. intros k c st Hin.
    apply elem_of_app in Hin as [Hin|Hin]; [by eapply wf_values0|].
    apply list_elem_of_fmap in Hin as (w' & [= <- <-] & Hw'). by eapply Hval.
Qed.

(** A replica stays responsive when its outbox only grows and it takes no
    new interest. *)
Lemma perform_responsive σ (m : M unit) (stamp : nat) (n : Node) :
  responsive σ n ->
  keeps env_kept m ->
  (forall k, interested k (perform m stamp n) = true -> interested k n = true) ->
  responsive σ (perform m stamp n).
Proof.
  intros Hresp Hk Hint Hact key Hneed.
  rewrite (perform_active m stamp n Hk) in Hact.
  destruct (Hresp Hact key) as (v & st & Hin & Hlive).
  { unfold needs_reaction in *. destruct (map_get key (register σ)) as [[c|]|];
      [done|by apply Hint..]. }
  exists v, st. split; [|done]. unfold perform. cbn. apply elem_of_app. by left.
Qed.

Lemma perform_runs_own σ (m : M unit) (stamp : nat) (n : Node) :
  runs_own σ n ->
  keeps env_kept m ->
  keeps (unchanged runningTasks) m ->
  runs_own σ (perform m stamp n).
Proof.
  intros Hown Hk Hrun key Hkey.
  rewrite (perform_active m stamp n Hk).
  destruct (perform_env m stamp n Hk) as (-> & _).
  apply Hown.
  assert (runningTasks (scheduler (perform m stamp n)) = runningTasks (scheduler n))
    as Heq by apply (Hrun (set_writes [] (scheduler n))).
  by rewrite Heq in Hkey.
Qed.

(** The properties of a replica read only the quorum, the register, the
    versions and the sequence number of the session. *)
Lemma node_wf_ext σ σ' n :
  quorum σ' = quorum σ -> register σ' = register σ ->
  (sequenceNumber σ <= sequenceNumber σ')%nat ->
  node_wf σ n -> node_wf σ' n.
Proof.
  intros Hq Hr Hs []. split; rewrite ?Hq, ?Hr; try done.
  eapply Forall_impl; [done|]. cbn. lia.
Qed.

Lemma responsive_ext σ σ' n :
  quorum σ' = quorum σ -> register σ' = register σ -> versions σ' = versions σ ->
  responsive σ n -> responsive σ' n.
Proof.
  intros Hq Hr Hv Hresp Hact key Hneed.
  unfold needs_reaction, version in *. rewrite Hq, Hr in Hneed. rewrite Hv.
  by apply Hresp.
Qed.

Lemma runs_own_ext σ σ' n :
  register σ' = register σ -> runs_own σ n -> runs_own σ' n.
Proof. intros Hr Hown key Hkey. rewrite Hr. by apply Hown. Qed.

Lemma lookup_insert_cases {A} (l : list A) (i j : nat) (x y : A) :
  <[i := x]> l !! j = Some y ->
  (j = i /\ y = x /\ is_Some (l !! i)) \/ (j <> i /\ l !! j = Some y).
Proof.
  intros H. destruct (decide (j = i)) as [->|Hne].
  - left. destruct (l !! i) as [z|] eqn:E.
    + rewrite list_lookup_insert_eq in H by (by eapply lookup_lt_Some).
      injection H as <-. eauto.
    + rewrite list_insert_ge in H by (by apply lookup_ge_None). congruence.
  - right. by rewrite list_lookup_insert_ne in H.
Qed.

(** The session after one replica was replaced by a replica with the same
    client id. *)
Lemma insert_wf_ids σ σ' i n x :
  session_wf σ ->
  nodes σ !! i = Some n ->
  nodes σ' = <[i := x]> (nodes σ) ->
  clientIds σ' = clientIds σ ->
  runtimeClientId (runtime (scheduler x)) = runtimeClientId (runtime (scheduler n)) ->
  (forall n c, n ∈ nodes σ' ->
     runtimeClientId (runtime (scheduler n)) = Some c -> c ∈ clientIds σ') /\
  (forall i j n n' c, nodes σ' !! i = Some n -> nodes σ' !! j = Some n' ->
     runtimeClientId (runtime (scheduler n)) = Some c ->
     runtimeClientId (runtime (scheduler n')) = Some c -> i = j).
Proof.
  intros Hwf Hi Hn Hc Hid. rewrite Hn, Hc.
  assert (Hlook : forall j y, <[i := x]> (nodes σ) !! j = Some y ->
            exists y0, nodes σ !! j = Some y0 /\
              runtimeClientId (runtime (scheduler y)) =
              runtimeClientId (runtime (scheduler y0))).
  { intros j y Hy. apply lookup_insert_cases in Hy as [(-> & -> & _)|(_ & Hy)]; eauto. }
  split.
  - intros y c Hy Hyc. apply list_elem_of_lookup in Hy as [j Hj].
    apply Hlook in Hj as (y0 & Hj & Heq).
    apply (wf_ids σ Hwf y0); [by eapply list_elem_of_lookup_2 | congruence].
  - intros j1 j2 y1 y2 c H1 H2 Hc1 Hc2.
    apply Hlook in H1 as (z1 & H1 & E1). apply Hlook in H2 as (z2 & H2 & E2).
    apply (wf_distinct σ Hwf j1 j2 z1 z2 c); congruence.
Qed.

(** A call of a method of one replica keeps the session well formed. *)
Lemma call_wf σ σ' i (m : M unit) :
  session_wf σ ->
  call i m σ = Some σ' ->
  keeps env_kept m ->
  keeps (unchanged runningTasks) m ->
  (forall n, node_wf σ n ->
     forall k c, (k, Some c) ∈ writes (exec m (set_writes [] (scheduler n))) ->
       truthy c = true) ->
  (forall n, node_wf σ n -> responsive σ n ->
     responsive σ (perform m (sequenceNumber σ) n)) ->
  session_wf σ'.
Proof.
  intros Hwf Hcall Henv Hrun Hval Hresp. unfold call in Hcall.
  destruct (nodes σ !! i) as [n|] eqn:Hi; [|done]. injection Hcall as <-.
  pose proof (proj1 (Forall_lookup _ _) (wf_nodes σ Hwf) i n Hi) as Hn.
  pose proof (proj1 (Forall_lookup _ _) (wf_responsive σ Hwf) i n Hi) as Hr.
  pose proof (proj1 (Forall_lookup _ _) (wf_runs_own σ Hwf) i n Hi) as Ho.
  edestruct (insert_wf_ids σ) as (Hids & Hdist); [done | exact Hi | | | |].
  4:{ split; [exact (wf_versions σ Hwf) | exact (wf_owners σ Hwf)
               | exact Hids | exact Hdist | | |]; cbn.
      - apply Forall_insert.
        + eapply Forall_impl; [exact (wf_nodes σ Hwf)|].
          intros x. by apply node_wf_ext.
        + eapply (node_wf_ext σ); [done..|].
          apply perform_node_wf; [done..|lia|by apply Hval].
      - apply Forall_insert.
        + eapply Forall_impl; [exact (wf_responsive σ Hwf)|].
          intros x. by apply responsive_ext.
        + eapply (responsive_ext σ); [done..|]. by apply Hresp.
      - apply Forall_insert.
        + eapply Forall_impl; [exact (wf_runs_own σ Hwf)|].
          intros x. by apply runs_own_ext.
        + eapply (runs_own_ext σ); [done|]. by apply perform_runs_own. }
  - reflexivity.
  - reflexivity.
  - by destruct (perform_env m (sequenceNumber σ) n Henv) as (-> & _).
Qed.

Lemma pick_wf σ σ' i t w :
  session_wf σ -> step U (EvPick i t w) σ = Some σ' -> session_wf σ'.
Proof.
  intros Hwf Hstep. cbn in Hstep.
  apply (call_wf σ σ' i (pick U t w)); [done..|apply pick_env|apply pick_running| |].
  - intros n Hn k c Hin.
    destruct (pick_exec U t w (set_writes [] (scheduler n))) as (W & HW & Hval & _);
      [apply (wf_attached σ n Hn) | apply (wf_interactive σ n Hn)
      | apply (node_ready' σ n Hn) |].
    rewrite HW in Hin. by apply (Hval k).
  - intros n Hn Hresp Hact key Hneed.
    rewrite (perform_active (pick U t w) _ n (pick_env U t w)) in Hact.
    destruct (pick_exec U t w (set_writes [] (scheduler n))) as (W & HW & _ & Hint);
      [apply (wf_attached σ n Hn) | apply (wf_interactive σ n Hn)
      | apply (node_ready' σ n Hn) |].
    assert (Hold : needs_reaction σ key n = true ->
      exists v stamp, ((key, v), stamp) ∈ outbox (perform (pick U t w) (sequenceNumber σ) n)
                      /\ (version key σ <= stamp)%nat).
    { intros Hneed'. destruct (Hresp Hact key Hneed') as (v & st & Hin & Hlive).
      exists v, st. split; [|done]. unfold perform. cbn. apply elem_of_app. by left. }
    destruct (interested key n) eqn:Hold_int.
    { apply Hold. unfold needs_reaction in *.
      by destruct (map_get key (register σ)) as [[c|]|]. }
    unfold needs_reaction in Hneed, Hold.
    destruct (map_get key (register σ)) as [[c|]|] eqn:Hreg; [by apply Hold | |].
    + destruct (Hint key Hneed) as [Hk|(-> & _ & Hclaim)]; [unfold interested in *; cbn in *; congruence|].
      destruct Hclaim as (c & Hc); [done| |].
      { right. unfold getTaskClientId. cbn. by rewrite (wf_register σ n Hn). }
      exists (Some c), (sequenceNumber σ). split; [|apply (wf_versions σ Hwf)].
      unfold perform. cbn. apply elem_of_app. right.
      apply list_elem_of_fmap. exists (t, Some c). split; [done|].
      rewrite HW. exact Hc.
    + destruct (Hint key Hneed) as [Hk|(-> & _ & Hclaim)]; [unfold interested in *; cbn in *; congruence|].
      destruct Hclaim as (c & Hc); [done| |].
      { left. unfold getTaskClientId. cbn. by rewrite (wf_register σ n Hn). }
      exists (Some c), (sequenceNumber σ). split; [|apply (wf_versions σ Hwf)].
      unfold perform. cbn. apply elem_of_app. right.
      apply list_elem_of_fmap. exists (t, Some c). split; [done|].
      rewrite HW. exact Hc.
Qed.

Lemma release_wf σ σ' i l :
  session_wf σ -> step U (EvRelease i l) σ = Some σ' -> session_wf σ'.
Proof.
  intros Hwf Hstep. cbn in Hstep.
  apply (call_wf σ σ' i (release U l)); [done..|apply release_env|apply release_running| |].
  - intros n Hn k c Hin.
    destruct (release_exec U l (set_writes [] (scheduler n))) as (W & HW & Hval & _).
    rewrite HW in Hin. by specialize (Hval k (Some c) Hin).
  - intros n Hn Hresp. apply perform_responsive; [done|apply release_env|].
    intros k Hk.
    destruct (release_exec U l (set_writes [] (scheduler n))) as (W & _ & _ & Hint).
    by apply Hint.
Qed.

Lemma register_wf σ σ' i l :
  session_wf σ -> step U (EvRegister i l) σ = Some σ' -> session_wf σ'.
Proof.
  intros Hwf Hstep. cbn in Hstep.
  apply (call_wf σ σ' i (AgentScheduler.register l));
    [done..|apply register_env|apply register_running| |].
  - intros n Hn k c Hin.
    destruct (register_exec l (set_writes [] (scheduler n))) as (W & HW & Hval).
    rewrite HW in Hin. by specialize (Hval k (Some c) Hin).
  - intros n Hn Hresp. apply perform_responsive; [done|apply register_env|].
    intros k Hk. unfold interested in *.
    assert (locallyRunnableTasks
              (scheduler (perform (AgentScheduler.register l) (sequenceNumber σ) n)) =
            locallyRunnableTasks (scheduler n)) as Heq
      by apply (register_tasks l (set_writes [] (scheduler n))).
    by rewrite Heq in Hk.
Qed.

(** *** The log accepts a write *)

Lemma version_set_eq σ σ' k seq :
  versions σ' = map_set k seq (versions σ) -> version k σ' = seq.
Proof. intros H. unfold version. by rewrite H, map_get_set_eq. Qed.

Lemma version_set_ne σ σ' k k' seq :
  versions σ' = map_set k seq (versions σ) -> k' <> k -> version k' σ' = version k' σ.
Proof. intros H Hne. unfold version. by rewrite H, map_get_set_ne. Qed.

(** The replica after it heard of the accepted write: its register has the
    value, and its reaction is in its outbox. *)
Lemma accept_perform (k : string) (v : option string) (stamp : nat) (n : Node) σ :
  node_wf σ n ->
  let n' := perform (atomicChanged U k v) stamp n in
  runtime (scheduler n') = runtime (scheduler n) /\
  consensusRegisterCollection (scheduler n') =
    map_set k v (consensusRegisterCollection (scheduler n)) /\
  locallyRunnableTasks (scheduler n') = locallyRunnableTasks (scheduler n) /\
  outbox n' = outbox n ++ map (fun w => (w, stamp)) (reaction k v (scheduler n)) /\
  (forall key, key ∈ runningTasks (scheduler n') ->
     (key ∈ runningTasks (scheduler n) /\ key <> k) \/
     (key = k /\ active n = true /\
      exists c, runtimeClientId (runtime (scheduler n)) = Some c /\ v = Some c)).
Proof.
  intros Hwf n'. subst n'.
  set (s1 := set_consensusRegisterCollection
               (map_set k v (consensusRegisterCollection (scheduler n)))
               (set_writes [] (scheduler n))).
  assert (Hexec : exec (atomicChanged U k v) (set_writes [] (scheduler n)) =
                  exec (on_atomicChanged U k v) s1) by reflexivity.
  assert (Ha1 : attachState (runtime s1) = Attached) by apply (wf_attached σ n Hwf).
  assert (Hid1 : isActive s1 = true ->
    exists c, runtimeClientId (runtime s1) = Some c /\ truthy c = true).
  { intros Hact. destruct (node_ready σ n Hwf Hact) as (c & ? & ? & _). by exists c. }
  assert (Hr : runtime (exec (on_atomicChanged U k v) s1) = runtime s1)
    by apply (on_atomicChanged_env U k v s1).
  assert (Hv : consensusRegisterCollection (exec (on_atomicChanged U k v) s1) =
               consensusRegisterCollection s1)
    by apply (on_atomicChanged_env U k v s1).
  assert (Hl : locallyRunnableTasks (exec (on_atomicChanged U k v) s1) =
               locallyRunnableTasks s1)
    by apply (on_atomicChanged_tasks U k v s1).
  pose proof (on_atomicChanged_writes U k v s1 Ha1 Hid1) as Hw.
  pose proof (on_atomicChanged_running U k v s1 Ha1 Hid1) as Hrun.
  unfold perform. rewrite Hexec. cbn [scheduler outbox].
  split_and!.
  - exact Hr.
  - exact Hv.
  - exact Hl.
  - by rewrite Hw.
  - intros key Hkey. by apply Hrun in Hkey.
Qed.

Lemma reaction_values σ n k v key c :
  node_wf σ n -> (key, Some c) ∈ reaction k v (scheduler n) -> truthy c = true.
Proof.
  intros Hwf. unfold reaction.
  destruct (isActive (scheduler n)) eqn:Hact; [|by intros ?%elem_of_nil].
  destruct (node_ready σ n Hwf Hact) as (c0 & -> & Ht & _).
  destruct v as [c'|].
  - case_bool_decide; [by intros ?%elem_of_nil|].
    destruct (notInQuorum c' (scheduler n)); [|by intros ?%elem_of_nil].
    intros Hin%list_elem_of_singleton. congruence.
  - destruct (map_has k _); [|by intros ?%elem_of_nil].
    intros Hin%list_elem_of_singleton. congruence.
Qed.

Lemma accept_node σ σ' (k : string) (v : option string) (n : Node) :
  node_wf σ n ->
  (active n = true -> forall key, key <> k -> needs_reaction σ key n = true ->
     exists v' stamp, ((key, v'), stamp) ∈ outbox n /\ (version key σ <= stamp)%nat) ->
  runs_own σ n ->
  quorum σ' = quorum σ ->
  register σ' = map_set k v (register σ) ->
  versions σ' = map_set k (S (sequenceNumber σ)) (versions σ) ->
  sequenceNumber σ' = S (sequenceNumber σ) ->
  let n' := perform (atomicChanged U k v) (S (sequenceNumber σ)) n in
  node_wf σ' n' /\ responsive σ' n' /\ runs_own σ' n'.
Proof.
  intros Hwf Hresp Hown Hq Hreg Hver Hseq n'.
  destruct (accept_perform k v (S (sequenceNumber σ)) n σ Hwf)
    as (Hr & Hv & Hl & Ho & Hrun). fold n' in Hr, Hv, Hl, Ho, Hrun.
  assert (Hact' : active n' = active n).
  { unfold active. by apply AgentSchedulerSpec.isActive_runtime. }
  split_and!.
  - destruct Hwf. split; rewrite ?Hr, ?Hq, ?Hv, ?Hreg, ?Hseq; try done.
    + by rewrite wf_register0.
    + rewrite Ho. apply Forall_app. split.
      * eapply Forall_impl; [done|]. cbn. lia.
      * apply Forall_forall. intros w (w' & -> & _)%list_elem_of_fmap. done.
    + rewrite Ho. intros key c st [Hin|Hin]%elem_of_app; [by eapply wf_values0|].
      apply list_elem_of_fmap in Hin as (w' & [= <- ->] & Hw').
      eapply (reaction_values σ n); [by split|done].
  - intros Hact key Hneed. rewrite Hact' in Hact.
    destruct (decide (key = k)) as [->|Hne].
    + exists (match v with Some _ => None
                     | None => runtimeClientId (runtime (scheduler n)) end),
             (S (sequenceNumber σ)).
      split; [|by rewrite (version_set_eq σ σ' k _ Hver)].
      rewrite Ho. apply elem_of_app. right. apply list_elem_of_fmap. eexists.
      split; [reflexivity|].
      unfold needs_reaction in Hneed. rewrite Hreg, map_get_set_eq, Hq in Hneed.
      unfold reaction. unfold active in Hact. rewrite Hact.
      destruct (node_ready σ n Hwf Hact) as (c0 & Hc0 & Ht & Hin). rewrite Hc0.
      destruct v as [c'|].
      * apply negb_true_iff, bool_decide_eq_false in Hneed.
        rewrite bool_decide_false by congruence.
        rewrite (notInQuorum_spec σ n c' Hwf), bool_decide_false by done. cbn.
        apply list_elem_of_here.
      * unfold interested in Hneed. rewrite Hl in Hneed. rewrite Hneed.
        apply list_elem_of_here.
    + destruct (Hresp Hact key Hne) as (v' & st & Hin & Hlive).
      { unfold needs_reaction in *.
        rewrite Hreg, map_get_set_ne, Hq in Hneed by done.
        unfold interested in *. by rewrite Hl in Hneed. }
      exists v', st. split.
      * rewrite Ho. apply elem_of_app. by left.
      * by rewrite (version_set_ne σ σ' k key _ Hver).
  - intros key Hkey. rewrite Hact', Hr, Hreg.
    apply Hrun in Hkey as [(Hkey & Hne)|(-> & Hact & c & Hc & ->)].
    + rewrite map_get_set_ne by done. by apply Hown.
    + split; [done|]. exists c. by rewrite map_get_set_eq.
Qed.

(** The client ids of the replicas stay issued and distinct when every
    replica keeps its place and its client id. *)
Lemma lookup_wf_ids σ σ' :
  session_wf σ ->
  (forall j y, nodes σ' !! j = Some y ->
     exists y0, nodes σ !! j = Some y0 /\
       runtimeClientId (runtime (scheduler y)) =
       runtimeClientId (runtime (scheduler y0))) ->
  (forall c, c ∈ clientIds σ -> c ∈ clientIds σ') ->
  (forall n c, n ∈ nodes σ' ->
     runtimeClientId (runtime (scheduler n)) = Some c -> c ∈ clientIds σ') /\
  (forall i j n n' c, nodes σ' !! i = Some n -> nodes σ' !! j = Some n' ->
     runtimeClientId (runtime (scheduler n)) = Some c ->
     runtimeClientId (runtime (scheduler n')) = Some c -> i = j).
Proof.
  intros Hwf Hlook Hc. split.
  - intros y c Hy Hyc. apply list_elem_of_lookup in Hy as [j Hj].
    apply Hlook in Hj as (y0 & Hj & Heq). apply Hc.
    apply (wf_ids σ Hwf y0); [by eapply list_elem_of_lookup_2 | congruence].
  - intros j1 j2 y1 y2 c H1 H2 Hc1 Hc2.
    apply Hlook in H1 as (z1 & H1 & E1). apply Hlook in H2 as (z2 & H2 & E2).
    apply (wf_distinct σ Hwf j1 j2 z1 z2 c); congruence.
Qed.

Lemma node_wf_pop σ n w rest :
  node_wf σ n -> outbox n = w :: rest ->
  node_wf σ {| scheduler := scheduler n; outbox := rest |}.
Proof.
  intros [] Ho. split; try done; cbn.
  - rewrite Ho in wf_stamps0. by apply Forall_cons in wf_stamps0 as [_ ?].
  - intros key c st Hin. apply (wf_values0 key c st). rewrite Ho.
    by apply list_elem_of_further.
Qed.

Lemma sequence_wf σ σ' i :
  session_wf σ -> step U (EvSequence i) σ = Some σ' -> session_wf σ'.
Proof.
  intros Hwf Hstep. cbn in Hstep. unfold sequence in Hstep.
  destruct (nodes σ !! i) as [n|] eqn:Hi; [|done].
  destruct (active n) eqn:Hact; [|done].
  destruct (outbox n) as [|[[key value] refSeq] rest] eqn:Hout; [done|].
  pose proof (proj1 (Forall_lookup _ _) (wf_nodes σ Hwf) i n Hi) as Hn.
  pose proof (proj1 (Forall_lookup _ _) (wf_responsive σ Hwf) i n Hi) as Hr.
  pose proof (proj1 (Forall_lookup _ _) (wf_runs_own σ Hwf) i n Hi) as Ho.
  pose proof (node_wf_pop σ n _ rest Hn Hout) as Hn0.
  set (n0 := {| scheduler := scheduler n; outbox := rest |}) in *.
  destruct (version key σ <=? refSeq)%nat eqn:Hlive; injection Hstep as <-.
  - (* accepted *)
    apply Nat.leb_le in Hlive.
    assert (Hall : Forall (fun y =>
              node_wf σ y /\
              (active y = true -> forall key', key' <> key ->
                 needs_reaction σ key' y = true ->
                 exists v' stamp, ((key', v'), stamp) ∈ outbox y /\
                                  (version key' σ <= stamp)%nat) /\
              runs_own σ y) (<[i := n0]> (nodes σ))).
    { apply Forall_insert.
      - apply Forall_forall. intros y Hy.
        pose proof (proj1 (Forall_forall _ _) (wf_nodes σ Hwf) y Hy).
        pose proof (proj1 (Forall_forall _ _) (wf_responsive σ Hwf) y Hy) as Hry.
        pose proof (proj1 (Forall_forall _ _) (wf_runs_own σ Hwf) y Hy).
        split_and!; [done| |done]. intros Ha key' _ Hneed. by apply Hry.
      - split_and!; [done| |exact Ho]. intros Ha key' Hne Hneed.
        destruct (Hr Hact key' Hneed) as (v' & st & Hin & Hst).
        rewrite Hout in Hin. apply elem_of_cons in Hin as [[= -> -> ->]|Hin]; [done|].
        by exists v', st. }
    assert (Hall' : Forall (fun y =>
              let y' := perform (atomicChanged U key value) (S (sequenceNumber σ)) y in
              node_wf
                {| sequenceNumber := S (sequenceNumber σ);
                   register := map_set key value (register σ);
                   versions := map_set key (S (sequenceNumber σ)) (versions σ);
                   quorum := quorum σ; clientIds := clientIds σ;
                   nodes := map (perform (atomicChanged U key value) (S (sequenceNumber σ)))
                              (<[i := n0]> (nodes σ)) |} y' /\
              responsive
                {| sequenceNumber := S (sequenceNumber σ);
                   register := map_set key value (register σ);
                   versions := map_set key (S (sequenceNumber σ)) (versions σ);
                   quorum := quorum σ; clientIds := clientIds σ;
                   nodes := map (perform (atomicChanged U key value) (S (sequenceNumber σ)))
                              (<[i := n0]> (nodes σ)) |} y' /\
              runs_own
                {| sequenceNumber := S (sequenceNumber σ);
                   register := map_set key value (register σ);
                   versions := map_set key (S (sequenceNumber σ)) (versions σ);
                   quorum := quorum σ; clientIds := clientIds σ;
                   nodes := map (perform (atomicChanged U key value) (S (sequenceNumber σ)))
                              (<[i := n0]> (nodes σ)) |} y')
              (<[i := n0]> (nodes σ))).
    { eapply Forall_impl; [exact Hall|]. intros y (Hy1 & Hy2 & Hy3).
      by apply (accept_node σ). }
    match goal with |- session_wf ?s => set (σ1 := s) in * end.
    destruct (lookup_wf_ids σ σ1 Hwf) as (Hids & Hdist); [|done|].
    { cbn. intros j y Hy. apply list_lookup_fmap_Some in Hy as (y1 & -> & Hy1).
      pose proof (proj1 (Forall_lookup _ _) Hall j y1 Hy1) as (Hwf1 & _).
      destruct (accept_perform key value (S (sequenceNumber σ)) y1 σ Hwf1) as (-> & _).
      apply lookup_insert_cases in Hy1 as [(-> & -> & _)|(_ & Hy1)]; eauto. }
    split; [| |exact Hids|exact Hdist| | |]; subst σ1; cbn.
    + intros key'. unfold version. cbn [versions].
      destruct (decide (key' = key)) as [->|Hne].
      * by rewrite map_get_set_eq.
      * rewrite map_get_set_ne by done.
        pose proof (wf_versions σ Hwf key') as Hv. unfold version in Hv. lia.
    + intros key' c. destruct (decide (key' = key)) as [->|Hne].
      * rewrite map_get_set_eq. intros [= ->].
        apply (wf_values σ n Hn key c refSeq). rewrite Hout. apply list_elem_of_here.
      * rewrite map_get_set_ne by done. apply (wf_owners σ Hwf).
    + apply Forall_fmap. eapply Forall_impl; [exact Hall'|]. by intros y (? & _).
    + apply Forall_fmap. eapply Forall_impl; [exact Hall'|]. by intros y (_ & ? & _).
    + apply Forall_fmap. eapply Forall_impl; [exact Hall'|]. by intros y (_ & _ & ?).
  - (* rejected *)
    apply Nat.leb_gt in Hlive.
    edestruct (insert_wf_ids σ) as (Hids & Hdist); [done | exact Hi | | | |].
    4:{ split; [| exact (wf_owners σ Hwf) | exact Hids | exact Hdist | | |]; cbn.
      - intros key'. pose proof (wf_versions σ Hwf key'). unfold version in *. cbn. lia.
      - apply Forall_insert.
        + eapply Forall_impl; [exact (wf_nodes σ Hwf)|].
          intros x. apply node_wf_ext; cbn; [done..|lia].
        + eapply (node_wf_ext σ); cbn; [done..|lia|done].
      - apply Forall_insert.
        + eapply Forall_impl; [exact (wf_responsive σ Hwf)|].
          intros x. by apply responsive_ext.
        + eapply (responsive_ext σ); [done..|]. intros Ha key' Hneed.
          destruct (Hr Hact key' Hneed) as (v' & st & Hin & Hst).
          rewrite Hout in Hin. apply elem_of_cons in Hin as [[= -> -> ->]|Hin]; [lia|].
          by exists v', st.
      - apply Forall_insert.
        + eapply Forall_impl; [exact (wf_runs_own σ Hwf)|].
          intros x. by apply runs_own_ext.
        + eapply (runs_own_ext σ); [done|]. exact Ho. }
    + reflexivity.
    + reflexivity.
    + reflexivity.
Qed.

(** *** A replica loads the document *)

Lemma load_new σ :
  load U σ = {| scheduler := new (runtime_loaded (quorum σ)) (register σ);
                outbox := [] |}.
Proof. reflexivity. Qed.

Lemma load_wf σ σ' :
  session_wf σ -> step U EvLoad σ = Some σ' -> session_wf σ'.
Proof.
  intros Hwf Hstep. cbn in Hstep. injection Hstep as <-. rewrite load_new.
  assert (Hlook : forall j y,
    (nodes σ ++ [{| scheduler := new (runtime_loaded (quorum σ)) (register σ);
                    outbox := [] |}]) !! j = Some y ->
    nodes σ !! j = Some y \/ runtimeClientId (runtime (scheduler y)) = None).
  { intros j y Hy. apply lookup_app_Some in Hy as [Hy|(_ & Hy)]; [by left|].
    right. apply list_lookup_singleton_Some in Hy as (_ & <-). done. }
  split; cbn.
  - apply (wf_versions σ Hwf).
  - apply (wf_owners σ Hwf).
  - intros y c Hy Hc. apply list_elem_of_lookup in Hy as [j Hj].
    apply Hlook in Hj as [Hj|Hj]; [|congruence].
    apply (wf_ids σ Hwf y); [by eapply list_elem_of_lookup_2|done].
  - intros j1 j2 y1 y2 c H1 H2 Hc1 Hc2.
    apply Hlook in H1 as [H1|H1]; [|congruence].
    apply Hlook in H2 as [H2|H2]; [|congruence].
    by apply (wf_distinct σ Hwf j1 j2 y1 y2 c).
  - apply Forall_app. split.
    + eapply Forall_impl; [exact (wf_nodes σ Hwf)|]. intros x. by apply node_wf_ext.
    + apply Forall_singleton. split; cbn; try done.
      intros key c st Hin. by apply elem_of_nil in Hin.
  - apply Forall_app. split.
    + eapply Forall_impl; [exact (wf_responsive σ Hwf)|].
      intros x. by apply responsive_ext.
    + apply Forall_singleton. intros Hact. done.
  - apply Forall_app. split.
    + eapply Forall_impl; [exact (wf_runs_own σ Hwf)|].
      intros x. by apply runs_own_ext.
    + apply Forall_singleton. intros key Hkey. by apply elem_of_nil in Hkey.
Qed.

(** *** A replica loses its connection *)

Lemma disconnected_node σ n :
  node_wf σ n ->
  let n' := perform (on_disconnected U) (sequenceNumber σ)
              (with_runtime (set_connected false) n) in
  node_wf σ n' /\ active n' = false /\ runningTasks (scheduler n') = [] /\
  runtimeClientId (runtime (scheduler n')) = runtimeClientId (runtime (scheduler n)).
Proof.
  intros Hwf n'.
  set (n1 := with_runtime (set_connected false) n) in *.
  assert (Hwf1 : node_wf σ n1).
  { destruct Hwf. split; try done. }
  assert (Hact1 : active n1 = false).
  { rewrite (active_connected σ n1 Hwf1). reflexivity. }
  assert (Hexec : on_disconnected U (set_writes [] (scheduler n1)) =
    (Ok tt, set_emitted (emitted (set_writes [] (scheduler n1)) ++
                         map lost (runningTasks (set_writes [] (scheduler n1))))
              (set_runningTasks [] (set_writes [] (scheduler n1))))).
  { unfold on_disconnected. unfold bind at 1. cbn [get].
    rewrite bool_decide_false.
    - apply (AgentSchedulerSpec.clearRunningTasks_inactive U). exact Hact1.
    - cbn. rewrite (wf_attached σ n Hwf). done. }
  split_and!.
  - apply perform_node_wf; [done|apply on_disconnected_env|lia|].
    intros k c. unfold exec. rewrite Hexec. cbn. by intros ?%elem_of_nil.
  - subst n'. rewrite (perform_active _ _ n1 (on_disconnected_env U)). exact Hact1.
  - subst n'. unfold perform, exec. rewrite Hexec. reflexivity.
  - subst n'. by destruct (perform_env (on_disconnected U) (sequenceNumber σ) n1
                             (on_disconnected_env U)) as (-> & _).
Qed.

Lemma disconnect_wf σ σ' i :
  session_wf σ -> step U (EvDisconnect i) σ = Some σ' -> session_wf σ'.
Proof.
  intros Hwf Hstep. cbn in Hstep. unfold disconnect in Hstep.
  destruct (nodes σ !! i) as [n|] eqn:Hi; [|done].
  destruct (connected (runtime (scheduler n))) eqn:Hconn; [|done].
  injection Hstep as <-.
  pose proof (proj1 (Forall_lookup _ _) (wf_nodes σ Hwf) i n Hi) as Hn.
  destruct (disconnected_node σ n Hn) as (Hn' & Hact' & Hrun' & Hid').
  edestruct (insert_wf_ids σ) as (Hids & Hdist); [done | exact Hi | | | |].
  4:{ split; [exact (wf_versions σ Hwf) | exact (wf_owners σ Hwf)
               | exact Hids | exact Hdist | | |]; cbn.
      - apply Forall_insert.
        + eapply Forall_impl; [exact (wf_nodes σ Hwf)|].
          intros x. by apply node_wf_ext.
        + eapply (node_wf_ext σ); [done..|]. exact Hn'.
      - apply Forall_insert.
        + eapply Forall_impl; [exact (wf_responsive σ Hwf)|].
          intros x. by apply responsive_ext.
        + intros Hact. congruence.
      - apply Forall_insert.
        + eapply Forall_impl; [exact (wf_runs_own σ Hwf)|].
          intros x. by apply runs_own_ext.
        + intros key Hkey. rewrite Hrun' in Hkey. by apply elem_of_nil in Hkey. }
  - reflexivity.
  - reflexivity.
  - exact Hid'.
Qed.

(** *** A member leaves the quorum *)

Lemma elem_of_List_filter {A} (f : A -> bool) (l : list A) (x : A) :
  x ∈ List.filter f l <-> x ∈ l /\ f x = true.
Proof. rewrite !list_elem_of_In. apply filter_In. Qed.

Lemma elem_of_remaining (c c' : string) (q : list string) :
  c' ∈ List.filter (fun x => negb (String.eqb x c)) q <-> c' ∈ q /\ c' <> c.
Proof.
  rewrite elem_of_List_filter, negb_true_iff. split; intros (? & H); split; try done.
  - by apply String.eqb_neq in H.
  - by apply String.eqb_neq.
Qed.

Lemma removeMember_writes_values σ n c key c0 :
  node_wf σ n -> (key, Some c0) ∈ removeMember_writes c (scheduler n) ->
  truthy c0 = true.
Proof.
  intros Hwf. unfold removeMember_writes.
  destruct (isActive (scheduler n)) eqn:Hact; [|by intros ?%elem_of_nil].
  destruct (node_ready σ n Hwf Hact) as (c1 & -> & Ht & _).
  intros [Hin|Hin]%elem_of_app.
  - apply list_elem_of_fmap in Hin as (t & [= _ ->] & _). done.
  - by apply list_elem_of_fmap in Hin as (t & [= _] & _).
Qed.

Lemma removeMember_writes_owned σ n c key :
  node_wf σ n -> active n = true ->
  map_get key (register σ) = Some (Some c) ->
  exists v, (key, v) ∈ removeMember_writes c (scheduler n).
Proof.
  intros Hwf Hact Hreg. unfold removeMember_writes. unfold active in Hact. rewrite Hact.
  destruct (node_ready σ n Hwf Hact) as (c1 & -> & _).
  assert (Howned : key ∈ List.filter
            (fun t => bool_decide (getTaskClientId t (scheduler n) = Some (Some c)))
            (map_keys (consensusRegisterCollection (scheduler n)))).
  { apply elem_of_List_filter. unfold getTaskClientId.
    rewrite (wf_register σ n Hwf). split.
    - by eapply map_get_keys.
    - by apply bool_decide_eq_true. }
  destruct (map_has key (locallyRunnableTasks (scheduler n))) eqn:Hint.
  - exists (Some c1). apply elem_of_app. left. apply list_elem_of_fmap.
    exists key. split; [done|]. by apply elem_of_List_filter.
  - exists None. apply elem_of_app. right. apply list_elem_of_fmap.
    exists key. split; [done|]. apply elem_of_List_filter. by rewrite Hint.
Qed.

Lemma leave_node σ σ' (c : string) (n : Node) :
  (forall key, (version key σ <= sequenceNumber σ)%nat) ->
  node_wf σ n -> responsive σ n -> runs_own σ n ->
  connected_as c n = false ->
  quorum σ' = List.filter (fun x => negb (String.eqb x c)) (quorum σ) ->
  register σ' = register σ ->
  versions σ' = versions σ ->
  sequenceNumber σ' = S (sequenceNumber σ) ->
  let n' := perform (on_removeMember U c) (S (sequenceNumber σ))
              (with_runtime (set_quorumMembers (quorum σ')) n) in
  node_wf σ' n' /\ responsive σ' n' /\ runs_own σ' n' /\
  runtimeClientId (runtime (scheduler n')) = runtimeClientId (runtime (scheduler n)).
Proof.
  intros Hver Hwf Hresp Hown Hnot Hq Hreg Hvers Hseq n'.
  set (n1 := with_runtime (set_quorumMembers (quorum σ')) n) in *.
  assert (Hwf1 : node_wf σ' n1).
  { destruct Hwf. split; rewrite ?Hreg, ?Hseq; try done.
    - intros Hc. destruct (wf_clientId0 Hc) as (c0 & Hc0 & Ht & Hin).
      exists c0. split_and!; [done..|]. rewrite Hq. apply elem_of_remaining.
      split; [done|]. intros ->. unfold connected_as in Hnot.
      cbn in Hc, Hc0. rewrite Hc, Hc0, bool_decide_true in Hnot; done.
    - eapply Forall_impl; [done|]. cbn. lia. }
  assert (Hact1 : active n1 = active n) by reflexivity.
  assert (Hw : writes (exec (on_removeMember U c) (set_writes [] (scheduler n1))) =
               removeMember_writes c (scheduler n1)).
  { rewrite on_removeMember_writes.
    - reflexivity.
    - apply (wf_attached σ' n1 Hwf1).
    - apply (wf_routing σ' n1 Hwf1).
    - apply (node_ready' σ' n1 Hwf1). }
  assert (Hact' : active n' = active n).
  { subst n'. by rewrite (perform_active _ _ n1 (on_removeMember_env U c)). }
  split_and!.
  - apply perform_node_wf; [done|apply on_removeMember_env|lia|].
    intros k c0. rewrite Hw. by apply (removeMember_writes_values σ' n1).
  - intros Hact key Hneed. rewrite Hact' in Hact.
    assert (Hint : interested key n' = interested key n).
    { unfold interested. subst n'.
      assert (locallyRunnableTasks
                (scheduler (perform (on_removeMember U c) (S (sequenceNumber σ)) n1)) =
              locallyRunnableTasks (scheduler n1)) as ->
        by apply (on_removeMember_tasks U c (set_writes [] (scheduler n1))).
      reflexivity. }
    assert (Hold : needs_reaction σ key n = true ->
      exists v stamp, ((key, v), stamp) ∈ outbox n' /\ (version key σ' <= stamp)%nat).
    { intros Hneed'. destruct (Hresp Hact key Hneed') as (v & st & Hin & Hlive).
      exists v, st. split.
      - subst n'. unfold perform. cbn. apply elem_of_app. by left.
      - unfold version in *. by rewrite Hvers. }
    unfold needs_reaction in Hneed, Hold. rewrite Hreg, Hint in Hneed.
    destruct (map_get key (register σ)) as [[c'|]|] eqn:Hk; [|by apply Hold..].
    destruct (decide (c' ∈ quorum σ)) as [Hin|Hnin].
    + apply negb_true_iff, bool_decide_eq_false in Hneed.
      rewrite Hq, elem_of_remaining in Hneed.
      assert (c' = c) as -> by (destruct (decide (c' = c)); [done|]; by destruct Hneed).
      destruct (removeMember_writes_owned σ' n1 c key Hwf1) as (v & Hv);
        [done|by rewrite Hreg|].
      exists v, (S (sequenceNumber σ)). split.
      * subst n'. unfold perform. cbn [outbox]. apply elem_of_app. right.
        apply list_elem_of_fmap. exists (key, v). split; [done|]. by rewrite Hw.
      * pose proof (Hver key) as Hle. unfold version in *. rewrite Hvers. lia.
    + apply Hold. by rewrite bool_decide_false.
  - apply perform_runs_own; [|apply on_removeMember_env|apply on_removeMember_running].
    intros key Hkey. rewrite Hreg. by apply Hown.
  - subst n'. by destruct (perform_env (on_removeMember U c) (S (sequenceNumber σ)) n1
                             (on_removeMember_env U c)) as (-> & _).
Qed.

Lemma leave_wf σ σ' c :
  session_wf σ -> step U (EvLeave c) σ = Some σ' -> session_wf σ'.
Proof.
  intros Hwf Hstep. cbn in Hstep. unfold leave in Hstep.
  destruct (bool_decide (c ∈ quorum σ) && negb (existsb (connected_as c) (nodes σ)))
    eqn:Hc; [|done].
  apply andb_true_iff in Hc as (_ & Hc%negb_true_iff).
  assert (Hnot : forall n, n ∈ nodes σ -> connected_as c n = false).
  { intros n Hn. destruct (connected_as c n) eqn:E; [|done].
    assert (existsb (connected_as c) (nodes σ) = true); [|congruence].
    apply existsb_exists. exists n. split; [by apply list_elem_of_In|done]. }
  injection Hstep as <-.
  match goal with |- session_wf ?s => set (σ1 := s) in * end.
  assert (Hall : Forall (fun n =>
            let n' := perform (on_removeMember U c) (S (sequenceNumber σ))
                        (with_runtime (set_quorumMembers (quorum σ1)) n) in
            node_wf σ1 n' /\ responsive σ1 n' /\ runs_own σ1 n' /\
            runtimeClientId (runtime (scheduler n')) =
            runtimeClientId (runtime (scheduler n))) (nodes σ)).
  { apply Forall_forall. intros n Hn.
    apply (leave_node σ σ1 c n); try done.
    - apply (wf_versions σ Hwf).
    - by apply (proj1 (Forall_forall _ _) (wf_nodes σ Hwf)).
    - by apply (proj1 (Forall_forall _ _) (wf_responsive σ Hwf)).
    - by apply (proj1 (Forall_forall _ _) (wf_runs_own σ Hwf)).
    - by apply Hnot. }
  destruct (lookup_wf_ids σ σ1 Hwf) as (Hids & Hdist); [|done|].
  { cbn. intros j y Hy. apply list_lookup_fmap_Some in Hy as (y1 & -> & Hy1).
    exists y1. split; [done|].
    by pose proof (proj1 (Forall_lookup _ _) Hall j y1 Hy1) as (_ & _ & _ & ?). }
  split; [| |exact Hids|exact Hdist| | |].
  - intros key. pose proof (wf_versions σ Hwf key) as Hv.
    unfold version in *. cbn. lia.
  - apply (wf_owners σ Hwf).
  - apply Forall_fmap. eapply Forall_impl; [exact Hall|]. by intros y (? & _).
  - apply Forall_fmap. eapply Forall_impl; [exact Hall|]. by intros y (_ & ? & _).
  - apply Forall_fmap. eapply Forall_impl; [exact Hall|]. by intros y (_ & _ & ? & _).
Qed.

(** *** A replica connects *)

(** A replica that sees another client join. *)
Lemma joined_node σ σ' (c : string) (n : Node) :
  node_wf σ n -> responsive σ n -> runs_own σ n ->
  quorum σ' = quorum σ ++ [c] ->
  register σ' = register σ ->
  versions σ' = versions σ ->
  sequenceNumber σ' = S (sequenceNumber σ) ->
  let n' := with_runtime (set_quorumMembers (quorum σ')) n in
  node_wf σ' n' /\ responsive σ' n' /\ runs_own σ' n'.
Proof.
  intros Hwf Hresp Hown Hq Hreg Hvers Hseq n'. split_and!.
  - destruct Hwf. split; rewrite ?Hreg, ?Hseq; try done.
    + intros Hc. destruct (wf_clientId0 Hc) as (c0 & Hc0 & Ht & Hin).
      exists c0. split_and!; [done..|]. rewrite Hq. apply elem_of_app. by left.
    + eapply Forall_impl; [done|]. cbn. lia.
  - intros Hact key Hneed.
    destruct (Hresp Hact key) as (v & st & Hin & Hlive).
    { unfold needs_reaction in *. rewrite Hreg in Hneed.
      destruct (map_get key (register σ)) as [[c'|]|]; [|done..].
      apply negb_true_iff, bool_decide_eq_false in Hneed.
      rewrite bool_decide_false; [done|]. intros Hin. apply Hneed.
      rewrite Hq. apply elem_of_app. by left. }
    exists v, st. split; [done|]. unfold version in *. by rewrite Hvers.
  - intros key Hkey. rewrite Hreg. by apply Hown.
Qed.

Lemma initializeCore_writes_values σ n key c0 :
  node_wf σ n -> active n = true ->
  (key, Some c0) ∈ initializeCore_writes (scheduler n) -> truthy c0 = true.
Proof.
  intros Hwf Hact. unfold initializeCore_writes.
  destruct (node_ready σ n Hwf Hact) as (c1 & -> & Ht & _).
  intros [Hin|Hin]%elem_of_app.
  - apply list_elem_of_fmap in Hin as (t & [= _ ->] & _). done.
  - by apply list_elem_of_fmap in Hin as (t & [= _] & _).
Qed.

(** The writes of [initializeCore] cover what the replica has to react
    to. *)
Lemma initializeCore_writes_needed σ n key :
  (forall key c, map_get key (register σ) = Some (Some c) -> truthy c = true) ->
  node_wf σ n -> active n = true ->
  needs_reaction σ key n = true ->
  exists v, (key, v) ∈ initializeCore_writes (scheduler n).
Proof.
  intros Howners Hwf Hact Hneed. unfold initializeCore_writes.
  destruct (node_ready σ n Hwf Hact) as (c1 & -> & _).
  unfold needs_reaction in Hneed.
  destruct (map_get key (register σ)) as [[c'|]|] eqn:Hk.
  - exists None. apply elem_of_app. right. apply list_elem_of_fmap.
    exists key. split; [done|]. apply elem_of_List_filter. split.
    + rewrite (wf_register σ n Hwf). by eapply map_get_keys.
    + unfold getTaskClientId. rewrite (wf_register σ n Hwf), Hk.
      rewrite (Howners key c' Hk), (notInQuorum_spec σ n c' Hwf). done.
  - exists (Some c1). apply elem_of_app. left. apply list_elem_of_fmap.
    exists key. split; [done|]. apply elem_of_List_filter. split.
    + by apply map_has_keys.
    + unfold getTaskClientId. by rewrite (wf_register σ n Hwf), Hk.
  - exists (Some c1). apply elem_of_app. left. apply list_elem_of_fmap.
    exists key. split; [done|]. apply elem_of_List_filter. split.
    + by apply map_has_keys.
    + unfold getTaskClientId. by rewrite (wf_register σ n Hwf), Hk.
Qed.

(** The replica that connects. *)
Lemma connected_node σ σ' (c : string) (n : Node) :
  (forall key, (version key σ <= sequenceNumber σ)%nat) ->
  (forall key c, map_get key (register σ) = Some (Some c) -> truthy c = true) ->
  node_wf σ n -> runs_own σ n ->
  connected (runtime (scheduler n)) = false ->
  truthy c = true ->
  quorum σ' = quorum σ ++ [c] ->
  register σ' = register σ ->
  versions σ' = versions σ ->
  sequenceNumber σ' = S (sequenceNumber σ) ->
  let n' :=
    perform (on_connected U) (S (sequenceNumber σ))
      (with_runtime (set_quorumMembers (quorum σ'))
         (with_runtime (fun r =>
            set_deltaManagerActive true
              (set_runtimeClientId (Some c) (set_connected true r))) n)) in
  node_wf σ' n' /\ responsive σ' n' /\ runs_own σ' n' /\
  runtimeClientId (runtime (scheduler n')) = Some c.
Proof.
  intros Hver Howners Hwf Hown Hconn Ht Hq Hreg Hvers Hseq n'.
  set (n2 := with_runtime (set_quorumMembers (quorum σ')) _) in *.
  assert (Hwf2 : node_wf σ' n2).
  { destruct Hwf. split; rewrite ?Hreg, ?Hseq; try done.
    - intros _. exists c. split_and!; [done..|]. rewrite Hq. apply elem_of_app.
      right. apply list_elem_of_here.
    - eapply Forall_impl; [done|]. cbn. lia. }
  assert (Hact2 : active n2 = true).
  { rewrite (active_connected σ' n2 Hwf2). reflexivity. }
  assert (Hw : writes (exec (on_connected U) (set_writes [] (scheduler n2))) =
               initializeCore_writes (scheduler n2)).
  { by rewrite (on_connected_writes U _ c); [reflexivity|apply (wf_attached σ' n2 Hwf2)|..]. }
  split_and!.
  - apply perform_node_wf; [done|apply on_connected_env|lia|].
    intros k c0. rewrite Hw. by apply (initializeCore_writes_values σ' n2).
  - intros Hact key Hneed.
    assert (Hint : interested key n' = interested key n2).
    { unfold interested. subst n'.
      assert (locallyRunnableTasks
                (scheduler (perform (on_connected U) (S (sequenceNumber σ)) n2)) =
              locallyRunnableTasks (scheduler n2)) as ->
        by apply (on_connected_tasks U (set_writes [] (scheduler n2))).
      reflexivity. }
    destruct (initializeCore_writes_needed σ' n2 key) as (v & Hv); [|done..| |].
    { intros key' c'. rewrite Hreg. apply Howners. }
    { unfold needs_reaction in *. by rewrite Hint in Hneed. }
    exists v, (S (sequenceNumber σ)). split.
    + subst n'. unfold perform. cbn [outbox]. apply elem_of_app. right.
      apply list_elem_of_fmap. exists (key, v). split; [done|]. by rewrite Hw.
    + pose proof (Hver key) as Hle. unfold version in *. rewrite Hvers. lia.
  - apply perform_runs_own; [|apply on_connected_env|apply on_connected_running].
    intros key Hkey. destruct (Hown key Hkey) as (Hact & _).
    rewrite (active_connected σ n Hwf) in Hact. congruence.
  - subst n'. by destruct (perform_env (on_connected U) (S (sequenceNumber σ)) n2
                             (on_connected_env U)) as (-> & _).
Qed.

Lemma connect_lookup {A} (f g : A -> A) (i j : nat) (x y : A) (l : list A) :
  alter f i (map g (<[i := x]> l)) !! j = Some y ->
  (j = i /\ y = f (g x) /\ is_Some (l !! i)) \/
  (j <> i /\ exists y0, l !! j = Some y0 /\ y = g y0).
Proof.
  intros H. destruct (decide (j = i)) as [->|Hne].
  - left. rewrite list_lookup_alter in H. case_decide; [|done].
    destruct (map g (<[i := x]> l) !! i) as [z|] eqn:E; [|done].
    injection H as <-. apply list_lookup_fmap_Some in E as (z0 & -> & E).
    apply lookup_insert_cases in E as [(_ & -> & ?)|(? & _)]; done.
  - right. split; [done|]. rewrite list_lookup_alter in H. case_decide; [done|].
    apply list_lookup_fmap_Some in H as (z0 & -> & E).
    apply lookup_insert_cases in E as [(? & _)|(_ & E)]; [done|]. eauto.
Qed.

Lemma connect_wf σ σ' i c :
  session_wf σ -> step U (EvConnect i c) σ = Some σ' -> session_wf σ'.
Proof.
  intros Hwf Hstep. cbn in Hstep. unfold connect in Hstep.
  destruct (nodes σ !! i) as [n|] eqn:Hi; [|done].
  destruct (negb (connected (runtime (scheduler n))) && truthy c
            && negb (bool_decide (c ∈ clientIds σ))) eqn:Hc; [|done].
  apply andb_true_iff in Hc as (Hc & Hfresh%negb_true_iff%bool_decide_eq_false).
  apply andb_true_iff in Hc as (Hconn%negb_true_iff & Ht).
  injection Hstep as <-.
  pose proof (proj1 (Forall_lookup _ _) (wf_nodes σ Hwf) i n Hi) as Hn.
  pose proof (proj1 (Forall_lookup _ _) (wf_runs_own σ Hwf) i n Hi) as Ho.
  match goal with |- session_wf ?s => set (σ1 := s) in * end.
  assert (Hself := connected_node σ σ1 c n (wf_versions σ Hwf) (wf_owners σ Hwf)
                     Hn Ho Hconn Ht eq_refl eq_refl eq_refl eq_refl).
  cbv zeta in Hself. destruct Hself as (Hs1 & Hs2 & Hs3 & Hs4).
  assert (Hother : forall j y0, nodes σ !! j = Some y0 ->
            let y := with_runtime (set_quorumMembers (quorum σ1)) y0 in
            node_wf σ1 y /\ responsive σ1 y /\ runs_own σ1 y).
  { intros j y0 Hj. apply (joined_node σ σ1 c y0); try done.
    - exact (proj1 (Forall_lookup _ _) (wf_nodes σ Hwf) j y0 Hj).
    - exact (proj1 (Forall_lookup _ _) (wf_responsive σ Hwf) j y0 Hj).
    - exact (proj1 (Forall_lookup _ _) (wf_runs_own σ Hwf) j y0 Hj). }
  assert (Hlook : forall j y, nodes σ1 !! j = Some y ->
            (j = i /\ runtimeClientId (runtime (scheduler y)) = Some c /\
             node_wf σ1 y /\ responsive σ1 y /\ runs_own σ1 y) \/
            (j <> i /\ node_wf σ1 y /\ responsive σ1 y /\ runs_own σ1 y /\
             exists y0, nodes σ !! j = Some y0 /\
               runtimeClientId (runtime (scheduler y)) =
               runtimeClientId (runtime (scheduler y0)))).
  { intros j y Hy. cbn in Hy.
    apply connect_lookup in Hy as [(-> & -> & _)|(Hne & y0 & Hj & ->)].
    - left. by split_and!.
    - right. destruct (Hother j y0 Hj) as (? & ? & ?). split_and!; eauto. }
  split.
  - intros key. pose proof (wf_versions σ Hwf key) as Hv.
    unfold version in *. cbn. lia.
  - apply (wf_owners σ Hwf).
  - intros y c0 Hy Hyc. apply list_elem_of_lookup in Hy as [j Hj].
    apply Hlook in Hj as [(_ & Hid & _)|(_ & _ & _ & _ & y0 & Hj & Heq)].
    + assert (c0 = c) as -> by congruence. apply list_elem_of_here.
    + apply list_elem_of_further.
      apply (wf_ids σ Hwf y0); [by eapply list_elem_of_lookup_2 | congruence].
  - intros j1 j2 y1 y2 c0 H1 H2 Hc1 Hc2.
    apply Hlook in H1 as [(-> & Hid1 & _)|(Hne1 & _ & _ & _ & z1 & H1 & E1)];
      apply Hlook in H2 as [(-> & Hid2 & _)|(Hne2 & _ & _ & _ & z2 & H2 & E2)].
    + done.
    + exfalso. apply Hfresh. assert (c0 = c) as -> by congruence.
      apply (wf_ids σ Hwf z2); [by eapply list_elem_of_lookup_2 | congruence].
    + exfalso. apply Hfresh. assert (c0 = c) as -> by congruence.
      apply (wf_ids σ Hwf z1); [by eapply list_elem_of_lookup_2 | congruence].
    + apply (wf_distinct σ Hwf j1 j2 z1 z2 c0); congruence.
  - apply Forall_lookup. intros j y Hy.
    by apply Hlook in Hy as [(_ & _ & ? & _)|(_ & ? & _)].
  - apply Forall_lookup. intros j y Hy.
    by apply Hlook in Hy as [(_ & _ & _ & ? & _)|(_ & _ & ? & _)].
  - apply Forall_lookup. intros j y Hy.
    by apply Hlook in Hy as [(_ & _ & _ & _ & ?)|(_ & _ & _ & ? & _)].
Qed.

(** ** The invariant of the session *)

Lemma step_wf σ σ' ev :
  session_wf σ -> step U ev σ = Some σ' -> session_wf σ'.
Proof.
  destruct ev; intros Hwf Hstep.
  - by eapply pick_wf.
  - by eapply release_wf.
  - by eapply register_wf.
  - by eapply load_wf.
  - by eapply connect_wf.
  - by eapply disconnect_wf.
  - by eapply leave_wf.
  - by eapply sequence_wf.
Qed.

Lemma empty_wf : session_wf empty.
Proof.
  split; cbn; try done.
  - intros n c Hn. by apply elem_of_nil in Hn.
Qed.

Lemma reachable_wf σ : reachable U σ -> session_wf σ.
Proof.
  induction 1 as [|σ ev σ' _ IH Hstep]; [apply empty_wf|by eapply step_wf].
Qed.


End Nodes.

(** ** The number of writes that the log orders in a quiet period *)

Section Rounds.

Variable U : string.















(** *** Who is connected *)




















(** *** A member leaves *)








(** *** The events of the log *)









End Rounds.

(** ** The owners and the pending writes, event by event *)

Section Owners.

Variable U : string.






(** *** What the methods and the listeners write, and for which tasks *)

















(** *** A method is called *)





(** *** A replica loads the document, or loses its connection *)



(** *** A member leaves, a replica connects *)




(** *** The log orders a write *)




(** ** The invariant of the owners *)




(** ** What a quiescent session has converged to *)


End Owners.




(** The concurrent claim of the scenario: whichever claim the log orders
    first is the accepted one, two writes are ordered, and only the owner
    runs the task. *)
Example concurrent_claim_first_accepted :
  let run idxs :=
    option_map
      (fun σ => (quiescent σ, register σ,
                 map (fun n => runningTasks (scheduler n)) (nodes σ)))
      (steps unattached (map EvSequence idxs) session_concurrent_claim) in
  run [0; 1]%nat = Some (true, [("x", Some "A")], [["x"]; []]) /\
  run [1; 0]%nat = Some (true, [("x", Some "B")], [[]; ["x"]]).
Proof. split; vm_compute; reflexivity. Qed.

(** The owner leaves: the interested replica that is left claims the
    task, in one write. *)
Example owner_leaves_reclaimed :
  option_map
    (fun σ => (quiescent σ, register σ, quorum σ,
               map (fun n => runningTasks (scheduler n)) (nodes σ)))
    (steps unattached (owner_leaves ++ [EvSequence 1]) empty) =
  Some (true, [("x", Some "B")], ["B"], [[]; ["x"]]).
Proof. vm_compute; reflexivity. Qed.

(** The owner releases the task and drops: while "B" is a member of the
    quorum the register names it and nobody runs the task, and the session is
    not quiescent, the leave of "B" being due. The log orders the leave and
    the claim by which "A" reacts: "A" owns the task and runs it. *)
Example owner_dropped_reclaimed :
  let view σ :=
    (quiescent σ, register σ, quorum σ,
     map (fun n => runningTasks (scheduler n)) (nodes σ), rounds σ) in
  view session_owner_dropped =
    (false, [("x", Some "B")], ["A"; "B"], [[]; []], 7%nat) /\
  option_map view
    (steps unattached [EvLeave "B"; EvSequence 0] session_owner_dropped) =
    Some (true, [("x", Some "A")], ["A"], [["x"]; []], 0%nat).
Proof. split; vm_compute; reflexivity. Qed.

End SessionSpec.

(* ===================================================================== *)
(** * Properties of the summary manager over its whole life *)
(* ===================================================================== *)

Module LifecycleSpec.
Import SummaryManager Lifecycle.

Section Frames.

Variable cfg : Config.

Lemma start_bookkeeping m : bookkeeping (start cfg m) = bookkeeping m.
Proof.
  unfold start. destruct (negb (summariesEnabled cfg)); [done|].
  case_bool_decide; [done|].
  destruct (Throttler.getDelay _ _ _ _ _) as [d th].
  by destruct (defaultThrottleMaxDelayMs <=? d).
Qed.

Lemma start_election m : election (start cfg m) = election m.
Proof.
  unfold start. destruct (negb (summariesEnabled cfg)); [done|].
  case_bool_decide; [done|].
  destruct (Throttler.getDelay _ _ _ _ _) as [d th].
  by destruct (defaultThrottleMaxDelayMs <=? d).
Qed.

Lemma stop_bookkeeping r m : bookkeeping (stop r m) = bookkeeping m.
Proof. unfold stop. cbn. by destruct (runningSummarizer m). Qed.

Lemma stop_election r m : election (stop r m) = election m.
Proof. unfold stop. cbn. by destruct (runningSummarizer m). Qed.

Lemma run_bookkeeping s m : bookkeeping (run s m) = bookkeeping m.
Proof.
  unfold run. cbv zeta. destruct (getShouldSummarizeState _); [done|].
  by rewrite stop_bookkeeping.
Qed.

Lemma run_election s m : election (run s m) = election m.
Proof.
  unfold run. cbv zeta. destruct (getShouldSummarizeState _); [done|].
  by rewrite stop_election.
Qed.

Lemma tryRestart_bookkeeping m : bookkeeping (tryRestart cfg m) = bookkeeping m.
Proof.
  unfold tryRestart. destruct (getShouldSummarizeState m) as [[]|]; [|done..].
  apply start_bookkeeping.
Qed.

Lemma tryRestart_election m : election (tryRestart cfg m) = election m.
Proof.
  unfold tryRestart. destruct (getShouldSummarizeState m) as [[]|]; [|done..].
  apply start_election.
Qed.

Lemma refreshSummarizer_bookkeeping m :
  bookkeeping (refreshSummarizer cfg m) = bookkeeping m.
Proof.
  unfold refreshSummarizer. cbv zeta.
  match goal with |- context [state ?x] => set (m1 := x) end.
  assert (H1 : bookkeeping m1 = bookkeeping m) by (subst m1; by case_bool_decide).
  destruct (state m1), (getShouldSummarizeState m1) as [[]|];
    by rewrite ?start_bookkeeping, ?stop_bookkeeping.
Qed.

Lemma setClientId_election c m : election (setClientId c m) = election m.
Proof.
  unfold setClientId. destruct c as [c|]; [|done]. cbn.
  by destruct (runningSummarizer m).
Qed.

End Frames.

(** ** One summarizer at a time *)

Section Single.

Variable cfg : Config.

Lemma single_ext m m' :
  state m' = state m -> pendingCreate m' = pendingCreate m ->
  pendingRun m' = pendingRun m -> runningSummarizer m' = runningSummarizer m ->
  single_summarizer m -> single_summarizer m'.
Proof. unfold single_summarizer. by intros -> -> -> ->. Qed.

Lemma start_cases m :
  (state (start cfg m) = Disabled /\ pendingCreate (start cfg m) = pendingCreate m \/
   state (start cfg m) = Starting /\
   exists req, pendingCreate (start cfg m) = pendingCreate m ++ [req]) /\
  pendingRun (start cfg m) = pendingRun m /\
  runningSummarizer (start cfg m) = runningSummarizer m /\
  summarizerCalls (start cfg m) = summarizerCalls m /\
  exists name, telemetry (start cfg m) = telemetry m ++ [name] /\
    (name = "SummariesDisabled" \/ name = "CreatingSummarizer") \/
    telemetry (start cfg m) = telemetry m.
Proof.
  unfold start. destruct (negb (summariesEnabled cfg)).
  { split_and!; [by left|done..|]. exists "SummariesDisabled". left. split; [done|by left]. }
  case_bool_decide.
  { split_and!; [by left|done..|]. exists "". by right. }
  destruct (Throttler.getDelay _ _ _ _ _) as [d th].
  destruct (defaultThrottleMaxDelayMs <=? d).
  - split_and!; [right; split; [done|by eexists]|done..|].
    exists "CreatingSummarizer". left. split; [done|by right].
  - split_and!; [right; split; [done|by eexists]|done..|].
    exists "CreatingSummarizer". left. split; [done|by right].
Qed.

Lemma start_single m :
  pendingCreate m = [] -> pendingRun m = [] -> runningSummarizer m = None ->
  single_summarizer (start cfg m).
Proof.
  intros Hc Hr Hs. destruct (start_cases m) as (Hst & Hr' & Hs' & _).
  unfold single_summarizer. rewrite Hr', Hs', Hr, Hs.
  destruct Hst as [(-> & ->)|(-> & req & ->)]; rewrite Hc; [done|].
  split; [by exists req|done].
Qed.

Lemma stop_single r s m :
  pendingCreate m = [] -> pendingRun m = [s] -> runningSummarizer m = Some s ->
  single_summarizer (stop r m) /\
  telemetry (stop r m) = telemetry m.
Proof.
  intros Hc Hr Hs. unfold stop. cbn. rewrite Hs. split; [|done].
  split; [done|]. by exists s.
Qed.

Lemma run_single s m :
  pendingCreate m = [] -> pendingRun m = [] ->
  single_summarizer (run s m) /\
  telemetry (run s m) = telemetry m ++ ["RunningSummarizer"].
Proof.
  intros Hc Hr. unfold run. cbv zeta.
  match goal with |- context [getShouldSummarizeState ?x] => set (m1 := x) end.
  assert (H1 : pendingCreate m1 = [] /\ pendingRun m1 = [s] /\
               runningSummarizer m1 = Some s /\ state m1 = Running /\
               telemetry m1 = telemetry m ++ ["RunningSummarizer"]).
  { subst m1. cbn. by rewrite Hc, Hr. }
  destruct H1 as (H1 & H2 & H3 & H4 & H5).
  destruct (getShouldSummarizeState m1).
  - split; [|done]. unfold single_summarizer. rewrite H4. split; [done|]. by exists s.
  - destruct (stop_single stopReason s m1 H1 H2 H3) as (? & ->). by split.
Qed.

Lemma tryRestart_single m :
  pendingCreate m = [] -> pendingRun m = [] -> runningSummarizer m = None ->
  single_summarizer (tryRestart cfg m).
Proof.
  intros Hc Hr Hs. unfold tryRestart.
  destruct (getShouldSummarizeState m) as [[]|]; [by apply start_single|..];
    by repeat split.
Qed.

(** [refreshSummarizer] stops a summarizer only where one is running. *)
Lemma refreshSummarizer_single m :
  single_summarizer m ->
  single_summarizer (refreshSummarizer cfg m) /\
  ("StopCalledWithoutRunningSummarizer" ∈ telemetry (refreshSummarizer cfg m) ->
   "StopCalledWithoutRunningSummarizer" ∈ telemetry m).
Proof.
  intros Hm. unfold refreshSummarizer. cbv zeta.
  match goal with |- context [getShouldSummarizeState ?x] => set (m1 := x) end.
  assert (H1 : single_summarizer m1 /\ telemetry m1 = telemetry m).
  { subst m1. by case_bool_decide. }
  destruct H1 as (H1 & Ht). unfold single_summarizer in H1.
  destruct (state m1) eqn:Hst.
  - destruct H1 as (Hc & Hr & Hs).
    destruct (getShouldSummarizeState m1) as [[]|].
    + split; [by apply start_single|].
      unfold start. destruct (negb (summariesEnabled cfg)).
      { cbn. rewrite Ht. intros [?|[=]%list_elem_of_singleton]%elem_of_app. done. }
      case_bool_decide; [cbn; by rewrite Ht|].
      destruct (Throttler.getDelay _ _ _ _ _) as [d th].
      destruct (defaultThrottleMaxDelayMs <=? d); cbn; rewrite Ht;
        by intros [?|[=]%list_elem_of_singleton]%elem_of_app.
    + split; [|by rewrite Ht]. unfold single_summarizer. by rewrite Hst.
    + split; [|by rewrite Ht]. unfold single_summarizer. by rewrite Hst.
  - split; [|by rewrite Ht]. unfold single_summarizer. by rewrite Hst.
  - destruct H1 as (Hc & s & Hr & Hs).
    destruct (getShouldSummarizeState m1) as [[]|r].
    + split; [|by rewrite Ht]. unfold single_summarizer. rewrite Hst. eauto.
    + split; [|by rewrite Ht]. unfold single_summarizer. rewrite Hst. eauto.
    + destruct (stop_single r s m1 Hc Hr Hs) as (? & ->). by rewrite Ht.
  - split; [|by rewrite Ht]. unfold single_summarizer. by rewrite Hst.
  - split; [|by rewrite Ht]. unfold single_summarizer. by rewrite Hst.
Qed.

Lemma start_no_stop m :
  "StopCalledWithoutRunningSummarizer" ∈ telemetry (start cfg m) ->
  "StopCalledWithoutRunningSummarizer" ∈ telemetry m.
Proof.
  destruct (start_cases m) as (_ & _ & _ & _ & name & [(Ht & Hn)|Ht]);
    rewrite Ht; [|done].
  intros [?|Hin%list_elem_of_singleton]%elem_of_app; [done|].
  subst name. by destruct Hn.
Qed.

Lemma tryRestart_no_stop m :
  "StopCalledWithoutRunningSummarizer" ∈ telemetry (tryRestart cfg m) ->
  "StopCalledWithoutRunningSummarizer" ∈ telemetry m.
Proof.
  unfold tryRestart. destruct (getShouldSummarizeState m) as [[]|]; [|done..].
  apply start_no_stop.
Qed.

Lemma setClientId_single c m :
  state (setClientId c m) = state m /\
  pendingCreate (setClientId c m) = pendingCreate m /\
  pendingRun (setClientId c m) = pendingRun m /\
  runningSummarizer (setClientId c m) = runningSummarizer m /\
  telemetry (setClientId c m) = telemetry m.
Proof.
  unfold setClientId. destruct c as [c|]; [|done]. cbn.
  destruct (runningSummarizer m) eqn:E; split_and!; first [done | exact E].
Qed.

Lemma updateConnected_single c cid m :
  single_summarizer m ->
  single_summarizer (updateConnected cfg c cid m) /\
  ("StopCalledWithoutRunningSummarizer" ∈ telemetry (updateConnected cfg c cid m) ->
   "StopCalledWithoutRunningSummarizer" ∈ telemetry m).
Proof.
  intros Hm. unfold updateConnected. case_bool_decide; [done|]. cbv zeta.
  destruct (setClientId_single cid (set_connected c m)) as (H1 & H2 & H3 & H4 & H5).
  destruct (refreshSummarizer_single (setClientId cid (set_connected c m))) as (? & Ht).
  { by apply (single_ext (set_connected c m)); [..|apply (single_ext m)]. }
  split; [done|]. intros Hin%Ht. by rewrite H5 in Hin.
Qed.

(** The promise that settles is the only one that is pending. *)
Lemma single_create m req rest :
  single_summarizer m -> pendingCreate m = req :: rest ->
  rest = [] /\ pendingRun m = [] /\ runningSummarizer m = None.
Proof.
  unfold single_summarizer. intros Hm Hc. rewrite Hc in Hm.
  destruct (state m); destruct Hm as (H1 & H2); try done.
  destruct H1 as (req' & [= _ ->]). by destruct H2.
Qed.

Lemma single_run m s :
  single_summarizer m -> existsb (Nat.eqb s) (pendingRun m) = true ->
  pendingCreate m = [] /\ remove_first s (pendingRun m) = [].
Proof.
  unfold single_summarizer. intros Hm Hs.
  destruct (state m); try (destruct Hm as (_ & Hr & _); by rewrite Hr in Hs).
  - destruct Hm as (Hc & s' & Hr & _). rewrite Hr in Hs |- *. cbn in *.
    rewrite Nat.eqb_sym. by destruct (Nat.eqb s s').
  - destruct Hm as (Hc & s' & Hr & _). rewrite Hr in Hs |- *. cbn in *.
    rewrite Nat.eqb_sym. by destruct (Nat.eqb s s').
Qed.

Lemma dispatch_single ev m m' :
  single_summarizer m -> dispatch cfg ev m = Some m' ->
  single_summarizer m' /\
  ("StopCalledWithoutRunningSummarizer" ∈ telemetry m' ->
   "StopCalledWithoutRunningSummarizer" ∈ telemetry m).
Proof.
  intros Hm Hd. destruct ev; cbn in Hd.
  - injection Hd as <-. by apply updateConnected_single.
  - injection Hd as <-. by apply updateConnected_single.
  - by injection Hd as <-.
  - by injection Hd as <-.
  - destruct (addMemberListener m); injection Hd as <-; [|done].
    unfold opsUntilFirstConnectHandler. by destruct (_ && _).
  - injection Hd as <-. unfold onDefaultOp. cbv zeta.
    destruct (_ && _); [|done]. split; [done|]. cbn.
    by intros [?|[=]%list_elem_of_singleton]%elem_of_app.
  - by injection Hd as <-.
  - injection Hd as <-. unfold onSummarizerChange. cbv zeta.
    destruct (negb _); [|done].
    match goal with |- context [refreshSummarizer cfg ?x] =>
      destruct (refreshSummarizer_single x) as (? & Ht) end; [exact Hm|].
    split; [done|exact Ht].
  - injection Hd as <-. unfold onElectedChange. cbv zeta.
    match goal with |- context [refreshSummarizer cfg ?x] =>
      destruct (refreshSummarizer_single x) as (? & Ht) end;
      [destruct client; exact Hm|].
    split; [done|]. intros Hin%Ht. by destruct client.
  - destruct (pendingCreate m) as [|req rest] eqn:Hc; [done|].
    destruct (single_create m req rest Hm Hc) as (-> & Hr & Hs).
    destruct (createSummarizer_settle response) as [s|]; injection Hd as <-.
    + unfold start_onFulfilled. cbv zeta.
      match goal with |- context [run s ?x] => destruct (run_single s x) as (? & ->) end;
        [done..|].
      split; [done|]. cbn.
      by intros [?|[=]%list_elem_of_singleton]%elem_of_app.
    + unfold start_onRejected. split.
      * by apply tryRestart_single.
      * intros Hin%tryRestart_no_stop. cbn in Hin.
        by apply elem_of_app in Hin as [?|[=]%list_elem_of_singleton].
  - destruct (existsb _ _); [|done]. by injection Hd as <-.
  - destruct (existsb (Nat.eqb s) (pendingRun m)) eqn:Hs; [|done]. injection Hd as <-.
    destruct (single_run m s Hm Hs) as (Hc & Hr). unfold run_finally. split.
    + by apply tryRestart_single.
    + by intros Hin%tryRestart_no_stop.
Qed.

Lemma construct_single c cid oc now :
  single_summarizer (construct cfg c cid oc now) /\
  "StopCalledWithoutRunningSummarizer" ∉ telemetry (construct cfg c cid oc now).
Proof.
  unfold construct. cbv zeta.
  match goal with |- context [refreshSummarizer cfg ?x] =>
    destruct (refreshSummarizer_single x) as (? & Ht) end.
  - destruct c; [|by repeat split].
    eapply single_ext; [apply setClientId_single..|]. by repeat split.
  - split; [done|]. intros Hin%Ht. destruct c.
    + match type of Hin with _ ∈ telemetry (setClientId cid ?x) =>
        destruct (setClientId_single cid x) as (_ & _ & _ & _ & Heq) end.
      rewrite Heq in Hin. by apply elem_of_nil in Hin.
    + by apply elem_of_nil in Hin.
Qed.

Lemma reachable_single m :
  reachable cfg m ->
  single_summarizer m /\ "StopCalledWithoutRunningSummarizer" ∉ telemetry m.
Proof.
  induction 1 as [c cid oc now|m ev m' _ (IH1 & IH2) Hd]; [apply construct_single|].
  destruct (dispatch_single ev m m' IH1 Hd) as (? & Ht). split; [done|].
  intros Hin. by apply IH2, Ht.
Qed.

Lemma life_reachable c cid oc now evs m :
  dispatch_all cfg evs (construct cfg c cid oc now) = Some m -> reachable cfg m.
Proof.
  apply SummaryManagerSpec.reachable_dispatch_all. apply reachable_construct.
Qed.

End Single.

(** X1. However the manager is constructed and whatever events follow, it
    creates or runs at most one summarizer at a time: no promise is pending
    in [Off] and [Disabled]; in [Starting] exactly one creation is pending and
    no summarizer is held; in [Running] and [Stopping] exactly one run is
    pending, of the summarizer that [runningSummarizer] holds. *)
Theorem one_summarizer_at_a_time (cfg : Config) c cid oc now evs (m : Manager) :
  dispatch_all cfg evs (construct cfg c cid oc now) = Some m ->
  single_summarizer m /\
  (length (pendingCreate m) + length (pendingRun m) <= 1)%nat.
Proof.
  intros Hm. destruct (reachable_single cfg m) as (Hs & _); [by eapply life_reachable|].
  split; [done|]. unfold single_summarizer in Hs.
  destruct (state m).
  - destruct Hs as (-> & -> & _). cbn. lia.
  - destruct Hs as ((req & ->) & -> & _). cbn. lia.
  - destruct Hs as (-> & s & -> & _). cbn. lia.
  - destruct Hs as (-> & s & -> & _). cbn. lia.
  - destruct Hs as (-> & -> & _). cbn. lia.
Qed.

Lemma one_summarizer_at_a_time_witness :
  exists m,
    dispatch_all cfg_enabled
      [EvCreateSummarizerSettled (Some response_ok); EvSetDisconnected;
       EvSetConnected "B"]
      (manager_A cfg_enabled) = Some m /\
    state m = Stopping /\ single_summarizer m /\
    (length (pendingCreate m) + length (pendingRun m) <= 1)%nat.
Proof.
  eexists. split; [vm_compute; reflexivity|]. split; [vm_compute; reflexivity|].
  apply (one_summarizer_at_a_time cfg_enabled true (Some "A")
           {| getElectedClient := Some clientA; getSummarizerCount := 0 |} 0
           [EvCreateSummarizerSettled (Some response_ok); EvSetDisconnected;
            EvSetConnected "B"]).
  vm_compute; reflexivity.
Defined.

(** X2. The branch of [stop] that the source marks "Should not be possible
    to hit this case" is never taken: whatever events follow the
    construction, the logger is never sent "StopCalledWithoutRunningSummarizer". *)
Theorem stop_finds_running_summarizer (cfg : Config) c cid oc now evs (m : Manager) :
  dispatch_all cfg evs (construct cfg c cid oc now) = Some m ->
  "StopCalledWithoutRunningSummarizer" ∉ telemetry m.
Proof.
  intros Hm. by destruct (reachable_single cfg m) as (_ & ?); [by eapply life_reachable|].
Qed.

Lemma stop_finds_running_summarizer_witness :
  exists m,
    dispatch_all cfg_enabled
      [EvCreateSummarizerSettled (Some response_ok); EvSetDisconnected]
      (manager_A cfg_enabled) = Some m /\
    summarizerCalls m = [CallRun 1%nat (Some "A"); CallStop 1%nat parentNotConnected] /\
    "StopCalledWithoutRunningSummarizer" ∉ telemetry m.
Proof.
  eexists. split; [vm_compute; reflexivity|]. split; [vm_compute; reflexivity|].
  apply (stop_finds_running_summarizer cfg_enabled true (Some "A")
           {| getElectedClient := Some clientA; getSummarizerCount := 0 |} 0
           [EvCreateSummarizerSettled (Some response_ok); EvSetDisconnected]).
  vm_compute; reflexivity.
Defined.

(** ** The "summarizer" event *)

Section Announced.

Variable cfg : Config.

Lemma changes_only_snoc prev l x :
  changes_only prev (l ++ [x]) =
  changes_only prev l && negb (bool_decide (x = default prev (last l))).
Proof.
  revert prev. induction l as [|y l IH]; intros prev; cbn.
  - by rewrite andb_true_r.
  - rewrite IH, last_cons. rewrite <- andb_assoc. do 2 f_equal.
    by destruct (last l).
Qed.

Lemma announced_ext m m' : election m' = election m -> announced m -> announced m'.
Proof. unfold announced, summarizer, election. by intros [= -> ->]. Qed.

Lemma refreshSummarizer_announced m :
  announced m -> announced (refreshSummarizer cfg m).
Proof.
  intros (Hc & He). unfold refreshSummarizer. cbv zeta.
  match goal with |- context [getShouldSummarizeState ?x] => set (m1 := x) end.
  assert (H1 : announced m1).
  { subst m1. case_bool_decide as Hnew; [done|]. split.
    - cbn. rewrite changes_only_snoc, Hc. cbn.
      rewrite bool_decide_false; [done|]. unfold summarizer in He. by rewrite <- He.
    - unfold summarizer. cbn. by rewrite last_snoc. }
  destruct (state m1), (getShouldSummarizeState m1) as [[]|]; try done;
    eapply announced_ext; try exact H1; apply start_election || apply stop_election.
Qed.

Lemma dispatch_announced ev m m' :
  announced m -> dispatch cfg ev m = Some m' -> announced m'.
Proof.
  intros Hm Hd. destruct ev; cbn in Hd.
  - injection Hd as <-. unfold setConnected, updateConnected.
    case_bool_decide; [done|]. apply refreshSummarizer_announced.
    eapply announced_ext; [apply setClientId_election|done].
  - injection Hd as <-. unfold setDisconnected, updateConnected.
    case_bool_decide; [done|]. apply refreshSummarizer_announced.
    eapply announced_ext; [apply setClientId_election|done].
  - by injection Hd as <-.
  - by injection Hd as <-.
  - destruct (addMemberListener m); injection Hd as <-; [|done].
    unfold opsUntilFirstConnectHandler. by destruct (_ && _).
  - injection Hd as <-. unfold onDefaultOp. cbv zeta. by destruct (_ && _).
  - by injection Hd as <-.
  - injection Hd as <-. unfold onSummarizerChange. cbv zeta.
    destruct (negb _); [|done]. by apply refreshSummarizer_announced.
  - injection Hd as <-. unfold onElectedChange. cbv zeta.
    apply refreshSummarizer_announced. by destruct client.
  - destruct (pendingCreate m) as [|req rest]; [done|].
    destruct (createSummarizer_settle response) as [s|]; injection Hd as <-.
    + eapply announced_ext; [apply run_election|done].
    + eapply announced_ext; [apply tryRestart_election|done].
  - destruct (existsb _ _); [|done]. by injection Hd as <-.
  - destruct (existsb _ _); [|done]. injection Hd as <-.
    eapply announced_ext; [apply tryRestart_election|done].
Qed.

Lemma reachable_announced m : reachable cfg m -> announced m.
Proof.
  induction 1 as [c cid oc now|m ev m' _ IH Hd]; [|by eapply dispatch_announced].
  unfold construct. cbv zeta. apply refreshSummarizer_announced.
  destruct c; [|done]. eapply announced_ext; [apply setClientId_election|done].
Qed.

End Announced.

(** X3. The "summarizer" event is emitted on changes of the elected client
    only: whatever events follow the construction, every emitted id differs
    from the one emitted before it, the first one is not undefined, and
    [summarizer] returns the id emitted last (undefined before the first). *)
Theorem summarizer_event_on_change (cfg : Config) c cid oc now evs (m : Manager) :
  dispatch_all cfg evs (construct cfg c cid oc now) = Some m ->
  changes_only None (emitted m) = true /\
  summarizer m = default None (last (emitted m)).
Proof. intros Hm. apply (reachable_announced cfg). by eapply life_reachable. Qed.

Lemma summarizer_event_on_change_witness :
  exists m,
    dispatch_all cfg_enabled
      [EvElectedChange (Some clientA); EvElectedChange None;
       EvSummarizerChange 1; EvElectedChange None; EvElectedChange (Some clientA)]
      (manager_A cfg_enabled) = Some m /\
    emitted m = [Some "A"; None; Some "A"] /\
    changes_only None (emitted m) = true /\
    summarizer m = default None (last (emitted m)).
Proof.
  eexists. split; [vm_compute; reflexivity|]. split; [vm_compute; reflexivity|].
  apply (summarizer_event_on_change cfg_enabled true (Some "A")
           {| getElectedClient := Some clientA; getSummarizerCount := 0 |} 0
           [EvElectedChange (Some clientA); EvElectedChange None;
            EvSummarizerChange 1; EvElectedChange None;
            EvElectedChange (Some clientA)]).
  vm_compute; reflexivity.
Defined.

(** ** What the lifecycle leaves alone *)

Section Bookkeeping.

Variable cfg : Config.

Lemma setClientId_bookkeeping c m :
  _disposed (setClientId c m) = _disposed m /\
  opsUntilFirstConnect (setClientId c m) = opsUntilFirstConnect m /\
  hasLoggedTelemetry (setClientId c m) = hasLoggedTelemetry m /\
  addMemberListener (setClientId c m) = addMemberListener m /\
  connected (setClientId c m) = connected m /\
  telemetry (setClientId c m) = telemetry m.
Proof.
  unfold setClientId. destruct c as [c|]; [|done]. cbn.
  by destruct (runningSummarizer m).
Qed.

Lemma bookkeeping_fields m m' :
  bookkeeping m' = bookkeeping m ->
  connected m' = connected m /\ clientId m' = clientId m /\
  latestClientId m' = latestClientId m /\ _disposed m' = _disposed m /\
  opsUntilFirstConnect m' = opsUntilFirstConnect m /\
  hasLoggedTelemetry m' = hasLoggedTelemetry m /\
  addMemberListener m' = addMemberListener m /\
  initialDelayTimer m' = initialDelayTimer m.
Proof. unfold bookkeeping. intros [= ? ? ? ? ? ? ? ?]. by split_and!. Qed.

Lemma updateConnected_bookkeeping b cid m :
  connected (updateConnected cfg b cid m) = b /\
  _disposed (updateConnected cfg b cid m) = _disposed m /\
  opsUntilFirstConnect (updateConnected cfg b cid m) = opsUntilFirstConnect m /\
  hasLoggedTelemetry (updateConnected cfg b cid m) = hasLoggedTelemetry m /\
  addMemberListener (updateConnected cfg b cid m) = addMemberListener m.
Proof.
  unfold updateConnected. case_bool_decide; [done|]. cbv zeta.
  destruct (bookkeeping_fields _ _
              (refreshSummarizer_bookkeeping cfg (setClientId cid (set_connected b m))))
    as (-> & _ & _ & -> & -> & -> & -> & _).
  by destruct (setClientId_bookkeeping cid (set_connected b m))
    as (-> & -> & -> & -> & -> & _).
Qed.

(** The fields that no event but the one given changes. *)
Lemma dispatch_bookkeeping ev m m' :
  dispatch cfg ev m = Some m' ->
  (hasLoggedTelemetry m = false -> hasLoggedTelemetry m' = false) /\
  (addMemberListener m = false -> addMemberListener m' = false) /\
  (opsUntilFirstConnect m <> -1 \/ addMemberListener m = false ->
   opsUntilFirstConnect m' = opsUntilFirstConnect m) /\
  (_disposed m = true -> _disposed m' = true).
Proof.
  assert (Hframe : forall x,
    _disposed x = _disposed m -> opsUntilFirstConnect x = opsUntilFirstConnect m ->
    hasLoggedTelemetry x = hasLoggedTelemetry m ->
    addMemberListener x = addMemberListener m ->
    (hasLoggedTelemetry m = false -> hasLoggedTelemetry x = false) /\
    (addMemberListener m = false -> addMemberListener x = false) /\
    (opsUntilFirstConnect m <> -1 \/ addMemberListener m = false ->
     opsUntilFirstConnect x = opsUntilFirstConnect m) /\
    (_disposed m = true -> _disposed x = true)).
  { by intros x -> -> -> ->. }
  assert (Hlife : forall x0 x, bookkeeping x = bookkeeping x0 ->
    _disposed x0 = _disposed m -> opsUntilFirstConnect x0 = opsUntilFirstConnect m ->
    (hasLoggedTelemetry m = false -> hasLoggedTelemetry x0 = false) ->
    addMemberListener x0 = addMemberListener m ->
    (hasLoggedTelemetry m = false -> hasLoggedTelemetry x = false) /\
    (addMemberListener m = false -> addMemberListener x = false) /\
    (opsUntilFirstConnect m <> -1 \/ addMemberListener m = false ->
     opsUntilFirstConnect x = opsUntilFirstConnect m) /\
    (_disposed m = true -> _disposed x = true)).
  { intros x0 x (_ & _ & _ & E1 & E2 & E3 & E4 & _)%bookkeeping_fields E5 E6 E7 E8.
    rewrite E1, E2, E3, E4, E5, E6, E8. by split_and!. }
  intros Hd. destruct ev; cbn in Hd.
  - injection Hd as <-.
    destruct (updateConnected_bookkeeping true (Some clientId0) m) as (_ & ? & ? & ? & ?).
    by apply Hframe.
  - injection Hd as <-.
    destruct (updateConnected_bookkeeping false None m) as (_ & ? & ? & ? & ?).
    by apply Hframe.
  - by injection Hd as <-.
  - by injection Hd as <-.
  - destruct (addMemberListener m) eqn:Hl; injection Hd as <-; [|done].
    unfold opsUntilFirstConnectHandler.
    destruct (opsUntilFirstConnect m =? -1) eqn:Hops; cbn; [|done].
    apply Z.eqb_eq in Hops. destruct (bool_decide _); [|done].
    split_and!; try done. by intros [?|?].
  - injection Hd as <-. unfold onDefaultOp. cbv zeta. by destruct (_ && _).
  - by injection Hd as <-.
  - injection Hd as <-. unfold onSummarizerChange. cbv zeta.
    destruct (negb _); [|done].
    eapply Hlife; [apply refreshSummarizer_bookkeeping|done..].
  - injection Hd as <-. unfold onElectedChange. cbv zeta.
    destruct client; (eapply Hlife; [apply refreshSummarizer_bookkeeping|done..]).
  - destruct (pendingCreate m) as [|req rest]; [done|].
    destruct (createSummarizer_settle response) as [s|]; injection Hd as <-.
    + eapply Hlife; [apply run_bookkeeping|done..].
    + eapply Hlife; [apply tryRestart_bookkeeping|done..].
  - destruct (existsb _ _); [|done]. by injection Hd as <-.
  - destruct (existsb _ _); [|done]. injection Hd as <-.
    eapply Hlife; [apply tryRestart_bookkeeping|done..].
Qed.

Lemma dispatch_all_bookkeeping evs m m' :
  dispatch_all cfg evs m = Some m' ->
  (hasLoggedTelemetry m = false -> hasLoggedTelemetry m' = false) /\
  (opsUntilFirstConnect m <> -1 \/ addMemberListener m = false ->
   opsUntilFirstConnect m' = opsUntilFirstConnect m /\
   (addMemberListener m = false -> addMemberListener m' = false)).
Proof.
  revert m. induction evs as [|ev evs IH]; intros m Hd; cbn in Hd.
  - by injection Hd as <-.
  - destruct (dispatch cfg ev m) as [m1|] eqn:Hev; [|done].
    destruct (dispatch_bookkeeping ev m m1 Hev) as (H1 & H2 & H3 & _).
    destruct (IH m1 Hd) as (IH1 & IH2). split; [by auto|].
    intros Hm. specialize (H3 Hm).
    destruct IH2 as (IH2 & IH3).
    { destruct Hm as [Hm|Hm]; [left; congruence|right; by auto]. }
    split; [congruence|by auto].
Qed.

End Bookkeeping.

Lemma construct_hasLoggedTelemetry cfg c cid oc now :
  hasLoggedTelemetry (construct cfg c cid oc now) = false.
Proof.
  unfold construct. cbv zeta.
  match goal with |- context [refreshSummarizer cfg ?x] =>
    destruct (bookkeeping_fields _ _ (refreshSummarizer_bookkeeping cfg x))
      as (_ & _ & _ & _ & _ & -> & _) end.
  destruct c; [|done].
  match goal with |- context [setClientId cid ?x] =>
    by destruct (setClientId_bookkeeping cid x) as (_ & _ & -> & _) end.
Qed.

(** X4. Nothing ever sets [hasLoggedTelemetry]: it is false in every state
    that follows the construction. So the "default" listener sends
    "ElectedClientNotSummarizing" for every op that comes more than
    [maxOpsSinceLastSummary] after the last summary ack while a client is
    elected, each time. *)
Theorem ElectedClientNotSummarizing_every_op (cfg : Config) c cid oc now evs
    (m : Manager) :
  dispatch_all cfg evs (construct cfg c cid oc now) = Some m ->
  hasLoggedTelemetry m = false /\
  forall n,
    telemetry (onDefaultOp cfg n m) =
    telemetry m ++
      (if (maxOpsSinceLastSummary cfg <? n - lastSummaryAckSeqForClient m)
          && negb (bool_decide (electedClientId m = None))
       then ["ElectedClientNotSummarizing"] else []).
Proof.
  intros Hm.
  destruct (dispatch_all_bookkeeping cfg evs _ m Hm) as (Hl & _).
  specialize (Hl (construct_hasLoggedTelemetry cfg c cid oc now)).
  split; [done|]. intros n. unfold onDefaultOp. cbv zeta. rewrite Hl. cbn.
  rewrite andb_true_r. destruct (_ && _); [done|]. by rewrite app_nil_r.
Qed.

Lemma ElectedClientNotSummarizing_every_op_witness :
  exists m,
    dispatch_all cfg_enabled [EvOp 101; EvOp 102; EvOp 103] (manager_A cfg_enabled)
      = Some m /\
    hasLoggedTelemetry m = false /\
    forall n,
      telemetry (onDefaultOp cfg_enabled n m) =
      telemetry m ++
        (if (maxOpsSinceLastSummary cfg_enabled <? n - lastSummaryAckSeqForClient m)
            && negb (bool_decide (electedClientId m = None))
         then ["ElectedClientNotSummarizing"] else []).
Proof.
  eexists. split; [vm_compute; reflexivity|].
  apply (ElectedClientNotSummarizing_every_op cfg_enabled true (Some "A")
           {| getElectedClient := Some clientA; getSummarizerCount := 0 |} 0
           [EvOp 101; EvOp 102; EvOp 103]).
  vm_compute; reflexivity.
Defined.

(** X5. The number of ops until the first connect is recorded once: when
    the quorum adds the own client id while the value is still -1, the
    listener stores [sequenceNumber - initialSequenceNumber] and is removed,
    and no later event, another "addMember" of the same id included, changes
    the value. *)
Theorem opsUntilFirstConnect_recorded_once (cfg : Config) (m : Manager)
    (c : string) (n : Z) evs (m' : Manager) :
  addMemberListener m = true ->
  opsUntilFirstConnect m = -1 ->
  clientId m = Some c ->
  dispatch_all cfg (EvAddMember c n :: evs) m = Some m' ->
  opsUntilFirstConnect m' = n - initialSequenceNumber cfg /\
  addMemberListener m' = false.
Proof.
  intros Hl Hops Hc Hd. cbn in Hd. rewrite Hl in Hd.
  unfold opsUntilFirstConnectHandler in Hd.
  rewrite Hops, Hc, bool_decide_true in Hd by done. cbn in Hd.
  destruct (dispatch_all_bookkeeping cfg evs _ m' Hd) as (_ & H).
  destruct H as (-> & H); [by right|]. split; [done|]. by apply H.
Qed.

Lemma opsUntilFirstConnect_recorded_once_witness :
  exists m',
    dispatch_all cfg_enabled
      [EvAddMember "A" 5000; EvAddMember "A" 7000; EvSetDisconnected;
       EvSetConnected "A"; EvAddMember "A" 9000]
      manager_not_elected = Some m' /\
    opsUntilFirstConnect m' = 5000 - initialSequenceNumber cfg_enabled /\
    addMemberListener m' = false.
Proof.
  eexists. split; [vm_compute; reflexivity|].
  apply (opsUntilFirstConnect_recorded_once cfg_enabled manager_not_elected "A" 5000
           [EvAddMember "A" 7000; EvSetDisconnected; EvSetConnected "A";
            EvAddMember "A" 9000]);
    vm_compute; reflexivity.
Defined.

(** X8. [setConnected] on a manager that is connected and [setDisconnected]
    on one that is not change nothing: a second [setConnected], also with
    another client id, leaves the manager acting for the first id. *)
Theorem setConnected_twice (cfg : Config) (m : Manager) (c1 c2 : string) :
  setConnected cfg c2 (setConnected cfg c1 m) = setConnected cfg c1 m /\
  setDisconnected cfg (setDisconnected cfg m) = setDisconnected cfg m /\
  (connected m = false ->
   clientId (setConnected cfg c2 (setConnected cfg c1 m)) = Some c1).
Proof.
  assert (H1 : setConnected cfg c2 (setConnected cfg c1 m) = setConnected cfg c1 m).
  { unfold setConnected at 1. unfold updateConnected at 1.
    destruct (updateConnected_bookkeeping cfg true (Some c1) m) as (Hc & _).
    unfold setConnected. by rewrite bool_decide_true. }
  split; [done|]. split.
  - unfold setDisconnected at 1. unfold updateConnected at 1.
    destruct (updateConnected_bookkeeping cfg false None m) as (Hc & _).
    unfold setDisconnected. by rewrite bool_decide_true.
  - intros Hm. rewrite H1. unfold setConnected, updateConnected.
    rewrite bool_decide_false by (by rewrite Hm). cbv zeta.
    match goal with |- context [refreshSummarizer cfg ?x] =>
      destruct (bookkeeping_fields _ _ (refreshSummarizer_bookkeeping cfg x))
        as (_ & -> & _) end.
    unfold setClientId. cbn. by destruct (runningSummarizer m).
Qed.

Lemma setConnected_twice_witness :
  connected (setDisconnected cfg_enabled (manager_A cfg_enabled)) = false /\
  clientId (setConnected cfg_enabled "C"
              (setConnected cfg_enabled "B"
                 (setDisconnected cfg_enabled (manager_A cfg_enabled)))) = Some "B".
Proof.
  split; [vm_compute; reflexivity|].
  apply (setConnected_twice cfg_enabled
           (setDisconnected cfg_enabled (manager_A cfg_enabled)) "B" "C").
  vm_compute; reflexivity.
Defined.

(** ** After disposal *)

Section Disposed.

Variable cfg : Config.

Lemma creations_same m m' : telemetry m' = telemetry m -> creations m' = creations m.
Proof. unfold creations. by intros ->. Qed.

Lemma creations_log m m' name :
  telemetry m' = telemetry m ++ [name] -> name <> "CreatingSummarizer" ->
  creations m' = creations m.
Proof.
  unfold creations. intros -> Hn. rewrite List.filter_app, length_app.
  assert (E : String.eqb "CreatingSummarizer" name = false)
    by (apply String.eqb_neq; congruence).
  cbn [List.filter]. rewrite E. cbn [length]. lia.
Qed.

Lemma stop_creations r m : creations (stop r m) = creations m.
Proof.
  unfold stop. cbn. destruct (runningSummarizer m).
  - by apply creations_same.
  - by apply (creations_log _ _ "StopCalledWithoutRunningSummarizer").
Qed.

Lemma tryRestart_disposed_creations m :
  _disposed m = true -> creations (tryRestart cfg m) = creations m.
Proof.
  intros Hd. unfold tryRestart.
  destruct (SummaryManagerSpec.disposed_shouldNotSummarize m Hd) as (r & ->).
  by apply creations_same.
Qed.

Lemma run_creations s m : creations (run s m) = creations m.
Proof.
  unfold run. cbv zeta.
  match goal with |- context [getShouldSummarizeState ?x] => set (m1 := x) end.
  assert (H1 : creations m1 = creations m)
    by (by apply (creations_log _ _ "RunningSummarizer")).
  destruct (getShouldSummarizeState m1); [done|]. by rewrite stop_creations.
Qed.

Lemma refreshSummarizer_disposed_creations m :
  _disposed m = true -> creations (refreshSummarizer cfg m) = creations m.
Proof.
  intros Hd. unfold refreshSummarizer. cbv zeta.
  match goal with |- context [getShouldSummarizeState ?x] => set (m1 := x) end.
  assert (H1 : creations m1 = creations m /\ _disposed m1 = true)
    by (subst m1; by case_bool_decide).
  destruct H1 as (H1 & H2).
  destruct (SummaryManagerSpec.disposed_shouldNotSummarize m1 H2) as (r & ->).
  destruct (state m1); try done. by rewrite stop_creations.
Qed.

Lemma dispatch_disposed_creations ev m m' :
  _disposed m = true -> dispatch cfg ev m = Some m' -> creations m' = creations m.
Proof.
  intros Hm Hd.
  assert (Hupd : forall b cid,
            creations (updateConnected cfg b cid m) = creations m).
  { intros b cid. unfold updateConnected. case_bool_decide; [done|]. cbv zeta.
    destruct (setClientId_bookkeeping cid (set_connected b m))
      as (Hd' & _ & _ & _ & _ & Ht).
    rewrite refreshSummarizer_disposed_creations by (by rewrite Hd').
    by apply creations_same. }
  destruct ev; cbn in Hd.
  - injection Hd as <-. apply Hupd.
  - injection Hd as <-. apply Hupd.
  - by injection Hd as <-.
  - by injection Hd as <-.
  - destruct (addMemberListener m); injection Hd as <-; [|done].
    unfold opsUntilFirstConnectHandler. by destruct (_ && _).
  - injection Hd as <-. unfold onDefaultOp. cbv zeta. destruct (_ && _); [|done].
    by apply (creations_log _ _ "ElectedClientNotSummarizing").
  - by injection Hd as <-.
  - injection Hd as <-. unfold onSummarizerChange. cbv zeta.
    destruct (negb _); [|done]. by rewrite refreshSummarizer_disposed_creations.
  - injection Hd as <-. unfold onElectedChange. cbv zeta.
    rewrite refreshSummarizer_disposed_creations; by destruct client.
  - destruct (pendingCreate m) as [|req rest]; [done|].
    destruct (createSummarizer_settle response) as [s|]; injection Hd as <-.
    + unfold start_onFulfilled. cbv zeta. by rewrite run_creations.
    + unfold start_onRejected. rewrite tryRestart_disposed_creations by done.
      by apply (creations_log _ _ "CreateSummarizerError").
  - destruct (existsb _ _); [|done]. by injection Hd as <-.
  - destruct (existsb _ _); [|done]. injection Hd as <-.
    unfold run_finally. by rewrite tryRestart_disposed_creations.
Qed.

Lemma dispatch_all_disposed_creations evs m m' :
  _disposed m = true -> dispatch_all cfg evs m = Some m' ->
  creations m' = creations m /\ _disposed m' = true.
Proof.
  revert m. induction evs as [|ev evs IH]; intros m Hm Hd; cbn in Hd.
  - by injection Hd as <-.
  - destruct (dispatch cfg ev m) as [m1|] eqn:Hev; [|done].
    destruct (dispatch_bookkeeping cfg ev m m1 Hev) as (_ & _ & _ & Hdis).
    destruct (IH m1 (Hdis Hm) Hd) as (-> & ?). split; [|done].
    by eapply dispatch_disposed_creations.
Qed.

End Disposed.

(** X7. After [dispose], [createSummarizer] is never called again: a
    creation that is under way may still be answered and its summarizer run
    and stopped, but whatever events follow, no further "CreatingSummarizer"
    is logged, and the manager stays disposed. *)
Theorem no_creation_after_dispose (cfg : Config) (m : Manager) evs (m' : Manager) :
  dispatch_all cfg evs (dispose m) = Some m' ->
  creations m' = creations m /\ _disposed m' = true.
Proof.
  intros Hd. by apply (dispatch_all_disposed_creations cfg evs (dispose m) m').
Qed.

Lemma no_creation_after_dispose_witness :
  exists m',
    dispatch_all cfg_enabled
      [EvCreateSummarizerSettled None; EvSetDisconnected; EvSetConnected "A";
       EvElectedChange (Some clientA)]
      (dispose (manager_A cfg_enabled)) = Some m' /\
    creations (manager_A cfg_enabled) = 1%nat /\
    creations m' = creations (manager_A cfg_enabled) /\ _disposed m' = true.
Proof.
  eexists. split; [vm_compute; reflexivity|]. split; [vm_compute; reflexivity|].
  apply (no_creation_after_dispose cfg_enabled (manager_A cfg_enabled)
           [EvCreateSummarizerSettled None; EvSetDisconnected; EvSetConnected "A";
            EvElectedChange (Some clientA)]).
  vm_compute; reflexivity.
Defined.

(** ** The client id on whose behalf the summarizer runs *)

Section ClientId.

Variable cfg : Config.

Lemma knows_ext m m' :
  connected m' = connected m -> clientId m' = clientId m ->
  latestClientId m' = latestClientId m -> pendingCreate m' = pendingCreate m ->
  summarizerCalls m' = summarizerCalls m ->
  knows_clientId m -> knows_clientId m'.
Proof. unfold knows_clientId. by intros -> -> -> -> ->. Qed.

Lemma start_knows m :
  knows_clientId m -> latestClientId m <> None -> knows_clientId (start cfg m).
Proof.
  intros (H1 & H2 & H3 & H4) Hl.
  destruct (bookkeeping_fields _ _ (start_bookkeeping cfg m)) as (E1 & E2 & E3 & _).
  destruct (start_cases cfg m) as (_ & _ & _ & E4 & _).
  unfold knows_clientId. rewrite E1, E2, E3, E4. by split_and!.
Qed.

Lemma stop_knows r m : knows_clientId m -> knows_clientId (stop r m).
Proof.
  intros (H1 & H2 & H3 & H4).
  destruct (bookkeeping_fields _ _ (stop_bookkeeping r m)) as (E1 & E2 & E3 & _).
  destruct (SummaryManagerSpec.stop_state r m) as (_ & E4 & _).
  unfold knows_clientId. rewrite E1, E2, E3, E4. split_and!; [done..|].
  intros s. unfold stop. cbn. destruct (runningSummarizer m); cbn; [|done].
  intros [?|[=]%list_elem_of_singleton]%elem_of_app. by eapply H4.
Qed.

Lemma should_knows m :
  knows_clientId m -> getShouldSummarizeState m = ShouldSummarize true ->
  latestClientId m <> None.
Proof.
  intros (H1 & H2 & _) Hs. apply H2, H1.
  apply (SummaryManagerSpec.getShouldSummarizeState_true m). by rewrite Hs.
Qed.

Lemma tryRestart_knows m : knows_clientId m -> knows_clientId (tryRestart cfg m).
Proof.
  intros Hm. unfold tryRestart.
  destruct (getShouldSummarizeState m) as [[]|] eqn:Hs; [|done..].
  apply start_knows; [done|by apply should_knows].
Qed.

Lemma run_knows s m :
  knows_clientId m -> latestClientId m <> None -> knows_clientId (run s m).
Proof.
  intros (H1 & H2 & H3 & H4) Hl. unfold run. cbv zeta.
  match goal with |- context [getShouldSummarizeState ?x] => set (m1 := x) end.
  assert (Hm1 : knows_clientId m1).
  { subst m1. split_and!; [done..|]. intros s'. cbn.
    intros [?|Hin%list_elem_of_singleton]%elem_of_app; [by eapply H4|].
    injection Hin as _ Hn. apply Hl. symmetry. exact Hn. }
  destruct (getShouldSummarizeState m1); [done|]. by apply stop_knows.
Qed.

Lemma refreshSummarizer_knows m :
  knows_clientId m -> knows_clientId (refreshSummarizer cfg m).
Proof.
  intros Hm. unfold refreshSummarizer. cbv zeta.
  match goal with |- context [getShouldSummarizeState ?x] => set (m1 := x) end.
  assert (Hm1 : knows_clientId m1) by (subst m1; by case_bool_decide).
  destruct (state m1), (getShouldSummarizeState m1) as [[]|] eqn:Hs; try done.
  - apply start_knows; [done|by apply should_knows].
  - by apply stop_knows.
Qed.

Lemma updateConnected_knows b cid m :
  (b = true -> cid <> None) ->
  knows_clientId m -> knows_clientId (updateConnected cfg b cid m).
Proof.
  intros Hb (H1 & H2 & H3 & H4). unfold updateConnected.
  case_bool_decide; [done|]. cbv zeta. apply refreshSummarizer_knows.
  unfold setClientId. destruct cid as [c|].
  - cbn. destruct (runningSummarizer m); (split_and!; [done..|]); [|done].
    intros s'. cbn. intros [?|[=]%list_elem_of_singleton]%elem_of_app. by eapply H4.
  - destruct b; [by destruct Hb|]. by split_and!.
Qed.

Lemma dispatch_knows ev m m' :
  knows_clientId m -> dispatch cfg ev m = Some m' -> knows_clientId m'.
Proof.
  intros Hm Hd. destruct ev; cbn in Hd.
  - injection Hd as <-. by apply updateConnected_knows.
  - injection Hd as <-. by apply updateConnected_knows.
  - by injection Hd as <-.
  - by injection Hd as <-.
  - destruct (addMemberListener m); injection Hd as <-; [|done].
    unfold opsUntilFirstConnectHandler. by destruct (_ && _).
  - injection Hd as <-. unfold onDefaultOp. cbv zeta. by destruct (_ && _).
  - by injection Hd as <-.
  - injection Hd as <-. unfold onSummarizerChange. cbv zeta.
    destruct (negb _); [|done]. by apply refreshSummarizer_knows.
  - injection Hd as <-. unfold onElectedChange. cbv zeta.
    apply refreshSummarizer_knows. by destruct client.
  - destruct (pendingCreate m) as [|req rest] eqn:Hc; [done|].
    assert (Hl : latestClientId m <> None).
    { destruct Hm as (_ & _ & H3 & _). apply H3. by rewrite Hc. }
    assert (Hm1 : knows_clientId (set_pendingCreate rest m)).
    { destruct Hm as (H1 & H2 & H3 & H4). by split_and!. }
    destruct (createSummarizer_settle response) as [s|]; injection Hd as <-.
    + unfold start_onFulfilled. cbv zeta. by apply run_knows.
    + unfold start_onRejected. by apply tryRestart_knows.
  - destruct (existsb _ _); [|done]. by injection Hd as <-.
  - destruct (existsb _ _); [|done]. injection Hd as <-.
    unfold run_finally. apply tryRestart_knows.
    destruct Hm as (H1 & H2 & H3 & H4). by split_and!.
Qed.

Lemma construct_knows c cid oc now :
  (c = true -> cid <> None) -> knows_clientId (construct cfg c cid oc now).
Proof.
  intros Hc. unfold construct. cbv zeta. apply refreshSummarizer_knows.
  destruct c.
  - destruct cid as [id|]; [|by destruct Hc]. cbn.
    split_and!; try done. intros s Hin. by apply elem_of_nil in Hin.
  - split_and!; try done. intros s Hin. by apply elem_of_nil in Hin.
Qed.

Lemma dispatch_all_knows evs m m' :
  knows_clientId m -> dispatch_all cfg evs m = Some m' -> knows_clientId m'.
Proof.
  revert m. induction evs as [|ev evs IH]; intros m Hm Hd; cbn in Hd.
  - by injection Hd as <-.
  - destruct (dispatch cfg ev m) as [m1|] eqn:Hev; [|done].
    eapply IH; [|done]. by eapply dispatch_knows.
Qed.

End ClientId.

(** X6. The non-null assertion on [latestClientId] in [run] holds: when
    the context that is connected at construction has a client id, then
    whatever events follow, every call of [summarizer.run] passes a defined
    client id. *)
Theorem run_on_behalf_of_defined (cfg : Config) c cid oc now evs (m : Manager) :
  (c = true -> cid <> None) ->
  dispatch_all cfg evs (construct cfg c cid oc now) = Some m ->
  forall s onBehalfOf,
    CallRun s onBehalfOf ∈ summarizerCalls m -> onBehalfOf <> None.
Proof.
  intros Hc Hd s o Hin ->.
  destruct (dispatch_all_knows cfg evs _ m (construct_knows cfg c cid oc now Hc) Hd)
    as (_ & _ & _ & H4).
  by eapply H4.
Qed.

Lemma run_on_behalf_of_defined_witness :
  exists m,
    dispatch_all cfg_enabled
      [EvSetDisconnected; EvCreateSummarizerSettled (Some response_ok)]
      (manager_A cfg_enabled) = Some m /\
    summarizerCalls m = [CallRun 1%nat (Some "A"); CallStop 1%nat parentNotConnected] /\
    forall s onBehalfOf,
      CallRun s onBehalfOf ∈ summarizerCalls m -> onBehalfOf <> None.
Proof.
  eexists. split; [vm_compute; reflexivity|]. split; [vm_compute; reflexivity|].
  apply (run_on_behalf_of_defined cfg_enabled true (Some "A")
           {| getElectedClient := Some clientA; getSummarizerCount := 0 |} 0
           [EvSetDisconnected; EvCreateSummarizerSettled (Some response_ok)]).
  - done.
  - vm_compute; reflexivity.
Defined.

(** ** The transitions of the lifecycle state *)

Section Traced.

Variable cfg : Config.

Lemma follows_snoc prev l x :
  follows prev (l ++ [x]) = follows prev l && allowed (default prev (last l)) x.
Proof.
  revert prev. induction l as [|y l IH]; intros prev; cbn.
  - by rewrite andb_true_r.
  - rewrite IH, last_cons, <- andb_assoc. do 2 f_equal. by destruct (last l).
Qed.

Lemma traced_ext m m' :
  state m' = state m -> stateTrace m' = stateTrace m -> traced m -> traced m'.
Proof. unfold traced. by intros -> ->. Qed.

Lemma assign_traced s m :
  traced m -> allowed (state m) s = true -> traced (assign_state s m).
Proof.
  intros (Hf & Hs) Ha. unfold traced, assign_state. cbn. split.
  - by rewrite follows_snoc, Hf, <- Hs, Ha.
  - by rewrite last_snoc.
Qed.

Lemma allowed_start a :
  a <> Disabled -> allowed a Starting = true /\ allowed a Disabled = true.
Proof. by destruct a. Qed.

Lemma start_traced m : traced m -> state m <> Disabled -> traced (start cfg m).
Proof.
  intros Hm Hs. destruct (allowed_start (state m) Hs) as (H1 & H2). unfold start.
  destruct (negb (summariesEnabled cfg)).
  { apply assign_traced; [|done]. by apply (traced_ext m). }
  case_bool_decide; [by apply assign_traced|].
  destruct (Throttler.getDelay _ _ _ _ _) as [d th].
  destruct (defaultThrottleMaxDelayMs <=? d);
    (eapply traced_ext; [| |apply (assign_traced Starting m Hm H1)]; done).
Qed.

Lemma stop_traced r m : traced m -> state m = Running -> traced (stop r m).
Proof.
  intros Hm Hs. unfold stop. cbv zeta.
  assert (H1 : traced (assign_state Stopping m))
    by (apply assign_traced; [done|by rewrite Hs]).
  destruct (runningSummarizer (assign_state Stopping m)).
  - by apply (traced_ext (assign_state Stopping m)).
  - apply assign_traced; [|done]. by apply (traced_ext (assign_state Stopping m)).
Qed.

Lemma run_traced s m : traced m -> state m = Starting -> traced (run s m).
Proof.
  intros Hm Hs. unfold run. cbv zeta.
  match goal with |- context [getShouldSummarizeState ?x] => set (m1 := x) end.
  assert (H1 : traced m1 /\ state m1 = Running).
  { split; [|done]. apply (traced_ext (assign_state Running m)); [done..|].
    apply assign_traced; [done|by rewrite Hs]. }
  destruct H1 as (H1 & H2).
  destruct (getShouldSummarizeState m1); [done|]. by apply stop_traced.
Qed.

Lemma tryRestart_traced m :
  traced m -> state m = Starting \/ state m = Running \/ state m = Stopping ->
  traced (tryRestart cfg m).
Proof.
  intros Hm Hs. unfold tryRestart.
  destruct (getShouldSummarizeState m) as [[]|].
  - apply start_traced; [done|]. by destruct Hs as [->|[->| ->]].
  - apply assign_traced; [done|]. by destruct Hs as [->|[->| ->]].
  - apply assign_traced; [done|]. by destruct Hs as [->|[->| ->]].
Qed.

Lemma refreshSummarizer_traced m : traced m -> traced (refreshSummarizer cfg m).
Proof.
  intros Hm. unfold refreshSummarizer. cbv zeta.
  match goal with |- context [getShouldSummarizeState ?x] => set (m1 := x) end.
  assert (H1 : traced m1) by (subst m1; by case_bool_decide).
  destruct (state m1) eqn:Hs, (getShouldSummarizeState m1) as [[]|]; try done.
  - apply start_traced; [done|by rewrite Hs].
  - by apply stop_traced.
Qed.

Lemma updateConnected_traced b cid m :
  traced m -> traced (updateConnected cfg b cid m).
Proof.
  intros Hm. unfold updateConnected. case_bool_decide; [done|]. cbv zeta.
  apply refreshSummarizer_traced.
  destruct (SummaryManagerSpec.setClientId_frame cid (set_connected b m))
    as (H1 & H2 & _).
  by apply (traced_ext m); [rewrite H1|rewrite H2|].
Qed.

Lemma single_Starting m req rest :
  single_summarizer m -> pendingCreate m = req :: rest -> state m = Starting.
Proof.
  unfold single_summarizer. intros Hm Hc. rewrite Hc in Hm.
  by destruct (state m); destruct Hm as (H1 & H2).
Qed.

Lemma single_Running m s :
  single_summarizer m -> existsb (Nat.eqb s) (pendingRun m) = true ->
  state m = Running \/ state m = Stopping.
Proof.
  unfold single_summarizer. intros Hm Hs.
  destruct (state m); try (destruct Hm as (_ & Hr & _); by rewrite Hr in Hs); auto.
Qed.

Lemma dispatch_traced ev m m' :
  single_summarizer m -> traced m -> dispatch cfg ev m = Some m' -> traced m'.
Proof.
  intros Hsingle Hm Hd. destruct ev; cbn in Hd.
  - injection Hd as <-. by apply updateConnected_traced.
  - injection Hd as <-. by apply updateConnected_traced.
  - by injection Hd as <-.
  - by injection Hd as <-.
  - destruct (addMemberListener m); injection Hd as <-; [|done].
    unfold opsUntilFirstConnectHandler. by destruct (_ && _).
  - injection Hd as <-. unfold onDefaultOp. cbv zeta. by destruct (_ && _).
  - by injection Hd as <-.
  - injection Hd as <-. unfold onSummarizerChange. cbv zeta.
    destruct (negb _); [|done]. by apply refreshSummarizer_traced.
  - injection Hd as <-. unfold onElectedChange. cbv zeta.
    apply refreshSummarizer_traced. by destruct client.
  - destruct (pendingCreate m) as [|req rest] eqn:Hc; [done|].
    pose proof (single_Starting m req rest Hsingle Hc) as Hs.
    destruct (createSummarizer_settle response) as [s|]; injection Hd as <-.
    + unfold start_onFulfilled. cbv zeta. by apply run_traced.
    + unfold start_onRejected. apply tryRestart_traced; [done|by left].
  - destruct (existsb _ _); [|done]. by injection Hd as <-.
  - destruct (existsb (Nat.eqb s) (pendingRun m)) eqn:Hs; [|done]. injection Hd as <-.
    unfold run_finally. apply tryRestart_traced; [done|].
    right. by apply (single_Running m s).
Qed.

Lemma reachable_traced m : reachable cfg m -> traced m.
Proof.
  induction 1 as [c cid oc now|m ev m' Hr IH Hd].
  - unfold construct. cbv zeta. apply refreshSummarizer_traced.
    destruct c; [|done].
    match goal with |- traced (setClientId cid ?x) =>
      destruct (SummaryManagerSpec.setClientId_frame cid x) as (H1 & H2 & _);
      by apply (traced_ext x); [rewrite H1|rewrite H2|] end.
  - eapply dispatch_traced; [|done..]. by destruct (reachable_single cfg m Hr).
Qed.

End Traced.

(** X21. The lifecycle state follows the transitions of the state
    machine: whatever events follow the construction, [Running] is entered
    from [Starting] only, [Stopping] from [Running] only, [Off] from
    [Starting], [Running] or [Stopping], and [Disabled] is never left. *)
Theorem lifecycle_transitions (cfg : Config) c cid oc now evs (m : Manager) :
  dispatch_all cfg evs (construct cfg c cid oc now) = Some m ->
  follows Off (stateTrace m) = true /\
  state m = default Off (last (stateTrace m)).
Proof. intros Hm. apply (reachable_traced cfg). by eapply life_reachable. Qed.

Lemma lifecycle_transitions_witness :
  exists m,
    dispatch_all cfg_enabled
      [EvCreateSummarizerSettled None; EvCreateSummarizerSettled (Some response_ok);
       EvSetDisconnected; EvRunSettled 1%nat; EvSetConnected "A"]
      (manager_A cfg_enabled) = Some m /\
    stateTrace m = [Starting; Starting; Running; Stopping; Off; Starting] /\
    follows Off (stateTrace m) = true /\
    state m = default Off (last (stateTrace m)).
Proof.
  eexists. split; [vm_compute; reflexivity|]. split; [vm_compute; reflexivity|].
  apply (lifecycle_transitions cfg_enabled true (Some "A")
           {| getElectedClient := Some clientA; getSummarizerCount := 0 |} 0
           [EvCreateSummarizerSettled None; EvCreateSummarizerSettled (Some response_ok);
            EvSetDisconnected; EvRunSettled 1%nat; EvSetConnected "A"]).
  vm_compute; reflexivity.
Defined.

(** ** Never idle *)

Section Idle.

Variable cfg : Config.

Lemma should_ext m m' :
  connected m' = connected m -> clientId m' = clientId m ->
  electedClientId m' = electedClientId m -> _disposed m' = _disposed m ->
  orderedClients m' = orderedClients m ->
  getShouldSummarizeState m' = getShouldSummarizeState m.
Proof. unfold getShouldSummarizeState, summarizer. by intros -> -> -> -> ->. Qed.

Lemma should_count m m' :
  connected m' = connected m -> clientId m' = clientId m ->
  electedClientId m' = electedClientId m -> _disposed m' = _disposed m ->
  (0 <? getSummarizerCount (orderedClients m'))%nat =
    (0 <? getSummarizerCount (orderedClients m))%nat ->
  getShouldSummarizeState m' = getShouldSummarizeState m.
Proof. unfold getShouldSummarizeState, summarizer. by intros -> -> -> -> ->. Qed.

Lemma start_quorum m : quorum_view (start cfg m) = quorum_view m.
Proof.
  unfold start. destruct (negb (summariesEnabled cfg)); [done|].
  case_bool_decide; [done|].
  destruct (Throttler.getDelay _ _ _ _ _) as [d th].
  by destruct (defaultThrottleMaxDelayMs <=? d).
Qed.

Lemma stop_quorum r m : quorum_view (stop r m) = quorum_view m.
Proof. unfold stop. cbn. by destruct (runningSummarizer m). Qed.

Lemma stop_should r m : getShouldSummarizeState (stop r m) = getShouldSummarizeState m.
Proof. unfold stop. cbn. by destruct (runningSummarizer m). Qed.

Lemma run_quorum s m : quorum_view (run s m) = quorum_view m.
Proof.
  unfold run. cbv zeta. destruct (getShouldSummarizeState _); [done|].
  by rewrite stop_quorum.
Qed.

Lemma tryRestart_quorum m : quorum_view (tryRestart cfg m) = quorum_view m.
Proof.
  unfold tryRestart. destruct (getShouldSummarizeState m) as [[]|]; [|done..].
  apply start_quorum.
Qed.

Lemma refreshSummarizer_quorum m : quorum_view (refreshSummarizer cfg m) = quorum_view m.
Proof.
  unfold refreshSummarizer. cbv zeta.
  match goal with |- context [state ?x] => set (m1 := x) end.
  assert (H1 : quorum_view m1 = quorum_view m) by (subst m1; by case_bool_decide).
  destruct (state m1), (getShouldSummarizeState m1) as [[]|];
    by rewrite ?start_quorum, ?stop_quorum.
Qed.

Lemma setClientId_quorum c m : quorum_view (setClientId c m) = quorum_view m.
Proof.
  unfold setClientId. destruct c as [c|]; [|done]. cbn.
  by destruct (runningSummarizer m).
Qed.

Lemma counts_ext m m' :
  quorum_view m' = quorum_view m -> counts_summarizers m -> counts_summarizers m'.
Proof. unfold counts_summarizers, quorum_view. by intros [= -> ->]. Qed.

Lemma start_not_Off m : state (start cfg m) <> Off.
Proof. by destruct (start_cases cfg m) as ([(-> & _)|(-> & _)] & _). Qed.

Lemma refreshSummarizer_never_idle m : never_idle (refreshSummarizer cfg m).
Proof.
  unfold refreshSummarizer. cbv zeta.
  match goal with |- context [state ?x] => set (m1 := x) end.
  destruct (state m1) eqn:Hs, (getShouldSummarizeState m1) as [[]|r] eqn:Hg;
    unfold never_idle; try (by rewrite Hs); try (by rewrite Hg).
  - intros Hoff. by destruct (start_not_Off m1).
  - rewrite stop_should, Hg. done.
Qed.

Lemma tryRestart_never_idle m : never_idle (tryRestart cfg m).
Proof.
  unfold tryRestart, never_idle.
  destruct (getShouldSummarizeState m) as [[]|r] eqn:Hg.
  - intros Hoff. by destruct (start_not_Off m).
  - intros _. rewrite (should_ext m); [by rewrite Hg|done..].
  - intros _. rewrite (should_ext m); [by rewrite Hg|done..].
Qed.

Lemma run_never_idle s m : never_idle (run s m).
Proof.
  unfold run. cbv zeta.
  match goal with |- context [getShouldSummarizeState ?x] => set (m1 := x) end.
  destruct (getShouldSummarizeState m1) eqn:Hg; unfold never_idle.
  - by intros [=].
  - intros _. by rewrite stop_should, Hg.
Qed.

Lemma dispatch_never_idle ev m m' :
  never_idle m -> counts_summarizers m -> dispatch cfg ev m = Some m' ->
  never_idle m' /\ counts_summarizers m'.
Proof.
  intros Hm Hc Hd.
  assert (Hupd : forall b cid,
    never_idle (updateConnected cfg b cid m) /\
    counts_summarizers (updateConnected cfg b cid m)).
  { intros b cid. unfold updateConnected. case_bool_decide; [done|]. cbv zeta.
    split; [apply refreshSummarizer_never_idle|].
    eapply counts_ext; [apply refreshSummarizer_quorum|].
    eapply counts_ext; [apply setClientId_quorum|]. done. }
  destruct ev; cbn in Hd.
  - injection Hd as <-. apply Hupd.
  - injection Hd as <-. apply Hupd.
  - injection Hd as <-. split; [|done]. intros _.
    by destruct (SummaryManagerSpec.disposed_shouldNotSummarize (dispose m) eq_refl)
      as (r & ->).
  - by injection Hd as <-.
  - destruct (addMemberListener m); injection Hd as <-; [|done].
    unfold opsUntilFirstConnectHandler. by destruct (_ && _).
  - injection Hd as <-. unfold onDefaultOp. cbv zeta. by destruct (_ && _).
  - by injection Hd as <-.
  - injection Hd as <-. unfold onSummarizerChange. cbv zeta.
    match goal with |- context [negb ?b] => destruct b eqn:Hflag end; cbn [negb].
    + apply Bool.eqb_prop in Hflag.
      change (hasSummarizersInQuorum m = (0 <? summarizerCount)%nat) in Hflag.
      split; [|done]. intros Hoff Hg. apply (Hm Hoff). rewrite <- Hg.
      symmetry. apply should_count; [done..|].
      change ((0 <? summarizerCount)%nat =
              (0 <? getSummarizerCount (orderedClients m))%nat).
      by rewrite <- Hflag, <- Hc.
    + split; [apply refreshSummarizer_never_idle|].
      eapply counts_ext; [apply refreshSummarizer_quorum|]. done.
  - injection Hd as <-. unfold onElectedChange. cbv zeta.
    split; [apply refreshSummarizer_never_idle|].
    eapply counts_ext; [apply refreshSummarizer_quorum|]. by destruct client.
  - destruct (pendingCreate m) as [|req rest]; [done|].
    destruct (createSummarizer_settle response) as [s|]; injection Hd as <-.
    + split; [apply run_never_idle|]. eapply counts_ext; [apply run_quorum|done].
    + split; [apply tryRestart_never_idle|].
      eapply counts_ext; [apply tryRestart_quorum|done].
  - destruct (existsb _ _); [|done]. by injection Hd as <-.
  - destruct (existsb _ _); [|done]. injection Hd as <-.
    split; [apply tryRestart_never_idle|].
    eapply counts_ext; [apply tryRestart_quorum|done].
Qed.

Lemma reachable_never_idle m :
  reachable cfg m -> never_idle m /\ counts_summarizers m.
Proof.
  induction 1 as [c cid oc now|m ev m' _ (IH1 & IH2) Hd];
    [|by eapply dispatch_never_idle].
  unfold construct. cbv zeta. split; [apply refreshSummarizer_never_idle|].
  eapply counts_ext; [apply refreshSummarizer_quorum|].
  destruct c; [|done]. eapply counts_ext; [apply setClientId_quorum|done].
Qed.

End Idle.

(** X22. The manager does not rest while it should summarize. The
    election is seen through its two events, which carry each change of the
    elected client and of the count of summarizer clients. Whatever events
    follow the construction: when the manager is connected, its client id is
    the elected one, it is not disposed and the quorum has no summarizer
    client, its state is not [Off]. *)
Theorem never_Off_when_it_should_start (cfg : Config) c cid oc now evs (m : Manager) :
  dispatch_all cfg evs (construct cfg c cid oc now) = Some m ->
  connected m = true -> clientId m = electedClientId m -> _disposed m = false ->
  getSummarizerCount (orderedClients m) = 0%nat ->
  state m <> Off.
Proof.
  intros Hm Hc He Hd Hn Hoff.
  destruct (reachable_never_idle cfg m) as (Hidle & _); [by eapply life_reachable|].
  apply (Hidle Hoff). unfold getShouldSummarizeState, summarizer.
  rewrite Hc, He, Hd, Hn. cbn. by rewrite bool_decide_true.
Qed.

Lemma never_Off_when_it_should_start_witness :
  exists m,
    dispatch_all cfg_enabled
      [EvCreateSummarizerSettled (Some response_ok); EvSummarizerChange 1;
       EvRunSettled 1%nat; EvSummarizerChange 0]
      (manager_A cfg_enabled) = Some m /\
    stateTrace m = [Starting; Running; Off; Starting] /\
    state m <> Off.
Proof.
  eexists. split; [vm_compute; reflexivity|]. split; [vm_compute; reflexivity|].
  apply (never_Off_when_it_should_start cfg_enabled true (Some "A")
           {| getElectedClient := Some clientA; getSummarizerCount := 0 |} 0
           [EvCreateSummarizerSettled (Some response_ok); EvSummarizerChange 1;
            EvRunSettled 1%nat; EvSummarizerChange 0]);
    vm_compute; reflexivity.
Defined.

End LifecycleSpec.

(* ===================================================================== *)
(** * Properties of the listeners of AgentScheduler *)
(* ===================================================================== *)

Module ListenersSpec.
Import AgentScheduler Session.

Section Listeners.

Variable U : string.

Lemma set_writes_id (s : Scheduler) : set_writes (writes s) s = s.
Proof. by destruct s. Qed.

(** The state in which [onTaskReassigned] leaves the running tasks. *)
Lemma onTaskReassigned_run (key : string) (value : option string)
    (s : Scheduler) (c : string) :
  attachState (runtime s) = Attached ->
  runtimeClientId (runtime s) = Some c ->
  truthy c = true ->
  (isActive s = true -> value <> Some c) ->
  let s1 :=
    if set_has key (runningTasks s)
    then set_emitted (emitted s ++ [released key])
           (set_runningTasks (set_delete key (runningTasks s)) s)
    else s in
  onTaskReassigned U key value s =
    (Ok tt, set_writes (writes s ++ reaction key value s) s1).
Proof.
  intros Ha Hc Ht Hv s1. unfold onTaskReassigned, reaction.
  unfold bind at 1. cbn [get]. unfold bind at 1.
  assert (Hs1 : (if set_has key (runningTasks s)
                 then modify (fun s0 => set_runningTasks (set_delete key (runningTasks s0)) s0);;
                      emit (released key)
                 else ret tt) s = (Ok tt, s1)).
  { subst s1. by destruct (set_has key (runningTasks s)). }
  rewrite Hs1. unfold bind at 1. cbn [get].
  assert (Hr1 : runtime s1 = runtime s)
    by (subst s1; by destruct (set_has key (runningTasks s))).
  assert (Hw1 : writes s1 = writes s)
    by (subst s1; by destruct (set_has key (runningTasks s))).
  assert (Hl1 : locallyRunnableTasks s1 = locallyRunnableTasks s)
    by (subst s1; by destruct (set_has key (runningTasks s))).
  rewrite (AgentSchedulerSpec.isActive_runtime s1 s Hr1).
  clearbody s1. rewrite <- Hw1.
  destruct (isActive s) eqn:Hact.
  - rewrite Hc. destruct value as [c'|].
    + rewrite bool_decide_false by (intros ->; by apply Hv).
      unfold notInQuorum. rewrite Hr1.
      destruct (negb (existsb _ _)); cbn; [done|].
      by rewrite app_nil_r, set_writes_id.
    + rewrite Hl1. destruct (map_has key (locallyRunnableTasks s)).
      * unfold bind. rewrite (SessionSpec.clientId_attached U s1 c); [|congruence..].
        done.
      * cbn. by rewrite app_nil_r, set_writes_id.
  - cbn. by rewrite app_nil_r, set_writes_id.
Qed.

Lemma on_atomicChanged_chosen (key : string) (s : Scheduler) (c : string) :
  attachState (runtime s) = Attached ->
  runtimeClientId (runtime s) = Some c ->
  truthy c = true ->
  isActive s = true ->
  on_atomicChanged U key (Some c) s = onNewTaskAssigned key s.
Proof.
  intros Ha Hc Ht Hact. unfold on_atomicChanged.
  unfold bind at 1. cbn [get]. unfold bind at 1. rewrite Hact.
  unfold bind at 1. rewrite (SessionSpec.clientId_attached U s c Ha Hc Ht).
  cbn [ret]. by rewrite bool_decide_true.
Qed.

Lemma on_atomicChanged_other (key : string) (value : option string)
    (s : Scheduler) (c : string) :
  attachState (runtime s) = Attached ->
  runtimeClientId (runtime s) = Some c ->
  truthy c = true ->
  (isActive s = true -> value <> Some c) ->
  on_atomicChanged U key value s = onTaskReassigned U key value s.
Proof.
  intros Ha Hc Ht Hv. unfold on_atomicChanged.
  unfold bind at 1. cbn [get]. unfold bind at 1.
  destruct (isActive s) eqn:Hact; [|done].
  unfold bind at 1. rewrite (SessionSpec.clientId_attached U s c Ha Hc Ht).
  cbn [ret]. by rewrite bool_decide_false by (by apply Hv).
Qed.

Lemma onNewTaskAssigned_run (key : string) (s : Scheduler) :
  onNewTaskAssigned key s =
    if set_has key (runningTasks s) then (Throw (AssertionFailed 0x11d), s)
    else
      match map_get key (locallyRunnableTasks s) with
      | Some worker =>
          (Ok tt,
           set_workerCalls (workerCalls s ++ [worker])
             (set_emitted (emitted s ++ [picked key])
                (set_runningTasks (runningTasks s ++ [key]) s)))
      | None =>
          (Ok tt,
           set_errorEvents
             (errorEvents s ++ [("AgentScheduler_UnwantedChange", None, Some key)])
             (set_runningTasks (runningTasks s ++ [key]) s))
      end.
Proof.
  unfold onNewTaskAssigned, sendErrorEvent, emit, assert, bind, get, modify, ret, throw.
  unfold set_add. cbn -[set_has]. destruct (set_has key (runningTasks s)) eqn:E; cbn -[set_has]; [done|].
  destruct (map_get key (locallyRunnableTasks s)); by rewrite !E.
Qed.

End Listeners.

(** X9. The "atomicChanged" listener of an attached, active replica that
    hears its own client id as the new value: if the task is already running
    it fails assertion 0x11d and changes nothing; otherwise the task is added
    to the running tasks and, when a worker was given to [pick] for it,
    "picked" is emitted and that worker is called once; when none was, the
    task is running all the same, nothing is emitted, no worker is called and
    the error event "AgentScheduler_UnwantedChange" is sent. Nothing is
    written. *)
Theorem atomicChanged_own_clientId (U key : string) (s : Scheduler) (c : string) :
  attachState (runtime s) = Attached ->
  runtimeClientId (runtime s) = Some c ->
  truthy c = true ->
  isActive s = true ->
  on_atomicChanged U key (Some c) s =
    if set_has key (runningTasks s) then (Throw (AssertionFailed 0x11d), s)
    else
      match map_get key (locallyRunnableTasks s) with
      | Some worker =>
          (Ok tt,
           set_workerCalls (workerCalls s ++ [worker])
             (set_emitted (emitted s ++ [picked key])
                (set_runningTasks (runningTasks s ++ [key]) s)))
      | None =>
          (Ok tt,
           set_errorEvents
             (errorEvents s ++ [("AgentScheduler_UnwantedChange", None, Some key)])
             (set_runningTasks (runningTasks s ++ [key]) s))
      end.
Proof.
  intros Ha Hc Ht Hact. rewrite (on_atomicChanged_chosen U key s c Ha Hc Ht Hact).
  apply onNewTaskAssigned_run.
Qed.

Lemma atomicChanged_own_clientId_witness :
  let s := exec (pick unattached "task" 7%nat) (scheduler_A true) in
  writes s = [("task", Some "A")] /\
  on_atomicChanged unattached "task" (Some "A") s =
    (Ok tt,
     set_workerCalls [7%nat]
       (set_emitted [picked "task"] (set_runningTasks ["task"] s))) /\
  on_atomicChanged unattached "other" (Some "A") s =
    (Ok tt,
     set_errorEvents [("AgentScheduler_UnwantedChange", None, Some "other")]
       (set_runningTasks ["other"] s)).
Proof.
  intros s. split; [vm_compute; reflexivity|]. split.
  - rewrite (atomicChanged_own_clientId unattached "task" s "A");
      vm_compute; reflexivity.
  - rewrite (atomicChanged_own_clientId unattached "other" s "A");
      vm_compute; reflexivity.
Defined.

(** X10. The "atomicChanged" listener of an attached replica that hears
    another value than its own client id, or that is not active: the task
    leaves the running tasks and "released" is emitted if it was running; an
    active replica then writes its claim when the value is null and it has a
    worker for the task, writes null when the value names a client that is
    not in the quorum, and writes nothing otherwise. It never fails. *)
Theorem atomicChanged_other_value (U key : string) (value : option string)
    (s : Scheduler) (c : string) :
  attachState (runtime s) = Attached ->
  runtimeClientId (runtime s) = Some c ->
  truthy c = true ->
  (isActive s = true -> value <> Some c) ->
  on_atomicChanged U key value s =
    (Ok tt,
     set_writes
       (writes s ++
          if isActive s then
            match value with
            | None =>
                if map_has key (locallyRunnableTasks s) then [(key, Some c)] else []
            | Some c' => if notInQuorum c' s then [(key, None)] else []
            end
          else [])
       (if set_has key (runningTasks s)
        then set_emitted (emitted s ++ [released key])
               (set_runningTasks (set_delete key (runningTasks s)) s)
        else s)).
Proof.
  intros Ha Hc Ht Hv. rewrite (on_atomicChanged_other U key value s c Ha Hc Ht Hv).
  rewrite (onTaskReassigned_run U key value s c Ha Hc Ht Hv). cbv zeta.
  unfold reaction. rewrite Hc.
  destruct (isActive s) eqn:Hact; [|done]. destruct value as [c'|]; [|done].
  by rewrite bool_decide_false by (intros ->; by apply Hv).
Qed.

Lemma atomicChanged_other_value_witness :
  on_atomicChanged unattached "task" None scheduler_A_owner =
    (Ok tt,
     set_writes [("task", Some "A"); ("task", Some "A")]
       (set_emitted [picked "task"; released "task"]
          (set_runningTasks [] scheduler_A_owner))) /\
  on_atomicChanged unattached "task" (Some "B") scheduler_A_owner =
    (Ok tt,
     set_writes [("task", Some "A"); ("task", None)]
       (set_emitted [picked "task"; released "task"]
          (set_runningTasks [] scheduler_A_owner))).
Proof.
  split.
  - rewrite (atomicChanged_other_value unattached "task" None scheduler_A_owner "A");
      [vm_compute; reflexivity|vm_compute; reflexivity..|done].
  - rewrite (atomicChanged_other_value unattached "task" (Some "B") scheduler_A_owner "A");
      [vm_compute; reflexivity|vm_compute; reflexivity..|done].
Defined.

(** X11. After the "atomicChanged" listener of an attached replica has
    run for a key, [pickedTasks] lists that key exactly when the replica is
    active and the value is its own client id; every other task is listed
    exactly when it was before. *)
Theorem pickedTasks_after_atomicChanged (U key : string) (value : option string)
    (s : Scheduler) (c : string) :
  attachState (runtime s) = Attached ->
  runtimeClientId (runtime s) = Some c ->
  truthy c = true ->
  forall k,
    k ∈ pickedTasks (exec (on_atomicChanged U key value) s) <->
    (k <> key /\ k ∈ pickedTasks s) \/
    (k = key /\ isActive s = true /\ value = Some c).
Proof.
  intros Ha Hc Ht k. unfold pickedTasks, exec.
  destruct (decide (isActive s = true /\ value = Some c)) as [(Hact & ->)|Hno].
  - rewrite (on_atomicChanged_chosen U key s c Ha Hc Ht Hact), onNewTaskAssigned_run.
    destruct (set_has key (runningTasks s)) eqn:E.
    + apply SessionSpec.set_has_In in E. cbn. split.
      * intros Hk. destruct (decide (k = key)) as [->|]; [by right|by left].
      * intros [(_ & ?)|(-> & _)]; done.
    + destruct (map_get key (locallyRunnableTasks s)); cbn;
        rewrite elem_of_app, list_elem_of_singleton; split.
      * intros [Hk| ->]; [|by right].
        destruct (decide (k = key)) as [->|]; [by right|by left].
      * intros [(_ & ?)|(-> & _)]; [by left|by right].
      * intros [Hk| ->]; [|by right].
        destruct (decide (k = key)) as [->|]; [by right|by left].
      * intros [(_ & ?)|(-> & _)]; [by left|by right].
  - assert (Hv : isActive s = true -> value <> Some c) by (intros ? ?; by apply Hno).
    rewrite (on_atomicChanged_other U key value s c Ha Hc Ht Hv).
    rewrite (onTaskReassigned_run U key value s c Ha Hc Ht Hv). cbv zeta.
    destruct (set_has key (runningTasks s)) eqn:E; cbn -[set_delete].
    + rewrite SessionSpec.elem_of_set_delete. split.
      * intros (? & ?). by left.
      * intros [(? & ?)|(_ & ? & ?)]; [done|]. by destruct Hno.
    + split.
      * intros Hk. left. split; [|done]. intros ->.
        apply SessionSpec.set_has_In in Hk. congruence.
      * intros [(? & ?)|(_ & ? & ?)]; [done|]. by destruct Hno.
Qed.

Lemma pickedTasks_after_atomicChanged_witness :
  "task" ∈ pickedTasks (exec (on_atomicChanged unattached "task" (Some "A"))
                          (exec (pick unattached "task" 7%nat) (scheduler_A true))).
Proof.
  apply (pickedTasks_after_atomicChanged unattached "task" (Some "A")
           (exec (pick unattached "task" 7%nat) (scheduler_A true)) "A");
    [vm_compute; reflexivity..|].
  right. split_and!; [done|vm_compute; reflexivity|done].
Defined.

(** ** Releasing a task *)

Lemma map_get_delete_eq {V} (k : string) (m : list (string * V)) :
  map_get k (map_delete k m) = None.
Proof.
  induction m as [|[k' v] m IH]; cbn; [done|].
  destruct (String.eqb k' k) eqn:E; [done|]. cbn. by rewrite E.
Qed.

Lemma release_run (U : string) (l : list string) (s : Scheduler) :
  Forall (fun t => releasable U t s) l ->
  release U l s =
    (Ok tt,
     set_writes (writes s ++ map (fun t => (t, None)) l)
       (set_locallyRunnableTasks
          (fold_left (fun m t => map_delete t m) l (locallyRunnableTasks s)) s)).
Proof.
  intros Hl. unfold release. unfold bind at 1. cbn [get]. cbv zeta.
  destruct (AgentSchedulerSpec.release_loop U l s) as (Hs & Hf). cbv zeta in Hs, Hf.
  apply Hf in Hl. unfold bind at 1.
  match goal with |- context [for_of l ?b s] =>
    rewrite (surjective_pairing (for_of l b s)) end.
  rewrite Hs, Hl. apply AgentSchedulerSpec.releaseCore_writes.
Qed.

(** X12. Releasing a task that the replica runs. [release] of a task that
    the replica has a worker for and that the register gives to it returns
    normally, writes null for the task and forgets the worker, but
    [pickedTasks] still lists the task. When the replica then hears that the
    value is null, the task leaves [pickedTasks], "released" is emitted if it
    was listed, and the replica does not claim the task again: it writes
    nothing, and [pick] for the task is no longer refused as already
    attempted. *)
Theorem release_until_heard (U key : string) (worker : Worker)
    (s : Scheduler) (c : string) :
  attachState (runtime s) = Attached ->
  runtimeClientId (runtime s) = Some c ->
  truthy c = true ->
  isActive s = true ->
  map_has key (locallyRunnableTasks s) = true ->
  getTaskClientId key s = Some (Some c) ->
  let s1 := exec (release U [key]) s in
  let s2 := exec (on_atomicChanged U key None) s1 in
  release U [key] s = (Ok tt, s1) /\
  writes s1 = writes s ++ [(key, None)] /\
  pickedTasks s1 = pickedTasks s /\
  map_has key (locallyRunnableTasks s1) = false /\
  on_atomicChanged U key None s1 = (Ok tt, s2) /\
  writes s2 = writes s1 /\
  (forall k, k ∈ pickedTasks s2 <-> k ∈ pickedTasks s /\ k <> key) /\
  emitted s2 =
    emitted s ++ (if set_has key (pickedTasks s) then [released key] else []) /\
  fst (pick U key worker s2) <> Throw (AlreadyAttempted key).
Proof.
  intros Ha Hc Ht Hact Hl Hreg s1 s2.
  assert (Hrel : release U [key] s =
    (Ok tt,
     set_writes (writes s ++ [(key, None)])
       (set_locallyRunnableTasks (map_delete key (locallyRunnableTasks s)) s))).
  { rewrite release_run; [done|]. apply Forall_singleton. split_and!; [done..|].
    exists c. split; [|done]. by apply SessionSpec.clientId_attached. }
  assert (Hs1 : s1 =
     set_writes (writes s ++ [(key, None)])
       (set_locallyRunnableTasks (map_delete key (locallyRunnableTasks s)) s)).
  { subst s1. unfold exec. by rewrite Hrel. }
  assert (Hhas : map_has key (locallyRunnableTasks s1) = false).
  { rewrite Hs1. unfold map_has. cbn. by rewrite map_get_delete_eq. }
  assert (H1 : attachState (runtime s1) = Attached) by (by rewrite Hs1).
  assert (H2 : runtimeClientId (runtime s1) = Some c) by (by rewrite Hs1).
  assert (H3 : isActive s1 = true -> None <> Some c) by done.
  assert (Hrun : on_atomicChanged U key None s1 =
    (Ok tt,
     set_writes (writes s1)
       (if set_has key (runningTasks s1)
        then set_emitted (emitted s1 ++ [released key])
               (set_runningTasks (set_delete key (runningTasks s1)) s1)
        else s1))).
  { rewrite (on_atomicChanged_other U key None s1 c H1 H2 Ht H3).
    rewrite (onTaskReassigned_run U key None s1 c H1 H2 Ht H3). cbv zeta.
    unfold reaction. rewrite H2, Hhas.
    destruct (isActive s1); by rewrite app_nil_r. }
  assert (Hs2 : s2 =
     set_writes (writes s1)
       (if set_has key (runningTasks s1)
        then set_emitted (emitted s1 ++ [released key])
               (set_runningTasks (set_delete key (runningTasks s1)) s1)
        else s1)).
  { subst s2. unfold exec. by rewrite Hrun. }
  assert (Hr1 : runningTasks s1 = runningTasks s) by (by rewrite Hs1).
  assert (He1 : emitted s1 = emitted s) by (by rewrite Hs1).
  split_and!.
  - by rewrite Hrel, Hs1.
  - by rewrite Hs1.
  - exact Hr1.
  - exact Hhas.
  - by rewrite Hrun, Hs2.
  - by rewrite Hs2.
  - intros k. rewrite Hs2. unfold pickedTasks. rewrite <- Hr1.
    destruct (set_has key (runningTasks s1)) eqn:E; cbn -[set_delete].
    + apply SessionSpec.elem_of_set_delete.
    + split; [|by intros (? & _)]. intros Hk. split; [done|]. intros ->.
      apply SessionSpec.set_has_In in Hk. congruence.
  - rewrite Hs2. unfold pickedTasks. rewrite <- Hr1, <- He1.
    destruct (set_has key (runningTasks s1)); cbn; [done|by rewrite app_nil_r].
  - rewrite (AgentSchedulerSpec.pick_cases U key worker s2). cbv zeta.
    assert (map_has key (locallyRunnableTasks s2) = false) as ->.
    { rewrite Hs2. by destruct (set_has key (runningTasks s1)). }
    destruct (negb (interactive (runtime s2))); [done|].
    destruct (negb (isActive s2)); [done|].
    destruct (getTaskClientId key s2) as [[c'|]|]; [done|..];
      destruct (fst (clientId U s2)) eqn:Hcl; try done.
    + cbn. intros [= ->]. revert Hcl. unfold clientId, bind, get, assert, ret, throw.
      cbn. destruct (bool_decide _); [done|].
      destruct (runtimeClientId (runtime s2)); [|done]. cbn. by destruct (truthy s0).
    + cbn. intros [= ->]. revert Hcl. unfold clientId, bind, get, assert, ret, throw.
      cbn. destruct (bool_decide _); [done|].
      destruct (runtimeClientId (runtime s2)); [|done]. cbn. by destruct (truthy s0).
Qed.

Lemma release_until_heard_witness :
  let s1 := exec (release unattached ["task"]) scheduler_A_owner in
  let s2 := exec (on_atomicChanged unattached "task" None) s1 in
  pickedTasks scheduler_A_owner = ["task"] /\
  pickedTasks s1 = pickedTasks scheduler_A_owner /\
  map_has "task" (locallyRunnableTasks s1) = false /\
  writes s2 = writes s1 /\
  emitted s2 = emitted scheduler_A_owner ++ [released "task"].
Proof.
  intros s1 s2. split; [vm_compute; reflexivity|].
  destruct (release_until_heard unattached "task" 7%nat scheduler_A_owner "A")
    as (_ & _ & H3 & H4 & _ & H6 & _ & H8 & _); [vm_compute; reflexivity..|].
  split_and!; [exact H3|exact H4|exact H6|exact H8].
Defined.

(** ** The listeners that repair the register *)

Section Repair.

Variable U : string.

Lemma for_of_writeCore_run (l : list string) (s : Scheduler) :
  for_of l (fun taskUrl => writeCore taskUrl None) s =
    (Ok tt, set_writes (writes s ++ map (fun t => (t, None)) l) s).
Proof.
  revert s. induction l as [|x l IH]; intros s.
  - cbn. by rewrite app_nil_r, set_writes_id.
  - cbn [for_of]. unfold bind at 1. cbn [writeCore modify]. rewrite IH.
    cbn. by rewrite <- (assoc_L (++)).
Qed.

Lemma clearTasks_run (l : list string) (s : Scheduler) :
  isActive s = true ->
  clearTasks l s = (Ok tt, set_writes (writes s ++ map (fun t => (t, None)) l) s).
Proof.
  intros Hact. unfold clearTasks. unfold bind at 1. cbn [get].
  unfold bind at 1. rewrite Hact. cbn [assert ret]. apply for_of_writeCore_run.
Qed.

Lemma initializeCore_run (s : Scheduler) (c : string) :
  attachState (runtime s) = Attached ->
  isActive s = true ->
  runtimeClientId (runtime s) = Some c ->
  truthy c = true ->
  initializeCore U s = (Ok tt, set_writes (writes s ++ initializeCore_writes s) s).
Proof.
  intros Ha Hact Hc Ht. unfold initializeCore, initializeCore_writes.
  rewrite Hc. unfold bind at 1. cbn [get]. unfold bind at 1.
  match goal with |- context [for_of _ ?b] => set (body := b) end.
  assert (Hloop : forall l s1,
    runtime s1 = runtime s ->
    consensusRegisterCollection s1 = consensusRegisterCollection s ->
    for_of l body s1 =
      (Ok tt,
       set_writes
         (writes s1 ++
          map (fun t => (t, Some c))
            (List.filter (fun t => falsy (getTaskClientId t s)) (map_keys l))) s1)).
  { induction l as [|[x w] l IH]; intros s1 Hr Hv.
    - cbn. by rewrite app_nil_r, set_writes_id.
    - cbn [for_of]. unfold bind at 1. subst body. cbv beta iota.
      unfold bind at 1. cbn [get].
      assert (getTaskClientId x s1 = getTaskClientId x s) as ->
        by (unfold getTaskClientId; by rewrite Hv).
      assert (Hclaim :
        for_of l
          (fun '(taskUrl, _) =>
             s0 <- get;;
             match getTaskClientId taskUrl s0 with
             | Some (Some c') =>
                 if truthy c' then ret tt
                 else c0 <- clientId U;; writeCore taskUrl (Some c0)
             | _ => c0 <- clientId U;; writeCore taskUrl (Some c0)
             end)
          (set_writes (writes s1 ++ [(x, Some c)]) s1) =
        (Ok tt,
         set_writes
           (writes s1 ++
            map (fun t => (t, Some c))
              (x :: List.filter (fun t => falsy (getTaskClientId t s)) (map_keys l)))
           s1)).
      { rewrite (IH (set_writes (writes s1 ++ [(x, Some c)]) s1)) by done.
        cbn. by rewrite <- (assoc_L (++)). }
      cbn [map_keys map fst List.filter]. unfold falsy at 1.
      destruct (getTaskClientId x s) as [[c'|]|].
      + destruct (truthy c'); cbn [negb ret].
        * by apply IH.
        * unfold bind at 1.
          rewrite (SessionSpec.clientId_attached U s1 c); [|congruence..].
          cbn [writeCore modify]. exact Hclaim.
      + unfold bind at 1.
        rewrite (SessionSpec.clientId_attached U s1 c); [|congruence..].
        cbn [writeCore modify]. exact Hclaim.
      + unfold bind at 1.
        rewrite (SessionSpec.clientId_attached U s1 c); [|congruence..].
        cbn [writeCore modify]. exact Hclaim. }
  rewrite (Hloop (locallyRunnableTasks s) s) by done.
  set (W1 := map (fun t => (t, Some c)) _).
  unfold bind at 1. cbn [get]. unfold bind at 1.
  match goal with |- context [for_acc _ [] ?b] => set (body2 := b) end.
  set (orphan := fun t =>
    match getTaskClientId t s with
    | Some (Some c') => truthy c' && notInQuorum c' s
    | _ => false
    end).
  assert (Hloop2 : forall l acc,
    for_acc l acc body2 (set_writes (writes s ++ W1) s) =
      (Ok (acc ++ List.filter orphan l), set_writes (writes s ++ W1) s)).
  { induction l as [|x l IH]; intros acc.
    - cbn. by rewrite app_nil_r.
    - cbn [for_acc]. unfold bind at 1. subst body2. cbv beta.
      unfold bind at 1. cbn [get].
      change (getTaskClientId x (set_writes (writes s ++ W1) s))
        with (getTaskClientId x s).
      cbn [List.filter]. unfold orphan at 1.
      destruct (getTaskClientId x s) as [[c'|]|]; cbn [ret]; try apply IH.
      change (notInQuorum c' (set_writes (writes s ++ W1) s)) with (notInQuorum c' s).
      destruct (truthy c' && _); cbn [ret]; [|apply IH].
      rewrite IH. by rewrite <- (assoc_L (++)). }
  change (consensusRegisterCollection (set_writes (writes s ++ W1) s))
    with (consensusRegisterCollection s).
  rewrite Hloop2. cbn [app]. unfold bind at 1. unfold async.
  rewrite clearTasks_run by done. cbn. by rewrite (assoc_L (++)).
Qed.

Lemma on_removeMember_run (removed : string) (s : Scheduler) (c : string) :
  attachState (runtime s) = Attached ->
  routingContextAttached (runtime s) = true ->
  runtimeClientId (runtime s) = Some c ->
  truthy c = true ->
  on_removeMember U removed s =
    (Ok tt, set_writes (writes s ++ removeMember_writes removed s) s).
Proof.
  intros Ha Hrc Hc Ht. unfold on_removeMember, removeMember_writes.
  unfold bind at 1. cbn [get]. unfold bind at 1. rewrite Hrc. cbn [assert ret].
  destruct (isActive s) eqn:Hact; [|cbn; by rewrite app_nil_r, set_writes_id].
  rewrite Hc.
  set (owned := fun t => bool_decide (getTaskClientId t s = Some (Some removed))).
  set (has := fun t => map_has t (locallyRunnableTasks s)).
  match goal with |- context [for_acc _ [] ?b] => set (body := b) end.
  assert (Hloop : forall l acc s1,
    runtime s1 = runtime s ->
    consensusRegisterCollection s1 = consensusRegisterCollection s ->
    locallyRunnableTasks s1 = locallyRunnableTasks s ->
    for_acc l acc body s1 =
      (Ok (acc ++ List.filter (fun t => negb (has t)) (List.filter owned l)),
       set_writes
         (writes s1 ++ map (fun t => (t, Some c)) (List.filter has (List.filter owned l)))
         s1)).
  { induction l as [|x l IH]; intros acc s1 Hr Hv Hl.
    - cbn. by rewrite !app_nil_r, set_writes_id.
    - cbn [for_acc]. unfold bind at 1. subst body. cbv beta.
      unfold bind at 1. cbn [get].
      assert (bool_decide (getTaskClientId x s1 = Some (Some removed)) = owned x) as ->.
      { subst owned. cbv beta. apply bool_decide_ext.
        unfold getTaskClientId. by rewrite Hv. }
      cbn [List.filter].
      destruct (owned x) eqn:Ho; cbn [List.filter].
      + rewrite Hl. fold (has x). destruct (has x) eqn:Hh; cbn [negb].
        * unfold bind at 1.
          rewrite (SessionSpec.clientId_attached U s1 c); [|congruence..].
          unfold bind at 1. cbn [writeCore modify ret].
          rewrite (IH acc (set_writes (writes s1 ++ [(x, Some c)]) s1)) by done.
          cbn. by rewrite <- (assoc_L (++)).
        * cbn [ret]. rewrite (IH (acc ++ [x]) s1) by done.
          by rewrite <- (assoc_L (++)).
      + cbn [ret]. by apply IH. }
  unfold bind at 1.
  rewrite (Hloop (map_keys (consensusRegisterCollection s)) [] s) by done.
  cbn [app]. unfold bind at 1. unfold async.
  rewrite clearTasks_run by done. cbn. by rewrite (assoc_L (++)).
Qed.

Lemma clearRunningTasks_active (s : Scheduler) (c : string) :
  attachState (runtime s) = Attached ->
  isActive s = true ->
  runtimeClientId (runtime s) = Some c ->
  truthy c = true ->
  clearRunningTasks U s =
    (Ok tt,
     set_emitted (emitted s ++ map lost (runningTasks s))
       (set_writes (writes s ++ initializeCore_writes s) (set_runningTasks [] s))).
Proof.
  intros Ha Hact Hc Ht. unfold clearRunningTasks.
  unfold bind at 1. cbn [get]. unfold bind at 1. cbn [modify].
  unfold bind at 1. cbn [get]. unfold bind at 1.
  rewrite (AgentSchedulerSpec.isActive_runtime (set_runningTasks [] s) s eq_refl), Hact.
  rewrite (initializeCore_run (set_runningTasks [] s) c) by done.
  rewrite (AgentSchedulerSpec.emit_lost (runningTasks s)). done.
Qed.

End Repair.

(** X13. When an attached replica hears "connected" and is active, it
    claims, in this order, every task it has a worker for whose register
    entry is absent, null or the empty string, then writes null for every
    entry whose owner is a non-empty client id that is not in the quorum. It
    changes nothing else and returns normally; a replica that is not active
    does nothing. *)
Theorem connected_repairs_register (U : string) (s : Scheduler) (c : string) :
  attachState (runtime s) = Attached ->
  runtimeClientId (runtime s) = Some c ->
  truthy c = true ->
  on_connected U s =
    (Ok tt,
     if isActive s then
       set_writes
         (writes s ++
          map (fun t => (t, Some c))
            (List.filter (fun t => falsy (getTaskClientId t s))
               (map_keys (locallyRunnableTasks s))) ++
          map (fun t => (t, None))
            (List.filter
               (fun t =>
                  match getTaskClientId t s with
                  | Some (Some c') => truthy c' && notInQuorum c' s
                  | _ => false
                  end)
               (map_keys (consensusRegisterCollection s)))) s
     else s).
Proof.
  intros Ha Hc Ht. unfold on_connected. unfold bind at 1. cbn [get].
  destruct (isActive s) eqn:Hact; [|done].
  rewrite (initializeCore_run U s c Ha Hact Hc Ht).
  unfold initializeCore_writes. by rewrite Hc.
Qed.

Lemma connected_repairs_register_witness :
  let s :=
    set_consensusRegisterCollection [("task", Some "Z"); ("mine", None)]
      (set_locallyRunnableTasks [("mine", 7%nat)] (scheduler_A true)) in
  on_connected unattached s =
    (Ok tt, set_writes [("mine", Some "A"); ("task", None)] s).
Proof.
  intros s.
  rewrite (connected_repairs_register unattached s "A"); vm_compute; reflexivity.
Defined.

(** X14. When a member leaves the quorum, the "removeMember" listener of
    an attached, active replica goes through the register entries that name
    the member: it claims those it has a worker for, then writes null for the
    others; it changes nothing else. A replica that is not active does
    nothing; a replica whose routing context is detached fails assertion
    0x11c. *)
Theorem removeMember_repairs_register (U removed : string) (s : Scheduler) (c : string) :
  attachState (runtime s) = Attached ->
  runtimeClientId (runtime s) = Some c ->
  truthy c = true ->
  on_removeMember U removed s =
    if routingContextAttached (runtime s) then
      (Ok tt,
       if isActive s then
         let owned :=
           List.filter
             (fun t => bool_decide (getTaskClientId t s = Some (Some removed)))
             (map_keys (consensusRegisterCollection s)) in
         set_writes
           (writes s ++
            map (fun t => (t, Some c))
              (List.filter (fun t => map_has t (locallyRunnableTasks s)) owned) ++
            map (fun t => (t, None))
              (List.filter (fun t => negb (map_has t (locallyRunnableTasks s))) owned))
           s
       else s)
    else (Throw (AssertionFailed 0x11c), s).
Proof.
  intros Ha Hc Ht. destruct (routingContextAttached (runtime s)) eqn:Hrc.
  - rewrite (on_removeMember_run U removed s c Ha Hrc Hc Ht).
    unfold removeMember_writes. rewrite Hc.
    destruct (isActive s); [done|]. by rewrite app_nil_r, set_writes_id.
  - unfold on_removeMember. unfold bind at 1. cbn [get]. unfold bind at 1.
    by rewrite Hrc.
Qed.

Lemma removeMember_repairs_register_witness :
  let s :=
    set_consensusRegisterCollection
      [("task", Some "Z"); ("mine", Some "Z"); ("other", Some "A")]
      (set_locallyRunnableTasks [("mine", 7%nat)] (scheduler_A true)) in
  on_removeMember unattached "Z" s =
    (Ok tt, set_writes [("mine", Some "A"); ("task", None)] s).
Proof.
  intros s.
  rewrite (removeMember_repairs_register unattached "Z" s "A"); vm_compute; reflexivity.
Defined.

(** X15. When a container that was created detached is attached while its
    replica is active, the listener of [waitAttached] empties the running
    tasks, repairs the register as on "connected" (claims under the new
    client id, null for entries of clients that are not in the quorum, the
    unattached client id among them), and then emits "lost" for every task
    that was running, in order. *)
Theorem attached_while_active (U : string) (s : Scheduler) (c : string) :
  attachState (runtime s) = Attached ->
  isActive s = true ->
  runtimeClientId (runtime s) = Some c ->
  truthy c = true ->
  on_waitAttached U s =
    (Ok tt,
     set_emitted (emitted s ++ map lost (runningTasks s))
       (set_writes (writes s ++ initializeCore_writes s) (set_runningTasks [] s))) /\
  (forall t,
     getTaskClientId t s = Some (Some U) -> truthy U = true ->
     notInQuorum U s = true ->
     (t, None) ∈ initializeCore_writes s).
Proof.
  intros Ha Hact Hc Ht. split.
  - unfold on_waitAttached. unfold bind at 1. unfold async.
    by rewrite (clearRunningTasks_active U s c Ha Hact Hc Ht).
  - intros t Hreg HU Hq. unfold initializeCore_writes. rewrite Hc.
    apply elem_of_app. right. apply list_elem_of_fmap. exists t. split; [done|].
    apply SessionSpec.elem_of_List_filter. split.
    + unfold getTaskClientId in Hreg. by eapply SessionSpec.map_get_keys.
    + by rewrite Hreg, HU, Hq.
Qed.

Lemma attached_while_active_witness :
  let s :=
    set_consensusRegisterCollection [("task", Some unattached)] scheduler_A_attaching in
  on_waitAttached unattached s =
    (Ok tt,
     set_emitted [lost "task"]
       (set_writes [("task", None)] (set_runningTasks [] s))).
Proof.
  intros s.
  destruct (attached_while_active unattached s "A") as (-> & _);
    vm_compute; reflexivity.
Defined.

End ListenersSpec.

(* ===================================================================== *)
(** * Properties of a scheduler over its whole life *)
(* ===================================================================== *)

Module CallsSpec.
Import AgentScheduler Calls.

#[global] Instance workers_kept_preorder : PreOrder workers_kept.
Proof. split; [intros s H; exact H|]. intros s1 s2 s3 H1 H2 H. apply H2, H1, H. Qed.

Section Workers.

Variable U : string.

Lemma onNewTaskAssigned_workers key : keeps workers_kept (onNewTaskAssigned key).
Proof.
  intros s. rewrite ListenersSpec.onNewTaskAssigned_run.
  destruct (set_has key (runningTasks s)); [intros H; exact H|].
  destruct (map_get key (locallyRunnableTasks s)); [|intros H; exact H].
  unfold workers_kept, workers_match. cbn.
  rewrite List.filter_app, !length_app. cbn. lia.
Qed.

Ltac workers_leaf :=
  first
    [ done
    | by intros H; exact H
    | unfold workers_kept, workers_match, set_emitted, set_workerCalls; cbn;
      rewrite ?List.filter_app, ?length_app; cbn; lia ].

Ltac workers_go :=
  unfold writeCore, emit, sendErrorEvent;
  repeat first
    [ lazymatch goal with
      | |- keeps ?R (clientId ?U) => apply (SessionSpec.clientId_keeps U R)
      | |- keeps _ (onNewTaskAssigned ?k) => apply (onNewTaskAssigned_workers k)
      end
    | SessionSpec.keeps_step ];
  workers_leaf.

Lemma initializeCore_workers : keeps workers_kept (initializeCore U).
Proof. unfold initializeCore, clearTasks. workers_go. Qed.

Lemma call_workers c : keeps workers_kept (call U c).
Proof.
  destruct c; unfold call.
  - unfold initialize.
    repeat first
      [ lazymatch goal with
        | |- keeps _ (initializeCore _) => apply initializeCore_workers
        end
      | SessionSpec.keeps_step ]; workers_leaf.
  - unfold register, registerCore. workers_go.
  - unfold pick. workers_go.
  - unfold release, releaseCore. workers_go.
  - unfold on_atomicChanged, onTaskReassigned. workers_go.
  - unfold on_removeMember, clearTasks. workers_go.
  - unfold on_connected. SessionSpec.keeps_step; [apply SessionSpec.keeps_get; apply _|].
    destruct (isActive _); [apply initializeCore_workers|apply SessionSpec.keeps_ret; apply _].
  - unfold on_disconnected, clearRunningTasks, emit.
    repeat first
      [ lazymatch goal with
        | |- keeps _ (initializeCore _) => apply initializeCore_workers
        end
      | SessionSpec.keeps_step ]; workers_leaf.
  - unfold on_waitAttached, clearRunningTasks, emit, sendErrorEvent.
    repeat first
      [ lazymatch goal with
        | |- keeps _ (initializeCore _) => apply initializeCore_workers
        end
      | SessionSpec.keeps_step ]; workers_leaf.
  - intros s H. exact H.
  - intros s H. exact H.
Qed.

Lemma calls_workers cs s : workers_match s -> workers_match (calls U cs s).
Proof.
  revert s. induction cs as [|c cs IH]; intros s Hs; [done|].
  cbn. apply IH. by apply (call_workers c s).
Qed.

End Workers.

#[global] Instance workers_same_preorder : PreOrder workers_same.
Proof.
  split; [by intros s|]. intros s1 s2 s3 (H1 & H2) (H3 & H4).
  split; congruence.
Qed.

Section Started.

Variable U : string.

Ltac same_leaf :=
  first
    [ done
    | by split
    | unfold workers_same, set_emitted; cbn;
      rewrite ?List.filter_app; cbn; rewrite ?app_nil_r; done ].

Ltac same_go :=
  unfold writeCore, emit, sendErrorEvent;
  repeat first
    [ lazymatch goal with
      | |- keeps ?R (clientId ?U) => apply (SessionSpec.clientId_keeps U R)
      end
    | SessionSpec.keeps_step ];
  same_leaf.

Lemma onTaskReassigned_same key value : keeps workers_same (onTaskReassigned U key value).
Proof. unfold onTaskReassigned. same_go. Qed.

(** Every method and every listener but that of "atomicChanged". *)
Lemma call_same c : is_atomicChanged c = false -> keeps workers_same (call U c).
Proof.
  destruct c; [| | | |done| | | | | |]; intros _; unfold call.
  - unfold initialize, initializeCore, clearTasks. same_go.
  - unfold register, registerCore. same_go.
  - unfold pick. same_go.
  - unfold release, releaseCore. same_go.
  - unfold on_removeMember, clearTasks. same_go.
  - unfold on_connected, initializeCore, clearTasks. same_go.
  - unfold on_disconnected, clearRunningTasks, initializeCore, clearTasks. same_go.
  - unfold on_waitAttached, clearRunningTasks, initializeCore, clearTasks. same_go.
  - by intros s.
  - by intros s.
Qed.

(** The listener of "atomicChanged" starts at most the worker that was
    given to [pick] for the task. *)
Lemma atomicChanged_started key value s :
  workers_same s (exec (on_atomicChanged U key value) s) \/
  exists worker,
    map_get key (locallyRunnableTasks s) = Some worker /\
    workerCalls (exec (on_atomicChanged U key value) s) = workerCalls s ++ [worker] /\
    emitted (exec (on_atomicChanged U key value) s) = emitted s ++ [picked key].
Proof.
  assert (Hnew :
    workers_same s (snd (onNewTaskAssigned key s)) \/
    exists worker,
      map_get key (locallyRunnableTasks s) = Some worker /\
      workerCalls (snd (onNewTaskAssigned key s)) = workerCalls s ++ [worker] /\
      emitted (snd (onNewTaskAssigned key s)) = emitted s ++ [picked key]).
  { rewrite ListenersSpec.onNewTaskAssigned_run.
    destruct (set_has key (runningTasks s)); [by left|].
    destruct (map_get key (locallyRunnableTasks s)) as [worker|].
    - right. by exists worker.
    - left. by split. }
  assert (Hr :
    exec (on_atomicChanged U key value) s = s \/
    exec (on_atomicChanged U key value) s = snd (onNewTaskAssigned key s) \/
    exec (on_atomicChanged U key value) s = snd (onTaskReassigned U key value s)).
  { remember (exec (on_atomicChanged U key value) s) as r eqn:Hr.
    unfold exec, on_atomicChanged in Hr. unfold bind at 1 in Hr. cbn [get] in Hr.
    unfold bind at 1 in Hr.
    destruct (isActive s); [|by right; right].
    unfold bind at 1 in Hr. pose proof (AgentSchedulerSpec.clientId_pure U s) as Hp.
    destruct (clientId U s) as [[c|e] s1]; cbn in Hp; subst s1; [|by left].
    cbn [ret] in Hr.
    destruct (bool_decide (value = Some c)); [by right; left|by right; right]. }
  destruct Hr as [->|[->| ->]]; [by left|exact Hnew|].
  left. apply onTaskReassigned_same.
Qed.

End Started.

(** X16. Workers are started by the "atomicChanged" listener only, one
    for each "picked" event. No method and no other listener calls a worker
    or emits "picked". The listener of "atomicChanged" does neither, or it
    calls one worker, the one that [pick] was given for the task, and emits
    "picked" for the task, once. So, from the construction of the scheduler
    on, whatever methods are called, whatever its listeners hear and however
    the runtime and the register change, as many workers have been called as
    "picked" events have been emitted. *)
Theorem worker_called_once_per_picked (U : string) :
  (forall c s, is_atomicChanged c = false -> workers_same s (exec (call U c) s)) /\
  (forall key value s,
     let s' := exec (call U (HearAtomicChanged key value)) s in
     workers_same s s' \/
     exists worker,
       map_get key (locallyRunnableTasks s) = Some worker /\
       workerCalls s' = workerCalls s ++ [worker] /\
       emitted s' = emitted s ++ [picked key]) /\
  (forall rt collection cs,
     length (workerCalls (calls U cs (new rt collection))) =
     length (List.filter is_picked (emitted (calls U cs (new rt collection))))).
Proof.
  split_and!.
  - intros c s Hc. by apply (call_same U c Hc s).
  - intros key value s. apply atomicChanged_started.
  - intros rt collection cs. by apply calls_workers.
Qed.

#[global] Instance registered_kept_preorder : PreOrder registered_kept.
Proof.
  split; [intros s t H; exact H|]. intros s1 s2 s3 H1 H2 t H. apply H2, H1, H.
Qed.

Section Registered.

Variable U : string.

Ltac registered_leaf :=
  first
    [ done
    | by intros t H; exact H
    | intros t H; unfold set_registeredTasks; cbn; set_solver ].

Ltac registered_go :=
  unfold writeCore, emit, sendErrorEvent;
  repeat first
    [ lazymatch goal with
      | |- keeps ?R (clientId ?U) => apply (SessionSpec.clientId_keeps U R)
      end
    | SessionSpec.keeps_step ];
  registered_leaf.

Lemma call_registered c : keeps registered_kept (call U c).
Proof.
  destruct c; unfold call.
  - unfold initialize, initializeCore, clearTasks. registered_go.
  - unfold register, registerCore. registered_go.
  - unfold pick. registered_go.
  - unfold release, releaseCore. registered_go.
  - unfold on_atomicChanged, onTaskReassigned, onNewTaskAssigned. registered_go.
  - unfold on_removeMember, clearTasks. registered_go.
  - unfold on_connected, initializeCore, clearTasks. registered_go.
  - unfold on_disconnected, clearRunningTasks, initializeCore, clearTasks. registered_go.
  - unfold on_waitAttached, clearRunningTasks, initializeCore, clearTasks. registered_go.
  - intros s t H. exact H.
  - intros s t H. exact H.
Qed.

Lemma calls_registered cs s : registered_kept s (calls U cs s).
Proof.
  revert s. induction cs as [|c cs IH]; intros s; [by intros t H|].
  cbn. etransitivity; [apply (call_registered c s)|apply IH].
Qed.

End Registered.

(** X17. A scheduler registers a task once in its life: a task that is in
    [registeredTasks] stays there whatever happens afterwards, so that every
    later [register] of a list that contains it is rejected as "already
    registered", changing nothing. *)
Theorem registered_for_life (U : string) (cs : list Call) (s : Scheduler)
    (taskUrls : list string) (t : string) :
  t ∈ registeredTasks s -> t ∈ taskUrls ->
  t ∈ registeredTasks (calls U cs s) /\
  exists t',
    t' ∈ taskUrls /\
    register taskUrls (calls U cs s) = (Throw (AlreadyRegistered t'), calls U cs s).
Proof.
  intros Ht Hin. pose proof (calls_registered U cs s t Ht) as Ht'.
  split; [done|]. unfold register. unfold bind at 1.
  rewrite AgentSchedulerSpec.register_check.
  destruct (list_find _ taskUrls) as [[i t']|] eqn:E.
  - apply list_find_Some in E as (Hi & _). exists t'.
    split; [by eapply list_elem_of_lookup_2|done].
  - apply list_find_None in E. rewrite Forall_forall in E. by destruct (E t Hin).
Qed.

Lemma registered_for_life_witness :
  let s := exec (register ["task"]) (scheduler_A true) in
  let cs := [DoPick "task" 7%nat; HearAtomicChanged "task" (Some "A");
             DoRelease ["task"]; HearAtomicChanged "task" None; HearDisconnected] in
  exists t',
    register ["other"; "task"] (calls unattached cs s) =
      (Throw (AlreadyRegistered t'), calls unattached cs s).
Proof.
  intros s cs.
  destruct (registered_for_life unattached cs s ["other"; "task"] "task")
    as (_ & t' & _ & H).
  - vm_compute. set_solver.
  - set_solver.
  - by exists t'.
Defined.

(** X18. A replica that is not active repairs nothing: none of its
    listeners ("atomicChanged", "removeMember", "connected", "disconnected",
    the attach of the container) writes to the register; the repair is left
    to [initializeCore] on the next connection. *)
Theorem inactive_listener_writes_nothing (U : string) (c : Call) (s : Scheduler) :
  is_listener c = true ->
  isActive s = false ->
  writes (exec (call U c) s) = writes s.
Proof.
  intros Hc Hact. destruct c; try discriminate Hc; unfold exec, call.
  - unfold on_atomicChanged. unfold bind at 1. cbn [get]. unfold bind at 1.
    rewrite Hact. cbn [ret].
    unfold onTaskReassigned. unfold bind at 1. cbn [get]. unfold bind at 1.
    destruct (set_has key (runningTasks s)).
    + unfold bind at 1. cbn [modify]. unfold emit. cbn [modify].
      unfold bind at 1. cbn [get].
      match goal with |- context [isActive ?x] =>
        rewrite (AgentSchedulerSpec.isActive_runtime x s eq_refl) end.
      by rewrite Hact.
    + cbn [ret]. unfold bind at 1. cbn [get]. by rewrite Hact.
  - unfold on_removeMember. unfold bind at 1. cbn [get]. unfold bind at 1.
    destruct (routingContextAttached (runtime s)); [|done]. cbn [assert ret].
    by rewrite Hact.
  - unfold on_connected. unfold bind at 1. cbn [get]. by rewrite Hact.
  - unfold on_disconnected. unfold bind at 1. cbn [get].
    destruct (negb _); [|done].
    by rewrite (AgentSchedulerSpec.clearRunningTasks_inactive U s Hact).
  - unfold on_waitAttached. unfold bind at 1. unfold async.
    by rewrite (AgentSchedulerSpec.clearRunningTasks_inactive U s Hact).
Qed.

Lemma inactive_listener_writes_nothing_witness :
  let s :=
    set_runtime
      {| attachState := Attached; connected := false; runtimeClientId := Some "A";
         deltaManagerActive := true; interactive := true; quorumMembers := ["A"];
         routingContextAttached := true |} scheduler_A_owner in
  writes (exec (call unattached (HearAtomicChanged "task" None)) s) = writes s.
Proof.
  intros s.
  apply (inactive_listener_writes_nothing unattached (HearAtomicChanged "task" None) s);
    vm_compute; reflexivity.
Defined.

(** X19. In a container that is still detached the scheduler is active
    whatever the connection is, and acts under the unattached client id: on
    an interactive client, [pick] of a task that was not attempted and that
    the register has no owner for writes the unattached client id as
    claimant, also when the runtime is not connected and has no client id. *)
Theorem pick_detached (U taskId : string) (worker : Worker) (s : Scheduler) :
  attachState (runtime s) = Detached ->
  interactive (runtime s) = true ->
  map_has taskId (locallyRunnableTasks s) = false ->
  getTaskClientId taskId s = None \/ getTaskClientId taskId s = Some None ->
  isActive s = true /\
  pick U taskId worker s =
    (Ok tt,
     set_writes (writes s ++ [(taskId, Some U)])
       (set_locallyRunnableTasks (map_set taskId worker (locallyRunnableTasks s)) s)).
Proof.
  intros Ha Hi Hl Hreg.
  assert (Hact : isActive s = true) by (unfold isActive; by rewrite Ha).
  split; [done|].
  rewrite (AgentSchedulerSpec.pick_cases U taskId worker s). cbv zeta.
  rewrite Hl, Hi, Hact. cbn [negb].
  assert (Hc : fst (clientId U s) = Ok U).
  { unfold clientId, bind, get, ret. cbn. by rewrite Ha. }
  rewrite Hc. by destruct Hreg as [-> | ->].
Qed.

Lemma pick_detached_witness :
  let s :=
    new {| attachState := Detached; connected := false; runtimeClientId := None;
           deltaManagerActive := false; interactive := true; quorumMembers := [];
           routingContextAttached := false |} [] in
  writes (exec (pick unattached "task" 7%nat) s) = [("task", Some unattached)].
Proof.
  intros s.
  destruct (pick_detached unattached "task" 7%nat s) as (_ & H);
    [vm_compute; reflexivity..|by left|].
  unfold exec. by rewrite H.
Defined.

End CallsSpec.

(* ===================================================================== *)
(** * Properties of FluidFormInitialize *)
(* ===================================================================== *)

Module FluidFormInitializeSpec.
Import RouterliciousClient FluidFormInitialize.

(** X20. [FluidFormInitialize] can be constructed once on a page. The
    construction returns normally exactly when [CONTAINER_ID] has 13
    characters and the global client was not initialized; it then initializes
    the global client with the external configuration. From then on every
    further construction throws and leaves the page as it is, and
    [initializeContainer] always reaches [createContainer] of that instance,
    with the id it is given, or with [CONTAINER_ID] when the id is undefined
    or empty. *)
Theorem constructed_once (p : Page) :
  (fst (constructor p) = Returned tt <->
   String.length (CONTAINER_ID p) = 13%nat /\ client p = None) /\
  (fst (constructor p) = Returned tt ->
   let p1 := snd (constructor p) in
   client p1 =
     Some (ExternalRouterliciousConfig "ExternalRouterlicious" "InsecureJWTKey"
             None None) /\
   (exists message, constructor p1 = (Thrown message, p1)) /\
   forall containerId,
     errors (initializeContainer containerId p1) = errors p /\
     created (initializeContainer containerId p1) =
       created p ++
       [(ExternalRouterliciousConfig "ExternalRouterlicious" "InsecureJWTKey" None None,
         match containerId with
         | Some c => if String.eqb c "" then CONTAINER_ID p else c
         | None => CONTAINER_ID p
         end)]).
Proof.
  unfold constructor.
  destruct (String.length (CONTAINER_ID p) =? 13)%nat eqn:Hlen; cbn [negb].
  - apply Nat.eqb_eq in Hlen. destruct p as [id [g|] cr er]; cbn in *.
    + split; [split; [done|by intros (_ & ?)]|done].
    + split; [done|]. intros _. split_and!; [done| |done].
      rewrite Hlen. cbn. eauto.
  - apply Nat.eqb_neq in Hlen. split; [split; [done|by intros (? & _)]|done].
Qed.

Lemma constructed_once_witness :
  let p1 := snd (constructor loaded) in
  (exists message, constructor p1 = (Thrown message, p1)) /\
  created (initializeContainer (Some "") p1) =
    [(ExternalRouterliciousConfig "ExternalRouterlicious" "InsecureJWTKey" None None,
      "0000000000000")].
Proof.
  intros p1.
  destruct (constructed_once loaded) as (_ & H).
  destruct H as (_ & H2 & H3); [vm_compute; reflexivity|].
  split; [exact H2|]. destruct (H3 (Some "")) as (_ & H4). exact H4.
Defined.

End FluidFormInitializeSpec.
